(** * five-texases: the colour classifier, the state filter and the result
    series of [utils.py] and [parsing.py], the bar chart of [charts.py] and
    the layout of the frames

    The Python code works on binary64 numbers, on strings and on pandas
    tables.  Numbers are Rocq's primitive floats (the same IEEE 754 format,
    rounding to nearest even), strings are [string], a table is a list of
    column names with a list of rows of cells, and the tables a function can
    reach live in a heap of objects, so that writing a column is an update of
    the object the variable names. *)

From Stdlib Require Import ZArith QArith Qabs Floats Lia Zpower.
From stdpp Require Import base option list strings pretty gmap.

(* Decimal literals such as 65.7 denote the nearest binary64 number, the way
   Python reads them. *)
Set Warnings "-inexact-float".

Local Open Scope string_scope.
Local Open Scope list_scope.

(** ** Python values, exceptions *)

(** [Dangling] is no Python exception: it is what the model answers to a
    reference outside the heap, which no Python program can hold. *)
Inductive exn := IndexError | KeyError | TypeError | ValueError | Dangling.

Inductive result (A : Type) :=
  | Ok (a : A)
  | Raise (e : exn).
Arguments Ok {A} a.
Arguments Raise {A} e.

#[global] Instance result_ret : MRet result := fun A a => Ok a.
#[global] Instance result_bind : MBind result := fun A B k r =>
  match r with
  | Ok a => k a
  | Raise e => Raise e
  end.
#[global] Instance result_fmap : FMap result := fun A B f r =>
  match r with
  | Ok a => Ok (f a)
  | Raise e => Raise e
  end.

(** What a table cell, an argument or a return value can be: a number, a
    string, or [None].  An integer cell is the float of the same value; on the
    integers up to 2^53 Python's [==], [<], [abs] and [float()] agree with
    the float operations. *)
Inductive pyval :=
  | VFloat (x : float)
  | VStr (s : string)
  | VNone.

(** Python's [==] on two values. *)
Definition py_eq (a b : pyval) : bool :=
  match a, b with
  | VFloat x, VFloat y => PrimFloat.eqb x y
  | VStr s, VStr t => String.eqb s t
  | VNone, VNone => true
  | _, _ => false
  end.

(** [l[i]] for [i >= 0] and [l[-1]]. *)
Definition py_index {A} (l : list A) (i : nat) : result A :=
  match l !! i with
  | Some x => Ok x
  | None => Raise IndexError
  end.

Definition py_last {A} (l : list A) : result A :=
  match last l with
  | Some x => Ok x
  | None => Raise IndexError
  end.

(** [l[-n:]]: the last [n] elements, the whole list when it is shorter. *)
Definition py_suffix {A} (n : nat) (l : list A) : list A :=
  drop (length l - n) l.

(** [sum(l)] and [max(l)] on integers; [max] of nothing raises. *)
Definition py_sum (l : list Z) : Z := foldl Z.add 0%Z l.

Definition py_max (l : list Z) : result Z :=
  match l with
  | [] => Raise ValueError
  | x :: l' => Ok (foldl Z.max x l')
  end.

(** ** utils.py *)

Module utils.

Definition COLORS_D : list string :=
  ["#86B6F2"; "#4389E3"; "#1666CB"; "#0645B4"; "#002B84"].
Definition COLORS_R : list string :=
  ["#E27F90"; "#CC2F4A"; "#D40000"; "#AA0000"; "#800000"].
Definition COLOR_GREY : string := "#D6D6D6".
Definition THRESH_MARGIN : list float := [50; 60; 70; 80; 90; 100]%float.

(** The [for] loop of [get_color] over [enumerate(zip(thresh, thresh[1:]))],
    started at index [i]: [Some r] when an iteration returns [colors[i]],
    [None] when the loop runs to its end. *)
Fixpoint get_color_loop (value : float) (colors : list string)
    (pairs : list (float * float)) (i : nat) : option (result pyval) :=
  match pairs with
  | [] => None
  | (lo, hi) :: rest =>
      (* left < abs(value) <= right *)
      if (PrimFloat.ltb lo (abs value) && PrimFloat.leb (abs value) hi)%bool
      then Some (VStr <$> py_index colors i)
      else get_color_loop value colors rest (S i)
  end.

Definition get_color (value : float) (thresh : list float) : result pyval :=
  let colors := if PrimFloat.ltb value 0 then COLORS_D else COLORS_R in
  match get_color_loop value colors (zip thresh (tail thresh)) 0 with
  | Some r => r
  | None =>
      t ← py_last thresh;
      (* value > thresh[-1] *)
      if PrimFloat.ltb t value
      then VStr <$> py_last colors
      else Ok VNone
  end.

Definition grey_out (name color colored_name color_grey : pyval) : pyval :=
  if py_eq name colored_name then color else color_grey.

(** The loop of lines 116 to 118 of [combine_images], on the sizes of the
    images: the corner each image is pasted at. *)
Fixpoint combine_images_loop (sizes : list (Z * Z)) (x_offset : Z)
    : list (Z * Z) :=
  match sizes with
  | [] => []
  | size :: rest =>
      (x_offset, 0%Z) :: combine_images_loop rest (x_offset + size.1)%Z
  end.

(** Lines 111 to 118 of [combine_images], on the sizes of the opened images:
    the size of the new image and the corners of the pasted ones.  With no
    image, [zip] of the unpacked sizes yields nothing, and unpacking that
    into [widths] and [heights] raises [ValueError]. *)
Definition combine_images_layout (sizes : list (Z * Z))
    : result ((Z * Z) * list (Z * Z)) :=
  match sizes with
  | [] => Raise ValueError
  | _ :: _ =>
      let widths := fst <$> sizes in
      let heights := snd <$> sizes in
      let total_width := py_sum widths in
      max_height ← py_max heights;
      Ok ((total_width, max_height), combine_images_loop sizes 0)
  end.

End utils.

(** ** pandas tables

    A table has named columns and rows with one cell per column.  Only what
    [parsing.py] calls is modelled: [df[name]], [df[mask]], [df[name] = col],
    [Series.apply], [DataFrame.apply(axis=1)] and [df.iloc[0].tolist()]; the
    element-wise operations work on the rows that are there. *)

Record DataFrame := { columns : list string; rows : list (list pyval) }.

Fixpoint col_pos (name : string) (cols : list string) : option nat :=
  match cols with
  | [] => None
  | c :: cs => if String.eqb c name then Some 0%nat else S <$> col_pos name cs
  end.

Definition cell (r : list pyval) (j : nat) : pyval := default VNone (r !! j).

(** [df[name]]: the column as a series, [KeyError] when there is none. *)
Definition df_getitem (df : DataFrame) (name : string) : result (list pyval) :=
  match col_pos name (columns df) with
  | Some j => Ok ((fun r => cell r j) <$> rows df)
  | None => Raise KeyError
  end.

(** [x[name]] on a row [x] of a table with the columns [cols]. *)
Definition row_getitem (cols : list string) (x : list pyval) (name : string)
    : result pyval :=
  match col_pos name cols with
  | Some j => Ok (cell x j)
  | None => Raise KeyError
  end.

(** [series == v] and [series != v]. *)
Definition series_eq (col : list pyval) (v : pyval) : list bool :=
  (fun x => py_eq x v) <$> col.
Definition series_ne (col : list pyval) (v : pyval) : list bool :=
  (fun x => negb (py_eq x v)) <$> col.

(** [df[mask]]: a new table with the rows whose mask entry is [True]. *)
Definition df_select (df : DataFrame) (mask : list bool) : DataFrame :=
  {| columns := columns df;
     rows := fst <$> filter (fun p => snd p = true) (zip (rows df) mask) |}.

(** [df[name] = col]: the column is replaced, or added as the last one. *)
Definition df_setitem (df : DataFrame) (name : string) (col : list pyval)
    : DataFrame :=
  match col_pos name (columns df) with
  | Some j =>
      {| columns := columns df;
         rows := zip_with (fun r v => <[j:=v]> r) (rows df) col |}
  | None =>
      {| columns := columns df ++ [name];
         rows := zip_with (fun r v => r ++ [v]) (rows df) col |}
  end.

(** [series.apply(f)] and [df.apply(f, axis=1)]: [f] on each element in
    order, the first exception ends the call. *)
Fixpoint series_apply {A B} (f : A -> result B) (l : list A) : result (list B) :=
  match l with
  | [] => Ok []
  | x :: l' => y ← f x; ys ← series_apply f l'; Ok (y :: ys)
  end.

(** [range(start, stop, step)] for a positive step. *)
Definition py_range (start stop step : Z) : list Z :=
  (fun i => start + step * i)%Z <$> seqZ 0 ((stop - start + step - 1) / step).

(** ** The heap of tables

    A variable of type [pd.DataFrame] holds a reference.  [df[mask]] makes a
    new object, [df[name] = col] updates the object [df] refers to. *)

Definition loc := positive.
Abbreviation heap := (gmap loc DataFrame).

Definition M (A : Type) : Type := heap -> result A * heap.

#[global] Instance M_ret : MRet M := fun A a h => (Ok a, h).
#[global] Instance M_bind : MBind M := fun A B k m h =>
  match m h with
  | (Ok a, h') => k a h'
  | (Raise e, h') => (Raise e, h')
  end.

Definition lift {A} (r : result A) : M A := fun h => (r, h).

Definition load (l : loc) : M DataFrame := fun h =>
  match h !! l with
  | Some df => (Ok df, h)
  | None => (Raise Dangling, h)
  end.

Definition alloc (df : DataFrame) : M loc := fun h =>
  let l := fresh (dom h) in (Ok l, <[l:=df]> h).

Definition store (l : loc) (df : DataFrame) : M unit := fun h =>
  (Ok tt, <[l:=df]> h).

(** [df[name] = col] on the object at [l]. *)
Definition setitem (l : loc) (name : string) (col : list pyval) : M unit :=
  df ← load l;
  store l (df_setitem df name col).

Fixpoint for_each {A} (body : A -> M unit) (l : list A) : M unit :=
  match l with
  | [] => mret tt
  | x :: l' => _ ← body x; for_each body l'
  end.

(** ** parsing.py *)

Module parsing.

Definition THRESH_MARGIN : list float := [50; 60; 70; 80; 90; 100]%float.
Definition YEARS : list Z := py_range 2000 2024 4.

(** [utils.get_color(x, THRESH_MARGIN)] on a cell: [x < 0] raises
    [TypeError] on a string and on [None]. *)
Definition get_color_cell (x : pyval) : result pyval :=
  match x with
  | VFloat v => utils.get_color v THRESH_MARGIN
  | _ => Raise TypeError
  end.

Definition conditions (df : DataFrame) (state : string) : result (list bool) :=
  c_state ← df_getitem df "state";
  c_is_state ← df_getitem df "is_state";
  c_unit ← df_getitem df "unit";
  Ok (zip_with andb
        (zip_with orb (series_eq c_state (VStr state))
                      (series_eq c_is_state (VFloat 1)))
        (series_ne c_unit (VStr state))).

(** The body of [for year in YEARS] on the table [state_data]. *)
Definition get_data_year (state_data : loc) (state : string) (year : Z)
    : M unit :=
  let name := pretty year in
  df ← load state_data;
  col ← lift (df_getitem df name);
  data_year ← lift (series_apply get_color_cell col);
  _ ← setitem state_data name data_year;
  df ← load state_data;
  greyed ← lift (series_apply (fun x =>
      n ← row_getitem (columns df) x "state";
      c ← row_getitem (columns df) x name;
      Ok (utils.grey_out n c (VStr state) (VStr utils.COLOR_GREY))) (rows df));
  setitem state_data name greyed.

Definition get_data (data : loc) (state : string) : M loc :=
  df ← load data;
  conds ← lift (conditions df state);
  state_data ← alloc (df_select df conds);
  _ ← for_each (get_data_year state_data state) YEARS;
  mret state_data.

(** The comprehensions of lines 44 and 45. *)
Definition d_results (results : list float) : list float :=
  (fun i => if PrimFloat.ltb i 0 then abs i else 100 - i)%float <$> results.
Definition r_results (results : list float) : list float :=
  (fun i => if PrimFloat.ltb i 0 then 100 + i else i)%float <$> results.

Section float_conversion.
(** Python's [float(s)] on a string, [None] when it raises [ValueError]. *)
Variable float_of_str : string -> option float.

Definition py_float (x : pyval) : result float :=
  match x with
  | VFloat v => Ok v
  | VStr s =>
      match float_of_str s with
      | Some v => Ok v
      | None => Raise ValueError
      end
  | VNone => Raise TypeError
  end.

(** Lines 43 to 46, from the row [results] that line 42 found. *)
Definition series_of_row (results : list pyval) : result (list (list float)) :=
  results ← series_apply py_float (py_suffix 6 results);
  Ok [d_results results; r_results results].

(** [get_results] only reads its table: it takes the table the reference
    names, not the reference. *)
Definition get_results (data : DataFrame) (state : string)
    : result (list (list float)) :=
  c_unit ← df_getitem data "unit";
  results ← py_index (rows (df_select data (series_eq c_unit (VStr state)))) 0;
  series_of_row results.
End float_conversion.

End parsing.

(** ** Python lists indexed by any integer *)

(** The position that the index [i] names in a list of [n] elements: a
    negative index counts from the end, an index outside [-n, n) names
    nothing. *)
Definition py_pos (n : nat) (i : Z) : option nat :=
  if ((0 <=? i) && (i <? Z.of_nat n))%Z then Some (Z.to_nat i)
  else if ((- Z.of_nat n <=? i) && (i <? 0))%Z
       then Some (Z.to_nat (Z.of_nat n + i))
       else None.

(** [l[i]] and [l[i] = x]. *)
Definition py_getitem {A} (l : list A) (i : Z) : result A :=
  match py_pos (length l) i with
  | Some k => py_index l k
  | None => Raise IndexError
  end.

Definition py_setitem {A} (l : list A) (i : Z) (x : A) : result (list A) :=
  match py_pos (length l) i with
  | Some k => Ok (<[k := x]> l)
  | None => Raise IndexError
  end.

(** ** charts.py *)

Module charts.

Definition BLUE : string := "#4389E3".
Definition RED : string := "#CC2F4A".
Definition LIGHT_BLUE : string := "#CBCFDC".
Definition LIGHT_RED : string := "#DEB3B3".
Definition COLORS_D : list string :=
  ["#86B6F2"; "#4389E3"; "#1666CB"; "#0645B4"; "#002B84"].
Definition COLORS_R : list string :=
  ["#E27F90"; "#CC2F4A"; "#D40000"; "#AA0000"; "#800000"].
Definition COLOR_GREY : string := "#D6D6D6".
Definition YEARS : list string :=
  (fun i : Z => pretty i) <$> py_range 2000 2024 4.

(** Line 32 of [draw_map]: the dict comprehension, a later key overwriting an
    earlier equal one. *)
Definition color_map : gmap string string :=
  foldl (fun m i => <[i := i]> m) ∅ (COLORS_D ++ COLORS_R ++ [COLOR_GREY]).

(** The bars and the texts of a chart.  An [Axes] of matplotlib is modelled
    by what [charts.py] reads and writes of it: [ax.patches], the rectangles
    in the order in which they were drawn, and the texts of [ax.text]. *)
Record Rectangle := {
  rect_x : float;
  rect_y : float;
  rect_width : float;
  rect_height : float;
  rect_color : string
}.

Record Axes := {
  patches : list Rectangle;
  texts : list (float * float * string)
}.

(** A [for] loop whose body may raise. *)
Fixpoint for_result {A S} (body : A -> S -> result S) (l : list A) (s : S)
    : result S :=
  match l with
  | [] => Ok s
  | x :: l' => s' ← body x s; for_result body l' s'
  end.

(** Lines 120 to 122 of [create_chart].  The two rows are two list objects,
    so writing to one leaves the other as it is. *)
Definition create_chart_colors (row_number : Z) : result (list (list string)) :=
  for_result (fun i colors =>
      accent ← py_getitem [BLUE; RED] i;
      row ← py_getitem colors i;
      row' ← py_setitem row row_number accent;
      py_setitem colors i row')
    (py_range 0 2 1)
    [replicate 6 LIGHT_BLUE; replicate 6 LIGHT_RED].

Definition add_annot (text : string) (patch_number : Z) (ax : Axes)
    : result Axes :=
  patch ← py_getitem (patches ax) patch_number;
  let width := rect_width patch in
  let height := rect_height patch in
  let x := rect_x patch in
  let y := rect_y patch in
  Ok {| patches := patches ax;
        texts := texts ax ++ [((x + width / 2)%float, (y + height / 2)%float, text)] |}.

Section matplotlib.
(** [ax.barh(y, width, color=color, left=left)] of matplotlib, with [None]
    for a call without [left], and Python's [str(round(v, 2))]. *)
Variable barh :
  list string -> list float -> list string -> option (list float) -> Axes ->
  result Axes.
Variable round2 : float -> string.

(** The loop of [draw_bar_chart] over [enumerate(zip(values, colors))],
    started at index [i]. *)
Fixpoint draw_bar_chart_loop (y : list string) (values : list (list float))
    (pairs : list (list float * list string)) (i : nat) (ax : Axes)
    : result Axes :=
  match pairs with
  | [] => Ok ax
  | (values_, colors_) :: rest =>
      ax' ← match i with
            | O => barh y values_ colors_ None ax
            | S _ =>
                left ← py_getitem values (Z.of_nat i - 1);
                barh y values_ colors_ (Some left) ax
            end;
      draw_bar_chart_loop y values rest (S i) ax'
  end.

Definition draw_bar_chart (y : list string) (values : list (list float))
    (colors : list (list string)) (ax : Axes) : result Axes :=
  draw_bar_chart_loop y values (zip values colors) 0 ax.

(** [create_chart], up to [plt.savefig(name)]: the axes that are saved.  The
    calls on the spines, the ticks and the margins change no bar and no
    text. *)
Definition create_chart (values : list (list float)) (row_number : Z)
    (name : string) : result Axes :=
  let ax := {| patches := []; texts := [] |} in
  colors ← create_chart_colors row_number;
  ax ← draw_bar_chart YEARS values colors ax;
  s0 ← py_getitem values 0;
  v0 ← py_getitem s0 row_number;
  ax ← add_annot ("   " +:+ round2 v0 +:+ "%") row_number ax;
  s1 ← py_getitem values 1;
  v1 ← py_getitem s1 row_number;
  add_annot ("   " +:+ round2 v1 +:+ "%") (row_number + 6) ax.
End matplotlib.

End charts.

(** * The vocabulary of the statements

    What the theorems below say about the code is said with the definitions
    of this part: the order and the exact value of a binary64 number, the
    row test and the recolouring of the state filter, what a command may
    write in the heap, and the example tables. *)

Local Open Scope Z_scope.

(** The rank of a number in the order of [SFcompare]: sign class, then
    exponent, then mantissa, the last two negated for a negative number.
    NaN has no rank. *)
Definition SFrank (x : spec_float) : option (Z * Z * Z) :=
  match x with
  | S754_nan => None
  | S754_infinity true => Some (-2, 0, 0)
  | S754_infinity false => Some (2, 0, 0)
  | S754_zero _ => Some (0, 0, 0)
  | S754_finite true m e => Some (-1, - e, Z.neg m)
  | S754_finite false m e => Some (1, e, Z.pos m)
  end.

(** The lexicographic comparison of two ranks. *)
Definition lex_cmp (p q : Z * Z * Z) : comparison :=
  let '(a, b, c) := p in
  let '(a', b', c') := q in
  match a ?= a' with
  | Eq => match b ?= b' with Eq => c ?= c' | r => r end
  | r => r
  end.

Definition frank (x : float) : option (Z * Z * Z) := SFrank (Prim2SF x).

Definition rank_cmp (p q : option (Z * Z * Z)) : option comparison :=
  match p, q with
  | Some p, Some q => Some (lex_cmp p q)
  | _, _ => None
  end.

(** What [k] right shifts of [m0] have kept: the quotient, and in the two
    bits whether the part shifted out is at least, and whether it is exactly,
    nothing or one half. *)
Definition shr_inv (m0 k : Z) (mrs : shr_record) : Prop :=
  0 <= shr_m mrs /\
  exists rem,
    m0 = shr_m mrs * 2 ^ k + rem /\ 0 <= rem < 2 ^ k /\
    (shr_r mrs = true -> 2 ^ k <= 2 * rem) /\
    (shr_r mrs = false -> 2 * rem < 2 ^ k) /\
    (shr_s mrs = false -> 2 * rem = if shr_r mrs then 2 ^ k else 0).

(** [2^e] in units of [2^-1074], for [e >= -1074]. *)
Definition pow2 (e : Z) : Z := 2 ^ (e + 1074).

(** The exact value of a number in units of [2^-1074]: every exponent of a
    binary64 number is at least -1074, so the value is a whole number of
    units.  Infinities and NaN count as 0; [SFnumber] tells them apart. *)
Definition SFunits (x : spec_float) : Z :=
  match x with
  | S754_finite s m e => cond_Zopp s (Z.pos m * pow2 e)
  | _ => 0
  end.

Definition SFnumber (x : spec_float) : bool :=
  match x with
  | S754_finite _ _ _ | S754_zero _ => true
  | _ => false
  end.

(** The exponent binary64 gives to a number of [x] binary digits. *)
Definition fexp64 (x : Z) : Z := Z.max (x - 53) (-1074).

Definition Funits (x : float) : Z := SFunits (Prim2SF x).
Definition Fnumber (x : float) : bool := SFnumber (Prim2SF x).

(** The number 100: [7036874417766400 * 2^-46]. *)
Definition c100 : spec_float := S754_finite false 7036874417766400 (-46).

Definition unit_den : positive := Z.to_pos (2 ^ 1074).

(** The exact value of a number as a rational; 0 for infinities and NaN. *)
Definition F2Q (x : float) : Q := Funits x # unit_den.

Local Open Scope float_scope.

(** The row test of line 20, on the positions of the three columns. *)
Definition keep (js ji ju : nat) (state : string) (r : list pyval) : bool :=
  (py_eq (cell r js) (VStr state) || py_eq (cell r ji) (VFloat 1))
  && negb (py_eq (cell r ju) (VStr state)).

(** The colour [get_color] gives to a numeric cell. *)
Definition color_of (x : pyval) : pyval :=
  match parsing.get_color_cell x with
  | Ok c => c
  | Raise _ => VNone
  end.

(** One year column of one row after lines 23 to 27. *)
Definition paint (js : nat) (state : string) (r : list pyval) (j : nat)
    : list pyval :=
  <[j := utils.grey_out (cell r js) (color_of (cell r j))
           (VStr state) (VStr utils.COLOR_GREY)]> r.

(** A row after the loop over the year columns at the positions [pos]. *)
Definition recolor (js : nat) (pos : list nat) (state : string)
    (r : list pyval) : list pyval :=
  foldl (paint js state) r pos.

(** A table [get_data] accepts: the three columns it tests and the six year
    columns are there, each row has one cell per column, and the year cells
    are numbers. *)
Record table_ok (df : DataFrame) (js ji ju : nat) (pos : list nat) : Prop := {
  ok_state : col_pos "state" (columns df) = Some js;
  ok_is_state : col_pos "is_state" (columns df) = Some ji;
  ok_unit : col_pos "unit" (columns df) = Some ju;
  ok_years :
    Forall2 (fun y j => col_pos (pretty y) (columns df) = Some j)
      parsing.YEARS pos;
  ok_rows :
    Forall (fun r => length r = length (columns df) /\
                     Forall (fun j => exists v, cell r j = VFloat v) pos)
      (rows df)
}.

(** [m] writes to the object at [l] only, and does not delete it. *)
Definition writes_only {A} (l : loc) (m : M A) : Prop :=
  forall h : heap,
    (forall l', l' <> l -> (m h).2 !! l' = h !! l') /\
    (is_Some (h !! l) -> is_Some ((m h).2 !! l)).

(** Example tables.  Their strings are no numerals, so [float()] raises
    [ValueError] on each of them. *)
Definition no_numerals : string -> option float := fun _ => None.

Definition schema : list string :=
  ["unit"; "state"; "is_state"; "code";
   "2000"; "2004"; "2008"; "2012"; "2016"; "2020"]%string.

Definition row_of (unit state : string) (is_state code : float)
    (margins : list float) : list pyval :=
  [VStr unit; VStr state; VFloat is_state; VFloat code] ++ (VFloat <$> margins).

Definition two_states : DataFrame :=
  {| columns := schema;
     rows :=
       [ row_of "X" "X" 1 1 [-65.7; -61.2; -58.4; -55.1; 40.5; 97.25];
         row_of "x1" "X" 0 2 [-72.5; -68.0; -45.5; 10.0; 52.5; 99.0];
         row_of "Y" "Y" 1 3 [51.3; 53.5; 62.0; 71.5; 80.25; 91.0];
         row_of "y1" "Y" 0 4 [55.0; 65.0; 75.0; 85.0; 95.0; -51.0] ] |}.

(** A table that breaks the invariant of one aggregate row per state. *)
Definition twice_x : DataFrame :=
  {| columns := schema;
     rows :=
       [ row_of "Y" "Y" 1 3 [51.3; 53.5; 62.0; 71.5; 80.25; 91.0];
         row_of "X" "X" 1 1 [-65.7; -61.2; -58.4; -55.1; 40.5; 97.25];
         row_of "X" "X" 1 5 [1.0; 2.0; 3.0; 4.0; 5.0; 6.0] ] |}.

(** The two states with a single year column. *)
Definition one_year : DataFrame :=
  {| columns := ["unit"; "state"; "is_state"; "code"; "2020"]%string;
     rows := [ [VStr "X"; VStr "X"; VFloat 1; VFloat 1; VFloat (-65.7)];
               [VStr "Y"; VStr "Y"; VFloat 1; VFloat 2; VFloat 51.3] ] |}.

(** A table with an aggregate margin far outside the percentages. *)
Definition off_scale : DataFrame :=
  {| columns := schema;
     rows := [ row_of "X" "X" 1 1 [-1e300; -61.2; -58.4; -55.1; 40.5; 97.25];
               row_of "Y" "Y" 1 3 [51.3; 53.5; 62.0; 71.5; 80.25; 91.0] ] |}.

(** The band test of line 38, on the magnitude [a]. *)
Definition in_band (a : float) (p : float * float) : Prop :=
  (PrimFloat.ltb p.1 a && PrimFloat.leb a p.2)%bool = true.

(** From a heap that holds [l], [m] raises only exceptions in [E] and leaves
    an object at [l]. *)
Definition raises_only {A} (l : loc) (E : exn -> Prop) (m : M A) : Prop :=
  forall h : heap, is_Some (h !! l) ->
    (forall e, (m h).1 = Raise e -> E e) /\ is_Some ((m h).2 !! l).

(** What a failing [get_data] can raise. *)
Definition key_or_type (e : exn) : Prop := e = KeyError \/ e = TypeError.

(** What the theorems on the bar chart assume of [barh]: called with as many
    widths, colours and left edges as labels, it draws one bar per label, in
    the order of the labels, after the bars that are there, with the width,
    the colour and the left edge it was given, and touches no text. *)
Definition barh_draws
    (barh : list string -> list float -> list string -> option (list float) ->
            charts.Axes -> result charts.Axes) : Prop :=
  forall y width color left ax,
    length width = length y -> length color = length y ->
    (forall l, left = Some l -> length l = length y) ->
    exists bars,
      barh y width color left ax
      = Ok {| charts.patches := charts.patches ax ++ bars;
              charts.texts := charts.texts ax |} /\
      length bars = length y /\
      forall k b, bars !! k = Some b ->
        width !! k = Some (charts.rect_width b) /\
        color !! k = Some (charts.rect_color b) /\
        forall l, left = Some l -> l !! k = Some (charts.rect_x b).

(** A text at the centre of a bar. *)
Definition centred (b : charts.Rectangle) (text : string)
    : float * float * string :=
  (charts.rect_x b + charts.rect_width b / 2,
   charts.rect_y b + charts.rect_height b / 2, text).

(** The annotation of a value. *)
Definition percent (round2 : float -> string) (v : float) : string :=
  "   " +:+ round2 v +:+ "%".

(** An instance of [barh]: bars of height 0.8 centred on the positions 0, 1,
    ... of the labels, starting at 0 when no left edge is given. *)
Definition bars_of (y : list string) (width : list float) (color : list string)
    (left : option (list float)) : list charts.Rectangle :=
  imap (fun k _ =>
    {| charts.rect_x := default 0 (l ← left; l !! k);
       charts.rect_y := of_uint63 (Uint63.of_Z (Z.of_nat k)) - 0.4;
       charts.rect_width := default 0 (width !! k);
       charts.rect_height := 0.8;
       charts.rect_color := default EmptyString (color !! k) |}) y.

Definition plain_barh (y : list string) (width : list float)
    (color : list string) (left : option (list float)) (ax : charts.Axes)
    : result charts.Axes :=
  Ok {| charts.patches := charts.patches ax ++ bars_of y width color left;
        charts.texts := charts.texts ax |}.

(** * The order of binary64 numbers

    [SFcompare] orders the numbers that are not NaN by sign, then by
    exponent, then by mantissa.  [SFrank] maps a number to a triple of
    integers whose lexicographic order is that order, so that a goal about
    [<] and [<=] on floats becomes linear integer arithmetic. *)

Local Open Scope Z_scope.

Lemma SFcompare_rank x y : SFcompare x y = rank_cmp (SFrank x) (SFrank y).
Proof.
  destruct x as [[]|[]| |[] m e], y as [[]|[]| |[] m' e']; try reflexivity;
    cbn -[Z.compare Z.opp]; f_equal.
  change (-1 ?= -1) with Eq; cbv iota.
  rewrite Z.compare_opp, (Z.compare_antisym e e').
  destruct (e ?= e'); reflexivity.
Qed.

Lemma ltb_rank x y :
  PrimFloat.ltb x y =
  match rank_cmp (frank x) (frank y) with Some Lt => true | _ => false end.
Proof. rewrite ltb_spec. unfold SFltb. now rewrite SFcompare_rank. Qed.

Lemma leb_rank x y :
  PrimFloat.leb x y =
  match rank_cmp (frank x) (frank y) with
  | Some (Lt | Eq) => true
  | _ => false
  end.
Proof. rewrite leb_spec. unfold SFleb. now rewrite SFcompare_rank. Qed.

Lemma frank_abs x :
  frank (abs x) =
  match frank x with
  | Some (a, b, c) => Some (Z.abs a, if a <? 0 then - b else b, Z.abs c)
  | None => None
  end.
Proof.
  unfold frank. rewrite abs_spec.
  destruct (Prim2SF x) as [[]|[]| |[] m e]; cbn; try reflexivity.
  now rewrite Z.opp_involutive.
Qed.

(** The rank of a literal is computed; the rank of a variable is a triple of
    unknown integers, or none. *)
Ltac rank_consts :=
  repeat match goal with
  | |- context [frank ?c] =>
      tryif is_var c then fail else
      let r := eval vm_compute in (frank c) in
      change (frank c) with r
  | H : context [frank ?c] |- _ =>
      tryif is_var c then fail else
      let r := eval vm_compute in (frank c) in
      change (frank c) with r in H
  end.

Ltac rank_cases :=
  cbn [rank_cmp lex_cmp] in *;
  repeat match goal with
  | H : context [?a ?= ?b] |- _ => destruct (Z.compare_spec a b)
  | |- context [?a ?= ?b] => destruct (Z.compare_spec a b)
  | H : context [?a <? ?b] |- _ => destruct (Z.ltb_spec a b)
  | |- context [?a <? ?b] => destruct (Z.ltb_spec a b)
  end;
  try (discriminate || reflexivity || lia).

Ltac float_order :=
  rewrite ?ltb_rank, ?leb_rank, ?frank_abs in *;
  rank_consts;
  repeat match goal with
  | H : context [frank ?v] |- _ => destruct (frank v) as [[[? ?] ?]|]
  | |- context [frank ?v] => destruct (frank v) as [[[? ?] ?]|]
  end;
  rank_cases.

(** * The colour classifier *)

Local Open Scope float_scope.

(** What one iteration of the loop of [get_color] does. *)
Lemma get_color_loop_hit v colors lo hi rest i :
  (lo <? abs v) = true -> (abs v <=? hi) = true ->
  utils.get_color_loop v colors ((lo, hi) :: rest) i
  = Some (VStr <$> py_index colors i).
Proof. intros H1 H2. cbn. now rewrite H1, H2. Qed.

Lemma get_color_loop_above v colors lo hi rest i :
  (abs v <=? hi) = false ->
  utils.get_color_loop v colors ((lo, hi) :: rest) i
  = utils.get_color_loop v colors rest (S i).
Proof. intros H. cbn. now rewrite H, andb_false_r. Qed.

Lemma get_color_loop_below v colors lo hi rest i :
  (lo <? abs v) = false ->
  utils.get_color_loop v colors ((lo, hi) :: rest) i
  = utils.get_color_loop v colors rest (S i).
Proof. intros H. cbn. now rewrite H. Qed.

(** A number whose magnitude exceeds 50 is not NaN and not zero: it is
    negative or positive. *)
Lemma sign_of_large v :
  (50 <? abs v) = true -> (v <? 0) = false -> (0 <? v) = true.
Proof. intros H1 H2. float_order. Qed.

(** Between two thresholds the order is total. *)
Lemma above_of_not_below v lo hi :
  (lo <? abs v) = true -> (abs v <=? hi) = false -> frank hi <> None ->
  (hi <? abs v) = true.
Proof.
  intros H1 H2 H3. rewrite ltb_rank, leb_rank, frank_abs in *.
  destruct (frank v) as [[[a b] c]|], (frank lo) as [[[a1 b1] c1]|],
    (frank hi) as [[[a2 b2] c2]|]; try congruence; try discriminate.
  rank_cases.
Qed.

(** C1.  For every value [v] with [50 < |v| <= 100], [get_color] with the
    default thresholds returns a ramp colour: the colour of the band [i] with
    [thresh[i] < |v| <= thresh[i+1]], taken from [COLORS_D] when [v] is
    negative and from [COLORS_R] when [v] is positive. *)
Theorem get_color_in_ramp (v : float) :
  (50 <? abs v) = true -> (abs v <=? 100) = true ->
  exists (i : nat) (lo hi : float) (c : string),
    utils.get_color v utils.THRESH_MARGIN = Ok (VStr c) /\
    utils.THRESH_MARGIN !! i = Some lo /\
    utils.THRESH_MARGIN !! S i = Some hi /\
    (lo <? abs v) = true /\ (abs v <=? hi) = true /\
    (((v <? 0) = true /\ utils.COLORS_D !! i = Some c) \/
     ((0 <? v) = true /\ utils.COLORS_R !! i = Some c)).
Proof.
  intros H50 H100.
  assert (Hside : forall i c,
    (if v <? 0 then utils.COLORS_D else utils.COLORS_R) !! i = Some c ->
    ((v <? 0) = true /\ utils.COLORS_D !! i = Some c) \/
    ((0 <? v) = true /\ utils.COLORS_R !! i = Some c)).
  { intros i c Hc. destruct (v <? 0) eqn:Hneg; [left; auto|right].
    split; [now apply sign_of_large|assumption]. }
  unfold utils.get_color, utils.THRESH_MARGIN.
  set (colors := if v <? 0 then utils.COLORS_D else utils.COLORS_R) in *.
  cbn [zip zip_with tail].
  destruct (abs v <=? 60) eqn:E60.
  { rewrite get_color_loop_hit by assumption.
    exists 0%nat, 50, 60.
    subst colors; destruct (v <? 0); eexists; repeat split; eauto. }
  assert (H60 : (60 <? abs v) = true)
    by (apply (above_of_not_below v 50); [assumption..|discriminate]).
  rewrite get_color_loop_above by assumption.
  destruct (abs v <=? 70) eqn:E70.
  { rewrite get_color_loop_hit by assumption.
    exists 1%nat, 60, 70.
    subst colors; destruct (v <? 0); eexists; repeat split; eauto. }
  assert (H70 : (70 <? abs v) = true)
    by (apply (above_of_not_below v 60); [assumption..|discriminate]).
  rewrite get_color_loop_above by assumption.
  destruct (abs v <=? 80) eqn:E80.
  { rewrite get_color_loop_hit by assumption.
    exists 2%nat, 70, 80.
    subst colors; destruct (v <? 0); eexists; repeat split; eauto. }
  assert (H80 : (80 <? abs v) = true)
    by (apply (above_of_not_below v 70); [assumption..|discriminate]).
  rewrite get_color_loop_above by assumption.
  destruct (abs v <=? 90) eqn:E90.
  { rewrite get_color_loop_hit by assumption.
    exists 3%nat, 80, 90.
    subst colors; destruct (v <? 0); eexists; repeat split; eauto. }
  assert (H90 : (90 <? abs v) = true)
    by (apply (above_of_not_below v 80); [assumption..|discriminate]).
  rewrite get_color_loop_above by assumption.
  rewrite get_color_loop_hit by assumption.
  exists 4%nat, 90, 100.
  subst colors; destruct (v <? 0); eexists; repeat split; eauto.
Qed.

Lemma get_color_in_ramp_witness :
  (50 <? abs (-65.7)) = true /\ (abs (-65.7) <=? 100) = true /\
  exists (i : nat) (lo hi : float) (c : string),
    utils.get_color (-65.7) utils.THRESH_MARGIN = Ok (VStr c) /\
    utils.THRESH_MARGIN !! i = Some lo /\
    utils.THRESH_MARGIN !! S i = Some hi /\
    (lo <? abs (-65.7)) = true /\ (abs (-65.7) <=? hi) = true /\
    (((-65.7 <? 0) = true /\ utils.COLORS_D !! i = Some c) \/
     ((0 <? -65.7) = true /\ utils.COLORS_R !! i = Some c)).
Proof.
  split; [reflexivity|]. split; [reflexivity|].
  apply (get_color_in_ramp (-65.7)); reflexivity.
Defined.

(** Below the first threshold no band matches and the last test fails. *)
Lemma below_first_threshold v lo :
  (abs v <=? 50) = true -> (50 <=? lo) = true -> (lo <? abs v) = false.
Proof.
  intros H1 H2. rewrite ltb_rank, leb_rank, frank_abs in *.
  change (frank 50) with (Some (1, -47, 7036874417766400)%Z) in *.
  destruct (frank v) as [[[a b] c]|], (frank lo) as [[[a1 b1] c1]|];
    try discriminate; try reflexivity.
  rank_cases.
Qed.

Lemma not_above_100 v : (abs v <=? 50) = true -> (100 <? v) = false.
Proof. intros H. float_order. Qed.

(** C6.  For every value [v] with [|v| <= 50], [get_color] with the default
    thresholds finds no band and returns [None]: no ramp colour and no grey. *)
Theorem get_color_below_50 (v : float) :
  (abs v <=? 50) = true ->
  utils.get_color v utils.THRESH_MARGIN = Ok VNone.
Proof.
  intros H.
  unfold utils.get_color, utils.THRESH_MARGIN. cbn [zip zip_with tail].
  rewrite !get_color_loop_below by (apply below_first_threshold; [assumption|reflexivity]).
  cbn. now rewrite (not_above_100 v H).
Qed.

Lemma get_color_below_50_witness :
  (abs 12.5 <=? 50) = true /\
  utils.get_color 12.5 utils.THRESH_MARGIN = Ok VNone.
Proof. split; [reflexivity|]. apply (get_color_below_50 12.5). reflexivity. Defined.

(** Above the last threshold the loop finds no band, whatever the sign. *)
Lemma get_color_loop_above_100 v colors :
  (100 <? abs v) = true ->
  utils.get_color_loop v colors
    (zip utils.THRESH_MARGIN (tail utils.THRESH_MARGIN)) 0 = None.
Proof.
  intros H. unfold utils.THRESH_MARGIN. cbn [zip zip_with tail].
  assert (Hhi : forall hi, (hi <=? 100) = true -> (abs v <=? hi) = false).
  { intros hi Hhi. rewrite ltb_rank, leb_rank, frank_abs in *.
    change (frank 100) with (Some (1, -46, 7036874417766400)%Z) in *.
    destruct (frank v) as [[[a b] c]|], (frank hi) as [[[a1 b1] c1]|];
      try discriminate; try reflexivity.
    rank_cases. }
  rewrite !get_color_loop_above by (apply Hhi; reflexivity).
  reflexivity.
Qed.

(** The positive half of C3: above 100 the last colour of [COLORS_R]. *)
Lemma get_color_above_100 (v : float) :
  (100 <? v) = true ->
  utils.get_color v utils.THRESH_MARGIN = Ok (VStr "#800000").
Proof.
  intros H. unfold utils.get_color.
  rewrite get_color_loop_above_100 by (clear - H; float_order).
  assert ((v <? 0) = false) as -> by (clear - H; float_order).
  cbn. now rewrite H.
Qed.

(** The negative half fails: line 40 compares [value], not [abs(value)], with
    the last threshold, so below -100 the function returns [None]. *)
Lemma get_color_below_minus_100 (v : float) :
  (v <? -100) = true ->
  utils.get_color v utils.THRESH_MARGIN = Ok VNone.
Proof.
  intros H. unfold utils.get_color.
  rewrite get_color_loop_above_100 by (clear - H; float_order).
  assert ((100 <? v) = false) as Hv by (clear - H; float_order).
  cbn. now rewrite Hv.
Qed.

(** C3.  At [v = -150], whose magnitude exceeds the last threshold,
    [get_color] returns [None] and not [COLORS_D[-1]]; at [v = 150] it
    returns [COLORS_R[-1]]. *)
Theorem get_color_beyond_last_threshold :
  (100 <? abs (-150)) = true /\
  utils.get_color (-150) utils.THRESH_MARGIN = Ok VNone /\
  py_last utils.COLORS_D = Ok "#002B84"%string /\
  utils.get_color 150 utils.THRESH_MARGIN = VStr <$> py_last utils.COLORS_R.
Proof. repeat split; vm_compute; reflexivity. Qed.

(** C5.  Band edges are exclusive below and inclusive above: 60 lies in band
    0 ([50 < 60 <= 60]) and 60.01 in band 1 ([60 < 60.01 <= 70]), and the two
    colours differ. *)
Theorem get_color_band_edge :
  utils.get_color 60 utils.THRESH_MARGIN = VStr <$> py_index utils.COLORS_R 0 /\
  utils.get_color 60.01 utils.THRESH_MARGIN = VStr <$> py_index utils.COLORS_R 1 /\
  utils.get_color (-60) utils.THRESH_MARGIN = VStr <$> py_index utils.COLORS_D 0 /\
  utils.get_color (-60.01) utils.THRESH_MARGIN = VStr <$> py_index utils.COLORS_D 1 /\
  ((50 <? abs 60) && (abs 60 <=? 60))%bool = true /\
  ((60 <? abs 60.01) && (abs 60.01 <=? 70))%bool = true /\
  (60 <? abs 60) = false /\
  utils.get_color 60 utils.THRESH_MARGIN
    <> utils.get_color 60.01 utils.THRESH_MARGIN.
Proof. repeat split; try (vm_compute; reflexivity). vm_compute. discriminate. Qed.

(** C7.  [grey_out] returns the colour unchanged when the name of the
    subdivision's state is the name of the state being drawn, and the grey
    colour when the two names differ. *)
Theorem grey_out_spec (name : string) (color : pyval) :
  utils.grey_out (VStr name) color (VStr name) (VStr utils.COLOR_GREY) = color /\
  forall other : string, other <> name ->
    utils.grey_out (VStr name) color (VStr other) (VStr utils.COLOR_GREY)
    = VStr utils.COLOR_GREY.
Proof.
  unfold utils.grey_out. cbn [py_eq]. split.
  - now rewrite String.eqb_refl.
  - intros other Hne. destruct (String.eqb_spec name other); congruence.
Qed.

Lemma grey_out_spec_witness :
  utils.grey_out (VStr "Trinity") (VStr "#4389E3") (VStr "Trinity")
    (VStr utils.COLOR_GREY) = VStr "#4389E3" /\
  utils.grey_out (VStr "Trinity") (VStr "#4389E3") (VStr "Gulfland")
    (VStr utils.COLOR_GREY) = VStr utils.COLOR_GREY.
Proof.
  split.
  - apply (grey_out_spec "Trinity" (VStr "#4389E3")).
  - apply (grey_out_spec "Trinity" (VStr "#4389E3")). discriminate.
Defined.

(** * The result series *)

(** A mask computed row by row selects the rows on which it holds. *)
Lemma df_select_fmap (f : list pyval -> bool) (df : DataFrame) :
  rows (df_select df (f <$> rows df)) = filter (fun r => f r = true) (rows df).
Proof.
  unfold df_select; cbn [rows]. induction (rows df) as [|r rs IH]; [reflexivity|].
  cbn [fmap list_fmap zip zip_with]. rewrite !filter_cons. cbn [snd].
  fold (list_fmap _ _ f rs). fold (zip rs (f <$> rs)).
  destruct (decide (f r = true)); cbn; now rewrite <- IH.
Qed.

Lemma series_eq_column (df : DataFrame) (j : nat) (v : pyval) :
  series_eq ((fun r => cell r j) <$> rows df) v
  = (fun r => py_eq (cell r j) v) <$> rows df.
Proof. unfold series_eq. now rewrite <- list_fmap_compose. Qed.

(** Line 42: the first row, in table order, whose [unit] is the state. *)
Lemma get_results_unfold float_of_str data state j :
  col_pos "unit" (columns data) = Some j ->
  parsing.get_results float_of_str data state =
  match filter (fun r => py_eq (cell r j) (VStr state) = true) (rows data) with
  | [] => Raise IndexError
  | r :: _ => parsing.series_of_row float_of_str r
  end.
Proof.
  intros Hj. unfold parsing.get_results, df_getitem. rewrite Hj.
  cbn [mbind result_bind]. rewrite series_eq_column, df_select_fmap.
  now destruct (filter _ _).
Qed.

Lemma get_results_no_row float_of_str (data : DataFrame) (state : string)
    (j : nat) :
  col_pos "unit" (columns data) = Some j ->
  Forall (fun r => py_eq (cell r j) (VStr state) = false) (rows data) ->
  parsing.get_results float_of_str data state = Raise IndexError.
Proof.
  intros Hj Hnone. rewrite (get_results_unfold _ _ _ j Hj).
  induction Hnone as [|r rs Hr _ IH]; [reflexivity|].
  rewrite filter_cons. destruct (decide _); [congruence|exact IH].
Qed.

Lemma get_results_first_row float_of_str (data : DataFrame) (state : string)
    (j : nat) pre r post :
  col_pos "unit" (columns data) = Some j ->
  rows data = pre ++ r :: post ->
  Forall (fun r' => py_eq (cell r' j) (VStr state) = false) pre ->
  py_eq (cell r j) (VStr state) = true ->
  parsing.get_results float_of_str data state
  = parsing.series_of_row float_of_str r.
Proof.
  intros Hj Hrows Hpre Hr. rewrite (get_results_unfold _ _ _ j Hj), Hrows.
  clear Hrows. induction Hpre as [|r' pre Hr' _ IH]; cbn [app].
  - rewrite filter_cons. destruct (decide _); [reflexivity|contradiction].
  - rewrite filter_cons. destruct (decide _); [congruence|exact IH].
Qed.

(** C10.  On a table with a [unit] column: when no row has the state as its
    unit, [get_results] raises [IndexError]; otherwise it returns what lines
    43 to 46 derive from the first such row in table order, whatever rows
    follow it. *)
Theorem get_results_first_match float_of_str (data : DataFrame)
    (state : string) (j : nat) :
  col_pos "unit" (columns data) = Some j ->
  (Forall (fun r => py_eq (cell r j) (VStr state) = false) (rows data) ->
   parsing.get_results float_of_str data state = Raise IndexError) /\
  (forall pre r post,
     rows data = pre ++ r :: post ->
     Forall (fun r' => py_eq (cell r' j) (VStr state) = false) pre ->
     py_eq (cell r j) (VStr state) = true ->
     parsing.get_results float_of_str data state
     = parsing.series_of_row float_of_str r).
Proof.
  intros Hj. split.
  - now apply get_results_no_row.
  - intros pre r post. now apply get_results_first_row.
Qed.

Lemma get_results_first_match_witness :
  parsing.get_results no_numerals two_states "Z" = Raise IndexError /\
  parsing.get_results no_numerals twice_x "X"
  = parsing.series_of_row no_numerals
      (row_of "X" "X" 1 1 [-65.7; -61.2; -58.4; -55.1; 40.5; 97.25]).
Proof.
  split.
  - apply (get_results_first_match no_numerals two_states "Z" 0); [reflexivity|].
    repeat constructor.
  - apply (get_results_first_match no_numerals twice_x "X" 0 eq_refl)
      with (pre := [row_of "Y" "Y" 1 3 [51.3; 53.5; 62.0; 71.5; 80.25; 91.0]])
           (post := [row_of "X" "X" 1 5 [1.0; 2.0; 3.0; 4.0; 5.0; 6.0]]).
    + reflexivity.
    + repeat constructor.
    + reflexivity.
Defined.



(** The extractor reads the last six cells of the aggregate row.  On a table
    with a single year column these include the [unit], [state], [is_state]
    and [code] cells, and [float()] raises on the first of them. *)
Lemma get_results_one_year float_of_str :
  float_of_str "X"%string = None ->
  parsing.get_results float_of_str one_year "X" = Raise ValueError.
Proof. intros H. vm_compute. now rewrite H. Qed.

(** On six year columns with the same margin the series have six entries. *)
Lemma get_results_six_years float_of_str :
  parsing.get_results float_of_str
    {| columns := schema;
       rows := [ row_of "X" "X" 1 1 [-65.7; -65.7; -65.7; -65.7; -65.7; -65.7] ] |}
    "X"
  = Ok [ [65.7; 65.7; 65.7; 65.7; 65.7; 65.7];
         [34.3; 34.3; 34.3; 34.3; 34.3; 34.3] ].
Proof. vm_compute. reflexivity. Qed.

(** * The state filter: what it does to the heap *)

Lemma writes_only_ret {A} l (a : A) : writes_only l (mret a).
Proof. intros h; split; auto. Qed.

Lemma writes_only_lift {A} l (r : result A) : writes_only l (lift r).
Proof. intros h; split; auto. Qed.

Lemma writes_only_load l l0 : writes_only l (load l0).
Proof. intros h; unfold load; destruct (h !! l0); split; auto. Qed.

Lemma writes_only_store l df : writes_only l (store l df).
Proof.
  intros h; unfold store; cbn [snd]; split.
  - intros l' Hne. now rewrite lookup_insert_ne.
  - intros _. rewrite lookup_insert_eq. eauto.
Qed.

Lemma writes_only_bind {A B} l (m : M A) (k : A -> M B) :
  writes_only l m -> (forall a, writes_only l (k a)) -> writes_only l (m ≫= k).
Proof.
  intros Hm Hk h. unfold mbind, M_bind.
  destruct (Hm h) as [Hm1 Hm2]. destruct (m h) as [[a|e] h1]; cbn [snd] in *.
  - destruct (Hk a h1) as [Hk1 Hk2]. split.
    + intros l' Hne. now rewrite Hk1, Hm1.
    + auto.
  - split; auto.
Qed.

Lemma writes_only_setitem l name col : writes_only l (setitem l name col).
Proof.
  apply writes_only_bind; [apply writes_only_load|].
  intros df. apply writes_only_store.
Qed.

Lemma writes_only_for_each {A} l (body : A -> M unit) (xs : list A) :
  (forall x, writes_only l (body x)) -> writes_only l (for_each body xs).
Proof.
  intros Hb. induction xs as [|x xs IH]; cbn [for_each].
  - apply writes_only_ret.
  - apply writes_only_bind; auto.
Qed.

Lemma writes_only_get_data_year l state year :
  writes_only l (parsing.get_data_year l state year).
Proof.
  unfold parsing.get_data_year. cbv zeta.
  repeat (apply writes_only_bind; [|intros ?]);
    first [apply writes_only_load | apply writes_only_lift
          | apply writes_only_store].
Qed.

(** C9.  [get_data] leaves every table of the heap as it was, the input table
    among them, whether it returns or raises; the table it returns is a new
    object of the heap. *)
Theorem get_data_frame (h : heap) (data : loc) (state : string) :
  let (r, h') := parsing.get_data data state h in
  (forall l df, h !! l = Some df -> h' !! l = Some df) /\
  h' !! data = h !! data /\
  (forall l, r = Ok l -> l <> data /\ h !! l = None /\ is_Some (h' !! l)).
Proof.
  unfold parsing.get_data, mbind at 1, M_bind, load.
  destruct (h !! data) as [df|] eqn:Hdata; [|repeat split; auto; discriminate].
  unfold mbind at 1, M_bind, lift.
  destruct (parsing.conditions df state) as [conds|e];
    [|repeat split; auto; discriminate].
  unfold mbind at 1, M_bind, alloc.
  set (l := fresh (dom h)).
  assert (Hl : h !! l = None) by (apply not_elem_of_dom, is_fresh).
  assert (Hne : l <> data) by congruence.
  set (h1 := <[l:=df_select df conds]> h).
  pose proof (writes_only_for_each l (parsing.get_data_year l state)
    parsing.YEARS (writes_only_get_data_year l state) h1) as [Hoff Hon].
  unfold mbind, M_bind.
  destruct (for_each _ _ h1) as [[[]|e] h2]; cbn [snd] in *.
  - assert (Hold : forall l' df', h !! l' = Some df' -> h2 !! l' = Some df').
    { intros l' df' Hl'. rewrite Hoff by congruence.
      subst h1. rewrite lookup_insert_ne by congruence. exact Hl'. }
    split; [exact Hold|]. split; [now apply Hold|].
    intros l0 [= <-]. repeat split; auto.
    apply Hon. subst h1. rewrite lookup_insert_eq. eauto.
  - assert (Hold : forall l' df', h !! l' = Some df' -> h2 !! l' = Some df').
    { intros l' df' Hl'. rewrite Hoff by congruence.
      subst h1. rewrite lookup_insert_ne by congruence. exact Hl'. }
    split; [exact Hold|]. split; [now apply Hold|].
    discriminate.
Qed.

(** * The state filter: which rows it returns *)

Lemma col_pos_lookup name cols j :
  col_pos name cols = Some j -> cols !! j = Some name.
Proof.
  revert j. induction cols as [|c cs IH]; intros j; cbn; [discriminate|].
  destruct (String.eqb_spec c name) as [->|Hne].
  - now intros [= <-].
  - destruct (col_pos name cs) as [j'|]; cbn; [|discriminate].
    intros [= <-]. cbn. now apply IH.
Qed.

Lemma col_pos_NoDup cols names pos :
  Forall2 (fun n j => col_pos n cols = Some j) names pos ->
  NoDup names -> NoDup pos.
Proof.
  induction 1 as [|n j names pos Hn Hrest IH]; intros Hnd; [constructor|].
  apply NoDup_cons in Hnd as [Hnotin Hnd]. apply NoDup_cons. split; [|auto].
  intros Hj. apply Hnotin. clear IH Hnd Hnotin.
  induction Hrest as [|n' j' names pos Hn' _ IH]; [inversion Hj|].
  apply elem_of_cons in Hj as [->|Hj].
  - apply col_pos_lookup in Hn, Hn'. apply elem_of_cons. left. congruence.
  - apply elem_of_cons. right. auto.
Qed.

Lemma get_color_total v :
  exists c, utils.get_color v parsing.THRESH_MARGIN = Ok c.
Proof.
  unfold utils.get_color, parsing.THRESH_MARGIN. cbn [zip zip_with tail].
  cbn [utils.get_color_loop].
  destruct (v <? 0)%float;
    repeat match goal with
    | |- context [if ?b then _ else _] => destruct b
    end; cbn; eauto; destruct (100 <? v)%float; eauto.
Qed.

Lemma get_color_cell_float x :
  (exists v, x = VFloat v) -> parsing.get_color_cell x = Ok (color_of x).
Proof.
  intros [v ->]. unfold color_of. cbn.
  destruct (get_color_total v) as [c ->]. reflexivity.
Qed.

Lemma series_apply_fmap {A B} (f : A -> result B) (g : A -> B) (l : list A) :
  Forall (fun x => f x = Ok (g x)) l -> series_apply f l = Ok (g <$> l).
Proof.
  induction 1 as [|x l Hx _ IH]; [reflexivity|].
  cbn. rewrite Hx. cbn. rewrite IH. reflexivity.
Qed.

Lemma zip_with_fmap_same {A B C} (f : A -> B -> C) (g : A -> B) (l : list A) :
  zip_with f l (g <$> l) = (fun x => f x (g x)) <$> l.
Proof. induction l as [|x l IH]; [reflexivity|]. cbn. now rewrite IH. Qed.

Lemma zip_with_fmap_both {A B C D} (f : B -> C -> D) (g : A -> B) (k : A -> C)
    (l : list A) :
  zip_with f (g <$> l) (k <$> l) = (fun x => f (g x) (k x)) <$> l.
Proof. induction l as [|x l IH]; [reflexivity|]. cbn. now rewrite IH. Qed.

Lemma conditions_keep df state js ji ju :
  col_pos "state" (columns df) = Some js ->
  col_pos "is_state" (columns df) = Some ji ->
  col_pos "unit" (columns df) = Some ju ->
  parsing.conditions df state = Ok (keep js ji ju state <$> rows df).
Proof.
  intros Hs Hi Hu. unfold parsing.conditions, df_getitem.
  rewrite Hs, Hi, Hu. cbn [mbind result_bind].
  unfold series_eq, series_ne. rewrite <- !list_fmap_compose.
  rewrite zip_with_fmap_both, zip_with_fmap_both. reflexivity.
Qed.

(** Running the heap monad. *)
Lemma run_bind {A B} (m : M A) (k : A -> M B) h a h' :
  m h = (Ok a, h') -> (m ≫= k) h = k a h'.
Proof. intros H. unfold mbind, M_bind. now rewrite H. Qed.

Lemma run_load l (h : heap) df : h !! l = Some df -> load l h = (Ok df, h).
Proof. intros H. unfold load. now rewrite H. Qed.

Lemma run_setitem l name col (h : heap) df :
  h !! l = Some df ->
  setitem l name col h = (Ok tt, <[l := df_setitem df name col]> h).
Proof.
  intros H. unfold setitem. now rewrite (run_bind _ _ h df h (run_load l h df H)).
Qed.

Lemma cell_insert_eq r j v : (j < length r)%nat -> cell (<[j := v]> r) j = v.
Proof. intros H. unfold cell. now rewrite list_lookup_insert_eq. Qed.

Lemma cell_insert_ne r j j' v : j <> j' -> cell (<[j := v]> r) j' = cell r j'.
Proof. intros H. unfold cell. now rewrite list_lookup_insert_ne. Qed.

(** Lines 23 to 27 for one year: the column of the year is replaced by the
    colours, greyed out where the row belongs to another state. *)
Lemma get_data_year_paint (h : heap) sd state year cols rws js j :
  h !! sd = Some {| columns := cols; rows := rws |} ->
  col_pos "state" cols = Some js ->
  col_pos (pretty year) cols = Some j ->
  j <> js ->
  Forall (fun r => length r = length cols /\ exists v, cell r j = VFloat v) rws ->
  parsing.get_data_year sd state year h
  = (Ok tt, <[sd := {| columns := cols;
                       rows := (fun r => paint js state r j) <$> rws |}]> h).
Proof.
  intros Hsd Hjs Hj Hne Hrows.
  assert (Hlt : (j < length cols)%nat)
    by (eapply lookup_lt_Some, col_pos_lookup, Hj).
  unfold parsing.get_data_year; cbv zeta.
  rewrite (run_bind _ _ h _ h (run_load sd h _ Hsd)).
  unfold df_getitem; cbn [columns rows]. rewrite Hj.
  rewrite (run_bind (lift _) _ h _ h eq_refl).
  rewrite (series_apply_fmap _ color_of).
  2:{ apply Forall_fmap. eapply Forall_impl; [exact Hrows|].
      intros r [_ Hr]. now apply get_color_cell_float. }
  rewrite (run_bind (lift _) _ h _ h eq_refl).
  rewrite (run_bind _ _ h tt _ (run_setitem sd _ _ h _ Hsd)).
  unfold df_setitem at 1; cbn [columns rows]. rewrite Hj.
  rewrite <- list_fmap_compose, zip_with_fmap_same.
  set (rws1 := (fun r => <[j := color_of (cell r j)]> r) <$> rws).
  set (h1 := <[sd := {| columns := cols; rows := rws1 |}]> h).
  assert (Hsd1 : h1 !! sd = Some {| columns := cols; rows := rws1 |})
    by apply lookup_insert_eq.
  rewrite (run_bind _ _ h1 _ h1 (run_load sd h1 _ Hsd1)).
  cbn [columns rows]. unfold row_getitem. rewrite Hjs, Hj.
  cbn [mbind result_bind].
  rewrite (series_apply_fmap _ (fun x =>
    utils.grey_out (cell x js) (cell x j) (VStr state) (VStr utils.COLOR_GREY)))
    by (apply Forall_forall; reflexivity).
  rewrite (run_bind (lift _) _ h1 _ h1 eq_refl).
  rewrite (run_setitem sd _ _ h1 _ Hsd1).
  unfold df_setitem; cbn [columns rows]. rewrite Hj.
  subst h1. rewrite insert_insert_eq. do 3 f_equal.
  rewrite zip_with_fmap_same. subst rws1. rewrite <- list_fmap_compose.
  apply Forall_fmap_ext. eapply Forall_impl; [exact Hrows|].
  intros r [Hlen _]. cbn. unfold paint.
  rewrite cell_insert_ne by assumption.
  rewrite cell_insert_eq by lia.
  apply list_insert_insert_eq.
Qed.

(** Only the year columns change. *)
Lemma recolor_cell_other js pos state r j' :
  j' ∉ pos -> cell (recolor js pos state r) j' = cell r j'.
Proof.
  unfold recolor. revert r. induction pos as [|j pos IH]; intros r Hj'; [reflexivity|].
  apply not_elem_of_cons in Hj' as [Hne Hj']. cbn [foldl].
  rewrite IH by assumption. unfold paint. apply cell_insert_ne. congruence.
Qed.

(** The loop of lines 22 to 27 over the years [ys], whose columns stand at
    the positions [pos]. *)
Lemma for_each_years_recolor sd state cols js :
  col_pos "state" cols = Some js ->
  forall ys pos,
    Forall2 (fun y j => col_pos (pretty y) cols = Some j) ys pos ->
    NoDup pos -> js ∉ pos ->
    forall rws (h : heap),
      h !! sd = Some {| columns := cols; rows := rws |} ->
      Forall (fun r => length r = length cols /\
                       Forall (fun j => exists v, cell r j = VFloat v) pos) rws ->
      for_each (parsing.get_data_year sd state) ys h
      = (Ok tt, <[sd := {| columns := cols;
                           rows := recolor js pos state <$> rws |}]> h).
Proof.
  intros Hjs ys pos Hpos.
  induction Hpos as [|y j ys pos Hj _ IH]; intros Hnd Hnotin rws h Hsd Hrows.
  - cbn. unfold recolor; cbn [foldl]. rewrite list_fmap_id.
    now rewrite insert_id.
  - apply NoDup_cons in Hnd as [Hjpos Hnd].
    apply not_elem_of_cons in Hnotin as [Hne Hnotin].
    cbn [for_each].
    rewrite (run_bind _ _ h tt _
      (get_data_year_paint h sd state y cols rws js j Hsd Hjs Hj
         (not_eq_sym Hne)
         (Forall_impl _ _ _ Hrows (fun r '(conj Hl Hc) =>
            conj Hl (Forall_inv Hc))))).
    rewrite (IH Hnd Hnotin ((fun r => paint js state r j) <$> rws)).
    + rewrite insert_insert_eq, <- list_fmap_compose. reflexivity.
    + apply lookup_insert_eq.
    + apply Forall_fmap. eapply Forall_impl; [exact Hrows|].
      intros r [Hlen Hc]. cbn. unfold paint. rewrite length_insert.
      split; [assumption|].
      apply Forall_inv_tail in Hc.
      apply Forall_forall. intros j' Hj'.
      rewrite cell_insert_ne by (intros ->; contradiction).
      revert j' Hj'. now apply Forall_forall.
Qed.

Lemma column_names_NoDup :
  NoDup ("unit" :: "is_state" :: "state" :: (pretty <$> parsing.YEARS))%string.
Proof. apply (bool_decide_unpack _). vm_compute. exact I. Qed.

(** C2.  On a table it accepts, [get_data] returns a table whose rows are, in
    table order, the rows of the input with (state equal to the target or
    [is_state] equal to 1) and unit different from the target, each with its
    year columns recoloured and its other cells unchanged.  So no returned row
    has the target as its unit, and every [is_state] row other than the
    target's own is returned, whatever its state. *)
Theorem get_data_rows (h : heap) (data : loc) (state : string)
    (df : DataFrame) (js ji ju : nat) (pos : list nat) :
  h !! data = Some df ->
  table_ok df js ji ju pos ->
  exists (l : loc) (out : DataFrame) (h' : heap),
    parsing.get_data data state h = (Ok l, h') /\
    h' !! l = Some out /\
    columns out = columns df /\
    rows out = recolor js pos state
                 <$> filter (fun r => keep js ji ju state r = true) (rows df) /\
    (forall r, cell (recolor js pos state r) js = cell r js /\
               cell (recolor js pos state r) ji = cell r ji /\
               cell (recolor js pos state r) ju = cell r ju) /\
    Forall (fun r' => py_eq (cell r' ju) (VStr state) = false) (rows out) /\
    (forall r, r ∈ rows df ->
       py_eq (cell r ji) (VFloat 1) = true ->
       py_eq (cell r ju) (VStr state) = false ->
       recolor js pos state r ∈ rows out).
Proof.
  intros Hdata [Hs Hi Hu Hy Hrows].
  assert (Hnd : NoDup (ju :: ji :: js :: pos)).
  { eapply col_pos_NoDup; [|exact column_names_NoDup].
    repeat (constructor; [eassumption|]). now apply Forall2_fmap_l. }
  apply NoDup_cons in Hnd as [Hju Hnd]. apply NoDup_cons in Hnd as [Hji Hnd].
  apply NoDup_cons in Hnd as [Hjs Hnd].
  apply not_elem_of_cons in Hju as [_ Hju]. apply not_elem_of_cons in Hju as [_ Hju].
  apply not_elem_of_cons in Hji as [_ Hji].
  set (kept := filter (fun r => keep js ji ju state r = true) (rows df)).
  set (l := fresh (dom h)).
  set (out := {| columns := columns df; rows := recolor js pos state <$> kept |}).
  exists l, out, (<[l := out]> h).
  assert (Hcells : forall r, cell (recolor js pos state r) js = cell r js /\
               cell (recolor js pos state r) ji = cell r ji /\
               cell (recolor js pos state r) ju = cell r ju)
    by (intros r; rewrite !recolor_cell_other by assumption; auto).
  split; [|split; [apply lookup_insert_eq|split; [reflexivity|split; [reflexivity|
    split; [exact Hcells|split]]]]].
  - unfold parsing.get_data.
    rewrite (run_bind _ _ h _ h (run_load data h df Hdata)).
    rewrite (conditions_keep df state js ji ju Hs Hi Hu).
    rewrite (run_bind (lift _) _ h _ h eq_refl).
    rewrite (run_bind (alloc _) _ h l
               (<[l := df_select df (keep js ji ju state <$> rows df)]> h) eq_refl).
    set (h0 := <[l := df_select df (keep js ji ju state <$> rows df)]> h).
    assert (Hl : h0 !! l = Some {| columns := columns df; rows := kept |}).
    { subst h0. rewrite lookup_insert_eq. unfold df_select at 1. f_equal.
      f_equal. apply (df_select_fmap (keep js ji ju state) df). }
    assert (Hkept : Forall (fun r => length r = length (columns df) /\
                       Forall (fun j => exists v, cell r j = VFloat v) pos) kept).
    { subst kept. apply Forall_forall. intros r Hr.
      apply list_elem_of_filter in Hr as [_ Hr].
      revert r Hr. now apply Forall_forall. }
    rewrite (run_bind _ _ _ tt _
      (for_each_years_recolor l state (columns df) js Hs parsing.YEARS pos
         Hy Hnd Hjs kept h0 Hl Hkept)).
    subst h0. cbn. now rewrite insert_insert_eq.
  - cbn [rows out]. apply Forall_fmap, Forall_forall. intros r Hr.
    apply list_elem_of_filter in Hr as [Hk _]. cbn.
    destruct (Hcells r) as (_ & _ & ->).
    unfold keep in Hk. apply andb_true_iff in Hk as [_ Hk].
    now apply negb_true_iff in Hk.
  - intros r Hr His Hunit. cbn [rows out].
    apply list_elem_of_fmap. exists r. split; [reflexivity|].
    apply list_elem_of_filter. split; [|assumption].
    unfold keep. rewrite His, Hunit, orb_true_r. reflexivity.
Qed.

Lemma two_states_ok : table_ok two_states 1 2 0 [4; 5; 6; 7; 8; 9]%nat.
Proof.
  split; try reflexivity.
  - repeat constructor.
  - repeat (constructor;
      [split; [reflexivity|];
       repeat (constructor; [eexists; reflexivity|]); constructor|]).
    constructor.
Qed.

Lemma get_data_rows_witness :
  exists (l : loc) (out : DataFrame) (h' : heap),
    parsing.get_data 1%positive "X" {[ 1%positive := two_states ]} = (Ok l, h') /\
    h' !! l = Some out /\
    columns out = columns two_states /\
    rows out = recolor 1 [4; 5; 6; 7; 8; 9]%nat "X"
                 <$> filter (fun r => keep 1 2 0 "X" r = true) (rows two_states) /\
    (forall r, cell (recolor 1 [4; 5; 6; 7; 8; 9]%nat "X" r) 1 = cell r 1 /\
               cell (recolor 1 [4; 5; 6; 7; 8; 9]%nat "X" r) 2 = cell r 2 /\
               cell (recolor 1 [4; 5; 6; 7; 8; 9]%nat "X" r) 0 = cell r 0) /\
    Forall (fun r' => py_eq (cell r' 0) (VStr "X") = false) (rows out) /\
    (forall r, r ∈ rows two_states ->
       py_eq (cell r 2) (VFloat 1) = true ->
       py_eq (cell r 0) (VStr "X") = false ->
       recolor 1 [4; 5; 6; 7; 8; 9]%nat "X" r ∈ rows out).
Proof.
  apply (get_data_rows {[ 1%positive := two_states ]} 1%positive "X" two_states
           1 2 0 [4; 5; 6; 7; 8; 9]%nat).
  - reflexivity.
  - exact two_states_ok.
Defined.

(** The filter on the example table, for the state X: the county of X keeps
    its colours, the row of the other state is grey, the row of X itself and
    the county of Y are gone; the input is still in the heap. *)
Example get_data_two_states :
  let (r, h') := parsing.get_data 1%positive "X" {[ 1%positive := two_states ]} in
  r = Ok 2%positive /\
  h' !! 1%positive = Some two_states /\
  h' !! 2%positive = Some
    {| columns := schema;
       rows :=
         [ [VStr "x1"; VStr "X"; VFloat 0; VFloat 2; VStr "#1666CB";
            VStr "#4389E3"; VNone; VNone; VStr "#E27F90"; VStr "#800000"];
           [VStr "Y"; VStr "Y"; VFloat 1; VFloat 3; VStr "#D6D6D6";
            VStr "#D6D6D6"; VStr "#D6D6D6"; VStr "#D6D6D6"; VStr "#D6D6D6";
            VStr "#D6D6D6"] ] |}.
Proof. vm_compute. repeat split. Qed.

(** * Rounding: the error of one float addition

    [SFadd] adds the two mantissas exactly and rounds the sum to 53 bits
    with [binary_round].  The lemmas below follow the definitions of
    [SpecFloat] and bound what the rounding changes. *)

Local Open Scope Z_scope.

(** Size of a mantissa. *)
Lemma digits2_pos_bounds (m : positive) :
  2 ^ (Z.pos (digits2_pos m) - 1) <= Z.pos m < 2 ^ Z.pos (digits2_pos m).
Proof.
  induction m as [m IH|m IH|]; cbn [digits2_pos]; [| |cbn; lia].
  all: rewrite Pos2Z.inj_succ, Z.pow_succ_r by lia.
  all: replace (Z.succ (Z.pos (digits2_pos m)) - 1)
         with (Z.succ (Z.pos (digits2_pos m) - 1)) by lia.
  all: rewrite Z.pow_succ_r by lia; lia.
Qed.

(** [iter_pos] is iteration. *)
Lemma iter_pos_nat {A} (f : A -> A) (p : positive) (x : A) :
  SpecFloat.iter_pos f p x = Nat.iter (Pos.to_nat p) f x.
Proof.
  revert x. induction p as [p IH|p IH|]; intros x; cbn [SpecFloat.iter_pos].
  - rewrite !IH, Pos2Nat.inj_xI.
    replace (S (2 * Pos.to_nat p)) with (Pos.to_nat p + Pos.to_nat p + 1)%nat by lia.
    rewrite !Nat.iter_add. reflexivity.
  - rewrite !IH, Pos2Nat.inj_xO.
    replace (2 * Pos.to_nat p)%nat with (Pos.to_nat p + Pos.to_nat p)%nat by lia.
    rewrite Nat.iter_add. reflexivity.
  - reflexivity.
Qed.

Lemma shr_1_inv m0 k mrs :
  0 <= k -> shr_inv m0 k mrs -> shr_inv m0 (k + 1) (shr_1 mrs).
Proof.
  intros Hk (Hm & rem & Hm0 & Hrem & Hr1 & Hr0 & Hs). unfold shr_inv.
  rewrite Z.pow_add_r, Z.pow_1_r by lia.
  destruct mrs as [m r s]; cbn [shr_m shr_r shr_s] in *.
  assert (Hrs : r || s = false -> rem = 0).
  { intros H. apply orb_false_iff in H as [-> ->]. specialize (Hs eq_refl). lia. }
  destruct m as [|[p|p|]|p]; cbn [shr_1 shr_m shr_r shr_s]; try lia.
  - split; [lia|]. exists rem. repeat split; try lia; try discriminate.
    intros H. rewrite (Hrs H). lia.
  - split; [lia|]. exists (2 ^ k + rem). repeat split; try lia; try discriminate.
    intros H. rewrite (Hrs H). lia.
  - split; [lia|]. exists rem. repeat split; try lia; try discriminate.
    intros H. rewrite (Hrs H). lia.
  - split; [lia|]. exists (2 ^ k + rem). repeat split; try lia; try discriminate.
    intros H. rewrite (Hrs H). lia.
Qed.

Lemma shr_iter_inv m0 (n : nat) :
  0 <= m0 ->
  shr_inv m0 (Z.of_nat n) (Nat.iter n shr_1 (Build_shr_record m0 false false)).
Proof.
  intros Hm0. induction n as [|n IH].
  - unfold shr_inv. simpl Nat.iter. cbn [shr_m shr_r shr_s].
    change (2 ^ Z.of_nat 0) with 1. split; [assumption|]. exists 0.
    repeat split; intros; try lia; try discriminate.
  - rewrite Nat2Z.inj_succ, <- Z.add_1_r. simpl Nat.iter.
    apply shr_1_inv; [lia|assumption].
Qed.

(** The mantissa after [n] right shifts, and after rounding to nearest. *)
Lemma shr_round m0 e (n : positive) :
  0 <= m0 ->
  let '(mrs, e') := shr (Build_shr_record m0 false false) e (Z.pos n) in
  let m1 := shr_m mrs in
  let mr := round_nearest_even m1 (loc_of_shr_record mrs) in
  e' = e + Z.pos n /\
  0 <= m1 /\ m1 * 2 ^ Z.pos n <= m0 < (m1 + 1) * 2 ^ Z.pos n /\
  (mr = m1 \/ mr = m1 + 1) /\
  2 * Z.abs (mr * 2 ^ Z.pos n - m0) <= 2 ^ Z.pos n.
Proof.
  intros Hm0. cbn [shr]. rewrite iter_pos_nat.
  pose proof (shr_iter_inv m0 (Pos.to_nat n) Hm0) as Hinv.
  rewrite positive_nat_Z in Hinv.
  destruct (Nat.iter _ _ _) as [m1 r s].
  destruct Hinv as (Hm1 & rem & Hrem & Hlt & Hr1 & Hr0 & Hs).
  cbn [shr_m shr_r shr_s] in *. cbv zeta.
  split; [reflexivity|]. split; [assumption|]. split; [lia|].
  destruct r, s; cbn [loc_of_shr_record round_nearest_even].
  - specialize (Hr1 eq_refl). split; [auto|]. lia.
  - specialize (Hr1 eq_refl). specialize (Hs eq_refl).
    destruct (Z.even m1); split; auto; lia.
  - specialize (Hr0 eq_refl). split; [auto|]. lia.
  - specialize (Hr0 eq_refl). split; [auto|]. lia.
Qed.

(** ** Values in units of 2^-1074

    Every exponent of a binary64 number is at least -1074, so its value is a
    whole number of units of 2^-1074. *)

Lemma pow2_pos e : -1074 <= e -> 0 < pow2 e.
Proof. intros H. unfold pow2. apply Z.pow_pos_nonneg; lia. Qed.

Lemma pow2_shift e n : -1074 <= e -> 0 <= n -> pow2 (e + n) = pow2 e * 2 ^ n.
Proof.
  intros He Hn. unfold pow2.
  replace (e + n + 1074) with (e + 1074 + n) by lia.
  apply Z.pow_add_r; lia.
Qed.

Lemma pow2_le a b : -1074 <= a <= b -> pow2 a <= pow2 b.
Proof. intros H. unfold pow2. apply Z.pow_le_mono_r; lia. Qed.

Lemma pow2_lt_inv a b : -1074 <= a -> pow2 a < pow2 b -> a < b.
Proof.
  intros Ha H. unfold pow2 in H.
  destruct (Z.lt_ge_cases a b) as [|Hge]; [assumption|].
  destruct (Z.le_gt_cases 0 (b + 1074)) as [Hb|Hb].
  - apply Z.pow_lt_mono_r_iff in H; lia.
  - rewrite (Z.pow_neg_r 2 (b + 1074)) in H by lia.
    pose proof (Z.pow_pos_nonneg 2 (a + 1074)). lia.
Qed.

#[global] Opaque pow2.

Lemma fexp64_eq x : fexp prec emax x = fexp64 x.
Proof. reflexivity. Qed.

(** The size of [m * 2^e] bounds the exponent it is rounded at. *)
Lemma digits_le_of_lt (p : positive) e B :
  -1074 <= e -> Z.pos p * pow2 e < pow2 B -> Z.pos (digits2_pos p) + e <= B.
Proof.
  intros He H.
  pose proof (digits2_pos_bounds p) as [Hlo _].
  assert (pow2 (Z.pos (digits2_pos p) - 1 + e) < pow2 B).
  { rewrite Z.add_comm, pow2_shift by lia.
    pose proof (pow2_pos e He). nia. }
  apply pow2_lt_inv in H0; lia.
Qed.

Lemma cond_Zopp_abs_diff s a b :
  Z.abs (cond_Zopp s a - cond_Zopp s b) = Z.abs (a - b).
Proof. destruct s; cbn; lia. Qed.

Lemma binary_round_aux_bound s (p : positive) ez B :
  -1074 <= ez ->
  ez <= fexp64 (Z.pos (digits2_pos p) + ez) ->
  Z.pos p * pow2 ez < pow2 B ->
  B <= 1023 ->
  let z := binary_round_aux prec emax s (Z.pos p) ez loc_Exact in
  SFnumber z = true /\
  Z.abs (SFunits z - cond_Zopp s (Z.pos p * pow2 ez)) <= 2 * pow2 (fexp64 (B + 1)).
Proof.
  intros Hez Hfexp Hlt HB.
  pose proof (digits_le_of_lt p ez B Hez Hlt) as Hd.
  pose proof (digits2_pos_bounds p) as [Hplo Hphi].
  set (d := Z.pos (digits2_pos p)) in *.
  assert (HE : -1074 <= fexp64 (B + 1)) by (unfold fexp64; lia).
  pose proof (pow2_pos _ HE) as HEpos.
  unfold binary_round_aux, shr_fexp. rewrite !fexp64_eq. cbn [Zdigits2].
  fold d. cbn [shr_record_of_loc].
  destruct (fexp64 (d + ez) - ez) as [|n|n] eqn:Hn; [| |lia].
  - (* the mantissa fits: nothing is shifted out *)
    cbn [shr shr_m loc_of_shr_record round_nearest_even Zdigits2].
    rewrite fexp64_eq. fold d. rewrite Hn. cbn [shr shr_m].
    assert (Hle : (ez <=? emax - prec) = true)
      by (apply Z.leb_le; change (emax - prec) with 971;
              unfold fexp64 in *; lia).
    rewrite Hle. cbn [SFnumber SFunits]. split; [reflexivity|].
    rewrite Z.sub_diag, Z.abs_0. lia.
  - pose proof (shr_round (Z.pos p) ez n ltac:(lia)) as Hshr.
    destruct (shr _ ez (Z.pos n)) as [mrs e'].
    cbv zeta in Hshr. destruct Hshr as (He' & Hm1 & Hfloor & Hmr & Herr).
    set (m1 := shr_m mrs) in *.
    set (mr := round_nearest_even m1 (loc_of_shr_record mrs)) in *.
    assert (He'1 : e' = fexp64 (d + ez)) by lia.
    assert (He'2 : -1074 <= e') by lia.
    assert (Hpe' : pow2 e' = pow2 ez * 2 ^ Z.pos n)
      by (rewrite He'; apply pow2_shift; lia).
    assert (HX : 0 < 2 ^ Z.pos n) by (apply Z.pow_pos_nonneg; lia).
    pose proof (pow2_pos ez Hez) as HU.
    (* the mantissa after rounding has at most one digit more *)
    assert (Hmrd : Zdigits2 mr + e' <= B + 1).
    { assert (Hnd : Z.pos n < d) by (unfold fexp64 in *; lia).
      assert (Hm1lt : m1 < 2 ^ (d - Z.pos n)).
      { apply (Z.mul_lt_mono_pos_r (2 ^ Z.pos n)); [assumption|].
        rewrite <- Z.pow_add_r by lia.
        replace (d - Z.pos n + Z.pos n) with d by lia. lia. }
      destruct mr as [|q|q] eqn:Hq; cbn [Zdigits2]; [unfold fexp64 in *; lia| |lia].
      pose proof (digits2_pos_bounds q) as [Hqlo _].
      assert (2 ^ (Z.pos (digits2_pos q) - 1) < 2 ^ (d - Z.pos n + 1)).
      { rewrite (Z.pow_add_r 2 (d - Z.pos n) 1) by lia. lia. }
      apply Z.pow_lt_mono_r_iff in H; lia. }
    destruct (fexp prec emax (Zdigits2 mr + e') - e') as [|n2|n2] eqn:Hn2;
      rewrite fexp64_eq in Hn2.
    + cbn [shr shr_m].
      assert (He'E : e' <= fexp64 (B + 1)) by (unfold fexp64 in *; lia).
      assert (Hbound : Z.abs (mr * pow2 e' - Z.pos p * pow2 ez) <= pow2 e').
      { rewrite Hpe'. nia. }
      pose proof (pow2_le e' (fexp64 (B + 1)) ltac:(lia)) as Hmono.
      destruct mr as [|q|q] eqn:Hq; [| |lia].
      * cbn [SFnumber SFunits]. split; [reflexivity|].
        destruct s; cbn [cond_Zopp]; lia.
      * assert (Hle : (e' <=? emax - prec) = true)
          by (apply Z.leb_le; change (emax - prec) with 971;
              unfold fexp64 in *; lia).
        rewrite Hle. cbn [SFnumber SFunits]. split; [reflexivity|].
        rewrite cond_Zopp_abs_diff. lia.
    + pose proof (shr_round mr e' n2 ltac:(lia)) as Hshr2.
      cbn [shr_record_of_loc].
      destruct (shr _ e' (Z.pos n2)) as [mrs2 e''].
      cbv zeta in Hshr2. destruct Hshr2 as (He'' & Hm2 & Hfloor2 & _ & _).
      set (m2 := shr_m mrs2) in *.
      assert (He''E : e'' <= fexp64 (B + 1)) by (unfold fexp64 in *; lia).
      assert (Hpe'' : pow2 e'' = pow2 e' * 2 ^ Z.pos n2)
        by (rewrite He''; apply pow2_shift; lia).
      assert (HY : 0 < 2 ^ Z.pos n2) by (apply Z.pow_pos_nonneg; lia).
      assert (Hbound : Z.abs (m2 * pow2 e'' - Z.pos p * pow2 ez) <= 2 * pow2 e'').
      { rewrite Hpe'', Hpe'. 
        assert (0 <= mr * 2 ^ Z.pos n - m2 * 2 ^ Z.pos n2 * 2 ^ Z.pos n
                  < 2 ^ Z.pos n2 * 2 ^ Z.pos n) by nia.
        assert (2 ^ Z.pos n <= 2 ^ Z.pos n2 * 2 ^ Z.pos n) by nia.
        nia. }
      pose proof (pow2_le e'' (fexp64 (B + 1)) ltac:(lia)) as Hmono.
      destruct m2 as [|q|q] eqn:Hq; [| |lia].
      * cbn [SFnumber SFunits]. split; [reflexivity|].
        destruct s; cbn [cond_Zopp]; lia.
      * assert (Hle : (e'' <=? emax - prec) = true)
          by (apply Z.leb_le; change (emax - prec) with 971;
              unfold fexp64 in *; lia).
        rewrite Hle. cbn [SFnumber SFunits]. split; [reflexivity|].
        rewrite cond_Zopp_abs_diff. lia.
    + cbn [shr shr_m].
      assert (He'E : e' <= fexp64 (B + 1)) by (unfold fexp64 in *; lia).
      assert (Hbound : Z.abs (mr * pow2 e' - Z.pos p * pow2 ez) <= pow2 e').
      { rewrite Hpe'. nia. }
      pose proof (pow2_le e' (fexp64 (B + 1)) ltac:(lia)) as Hmono.
      destruct mr as [|q|q] eqn:Hq; [| |lia].
      * cbn [SFnumber SFunits]. split; [reflexivity|].
        destruct s; cbn [cond_Zopp]; lia.
      * assert (Hle : (e' <=? emax - prec) = true)
          by (apply Z.leb_le; change (emax - prec) with 971;
              unfold fexp64 in *; lia).
        rewrite Hle. cbn [SFnumber SFunits]. split; [reflexivity|].
        rewrite cond_Zopp_abs_diff. lia.
Qed.

Lemma iter_xO_value (m d : positive) :
  Z.pos (Pos.iter xO m d) = Z.pos m * 2 ^ Z.pos d.
Proof.
  change (Pos.iter xO m d) with (shift_pos d m).
  rewrite shift_pos_correct, Zpower_pos_nat, Zpower_nat_Z, positive_nat_Z. lia.
Qed.

Lemma iter_xO_digits (m d : positive) :
  Z.pos (digits2_pos (Pos.iter xO m d)) = Z.pos (digits2_pos m) + Z.pos d.
Proof.
  induction d as [|d IH] using Pos.peano_ind.
  - cbn. lia.
  - rewrite Pos.iter_succ. cbn [digits2_pos]. lia.
Qed.

(** Aligning a mantissa to a smaller exponent keeps the value. *)
Lemma shl_align_value m e e' :
  -1074 <= e' ->
  let '(m', e'') := shl_align m e e' in
  Z.pos m' * pow2 e'' = Z.pos m * pow2 e /\
  e'' = Z.min e e' /\
  Z.pos (digits2_pos m') + e'' = Z.pos (digits2_pos m) + e.
Proof.
  intros He'. unfold shl_align.
  destruct (e' - e) as [|d|d] eqn:Hd; [repeat split; lia..|].
  rewrite iter_xO_value, iter_xO_digits.
  replace e with (e' + Z.pos d) by lia.
  rewrite pow2_shift by lia. repeat split; lia.
Qed.

Lemma binary_round_bound s (m : positive) e B :
  -1074 <= e ->
  Z.pos m * pow2 e < pow2 B ->
  B <= 1023 ->
  let z := binary_round prec emax s m e in
  SFnumber z = true /\
  Z.abs (SFunits z - cond_Zopp s (Z.pos m * pow2 e)) <= 2 * pow2 (fexp64 (B + 1)).
Proof.
  intros He Hlt HB. unfold binary_round. rewrite fexp64_eq.
  pose proof (shl_align_value m e (fexp64 (Z.pos (digits2_pos m) + e))
                ltac:(unfold fexp64; lia)) as Hal.
  destruct (shl_align _ _ _) as [mz ez]. destruct Hal as (Hval & Hez & Hdig).
  rewrite <- Hval.
  apply binary_round_aux_bound; try lia.
  - unfold fexp64 in Hez. lia.
  - rewrite Hdig. lia.
Qed.

Lemma binary_normalize_bound (S : Z) e B :
  -1074 <= e ->
  Z.abs S * pow2 e < pow2 B ->
  B <= 1023 ->
  let z := binary_normalize prec emax S e false in
  SFnumber z = true /\
  Z.abs (SFunits z - S * pow2 e) <= 2 * pow2 (fexp64 (B + 1)).
Proof.
  intros He Hlt HB.
  assert (HE : 0 < pow2 (fexp64 (B + 1))) by (apply pow2_pos; unfold fexp64; lia).
  destruct S as [|m|m]; cbn [binary_normalize].
  - cbn. split; [reflexivity|lia].
  - apply (binary_round_bound false m e B); assumption.
  - pose proof (binary_round_bound true m e B He Hlt HB) as [H1 H2].
    split; [exact H1|]. cbn [cond_Zopp] in H2.
    replace (Z.neg m * pow2 e) with (- (Z.pos m * pow2 e)) by lia. exact H2.
Qed.

(** A valid number has its exponent at or above -1074. *)
Lemma valid_exponent s m e :
  valid_binary (S754_finite s m e) = true -> -1074 <= e.
Proof.
  cbn. unfold bounded, canonical_mantissa. rewrite fexp64_eq.
  intros H. apply andb_true_iff in H as [H _]. apply Z.eqb_eq in H.
  unfold fexp64 in H. lia.
Qed.

Lemma valid_mantissa s m e :
  valid_binary (S754_finite s m e) = true -> Z.pos m < 2 ^ 53.
Proof.
  cbn. unfold bounded, canonical_mantissa. rewrite fexp64_eq.
  intros H. apply andb_true_iff in H as [H _]. apply Z.eqb_eq in H.
  pose proof (digits2_pos_bounds m) as [_ Hhi].
  assert (Z.pos (digits2_pos m) <= 53) by (unfold fexp64 in H; lia).
  eapply Z.lt_le_trans; [exact Hhi|]. apply Z.pow_le_mono_r; lia.
Qed.

(** The sum of two numbers is their exact sum rounded: off by at most
    [2^(B-51)] when the exact sum is below [2^B]. *)
Lemma SFadd_bound x y B :
  valid_binary x = true -> valid_binary y = true ->
  SFnumber x = true -> SFnumber y = true ->
  Z.abs (SFunits x + SFunits y) < pow2 B ->
  B <= 1023 ->
  SFnumber (SF64add x y) = true /\
  Z.abs (SFunits (SF64add x y) - (SFunits x + SFunits y))
    <= 2 * pow2 (fexp64 (B + 1)).
Proof.
  intros Hvx Hvy Hnx Hny Hlt HB.
  assert (HE : 0 < pow2 (fexp64 (B + 1))) by (apply pow2_pos; unfold fexp64; lia).
  destruct x as [sx| | |sx mx ex], y as [sy| | |sy my ey]; try discriminate;
    unfold SF64add; cbn [SFadd].
  - destruct sx, sy; cbn; split; try reflexivity; lia.
  - split; [reflexivity|]. cbn [SFunits]. rewrite Z.add_0_l, Z.sub_diag. cbn; lia.
  - split; [reflexivity|]. cbn [SFunits]. rewrite Z.add_0_r, Z.sub_diag. cbn; lia.
  - pose proof (valid_exponent _ _ _ Hvx) as Hex.
    pose proof (valid_exponent _ _ _ Hvy) as Hey.
    cbv zeta.
    pose proof (shl_align_value mx ex (Z.min ex ey) ltac:(lia)) as Hax.
    pose proof (shl_align_value my ey (Z.min ex ey) ltac:(lia)) as Hay.
    destruct (shl_align mx ex _) as [mx' ex'], (shl_align my ey _) as [my' ey'].
    destruct Hax as (Hvalx & Hex' & _), Hay as (Hvaly & Hey' & _).
    cbn [fst]. cbn [SFunits] in *.
    assert (Hex'' : ex' = Z.min ex ey) by lia.
    assert (Hey'' : ey' = Z.min ex ey) by lia.
    rewrite Hex'' in Hvalx. rewrite Hey'' in Hvaly.
    set (S := cond_Zopp sx (Z.pos mx') + cond_Zopp sy (Z.pos my')).
    assert (HS : S * pow2 (Z.min ex ey)
                 = cond_Zopp sx (Z.pos mx * pow2 ex) + cond_Zopp sy (Z.pos my * pow2 ey)).
    { rewrite <- Hvalx, <- Hvaly. subst S. destruct sx, sy; cbn [cond_Zopp]; lia. }
    rewrite <- HS in *.
    apply binary_normalize_bound; [lia| |assumption].
    pose proof (pow2_pos (Z.min ex ey) ltac:(lia)).
    rewrite Z.abs_mul in Hlt. rewrite (Z.abs_eq (pow2 _)) in Hlt by lia.
    exact Hlt.
Qed.

Lemma SFsub_add x y : SF64sub x y = SF64add x (SFopp y).
Proof.
  unfold SF64sub, SF64add.
  destruct x as [[]|[]| |sx mx ex], y as [[]|[]| |sy my ey]; try reflexivity.
  cbn [SFsub SFadd SFopp]. f_equal.
  destruct sx, sy; cbn [cond_Zopp negb]; lia.
Qed.

(** ** The two series add up to 100 *)

Lemma Prim2SF_100 : Prim2SF 100 = c100.
Proof. reflexivity. Qed.

Lemma pow2_0_scale e k : -1074 <= e -> 0 <= k -> e + k = 0 -> pow2 0 = pow2 e * 2 ^ k.
Proof. intros He Hk <-. now apply pow2_shift. Qed.

Lemma pow2_0_46 : pow2 0 = pow2 (-46) * 70368744177664.
Proof. apply (pow2_0_scale (-46) 46); lia. Qed.

Lemma pow2_0_47 : pow2 0 = pow2 (-47) * 140737488355328.
Proof. apply (pow2_0_scale (-47) 47); lia. Qed.

Lemma pow2_0_44 : pow2 0 = pow2 (-44) * 17592186044416.
Proof. apply (pow2_0_scale (-44) 44); lia. Qed.

Lemma pow2_8 : pow2 8 = pow2 0 * 256.
Proof. apply (pow2_shift 0 8); lia. Qed.

Lemma units_c100 : SFunits c100 = 100 * pow2 0.
Proof. cbn [c100 SFunits cond_Zopp]. rewrite pow2_0_46. lia. Qed.

Lemma SFleb_finite_cases m e M E :
  SFleb (S754_finite false m e) (S754_finite false M E) = true ->
  e < E \/ (e = E /\ Z.pos m <= Z.pos M).
Proof.
  unfold SFleb. cbn [SFcompare].
  destruct (Z.compare_spec e E) as [Heq|Hlt|Hgt]; [|auto|discriminate].
  intros H. right. split; [assumption|].
  rewrite Pos.compare_cont_spec in H. unfold Pos.switch_Eq in H.
  destruct (m ?= M)%positive eqn:Hc; [| |discriminate].
  - apply Pos.compare_eq_iff in Hc. rewrite Hc. apply Z.le_refl.
  - apply Pos.compare_lt_iff, Pos2Z.pos_lt_pos in Hc.
    apply Z.lt_le_incl. exact Hc.
Qed.

Lemma leb_c100_cases m e :
  SFleb (S754_finite false m e) c100 = true ->
  e < -46 \/ (e = -46 /\ Z.pos m <= 7036874417766400).
Proof. apply SFleb_finite_cases. Qed.

Lemma units_bound_100 m e :
  -1074 <= e -> Z.pos m < 2 ^ 53 ->
  e < -46 \/ (e = -46 /\ Z.pos m <= 7036874417766400) ->
  Z.pos m * pow2 e <= 100 * pow2 0.
Proof.
  intros He Hm [Hlt|[-> Hle]].
  - pose proof (pow2_le e (-47) ltac:(lia)) as Hmono.
    pose proof (pow2_pos e He) as Hpe.
    rewrite pow2_0_47.
    assert (Hm' : Z.pos m <= 9007199254740992)
      by (apply Z.lt_le_incl; exact Hm).
    apply Z.le_trans with (9007199254740992 * pow2 (-47)); [|lia].
    apply Z.mul_le_mono_nonneg; lia.
  - pose proof (pow2_pos (-46) ltac:(lia)) as Hpe.
    rewrite pow2_0_46.
    apply Z.le_trans with (7036874417766400 * pow2 (-46)); [|lia].
    apply Z.mul_le_mono_nonneg_r; lia.
Qed.

(** A number of magnitude at most 100 is finite, and so is its value. *)
Lemma units_le_100 x :
  valid_binary x = true -> SFleb (SFabs x) c100 = true ->
  SFnumber x = true /\ Z.abs (SFunits x) <= 100 * pow2 0.
Proof.
  intros Hv Hle. pose proof (pow2_pos 0 ltac:(lia)) as HK.
  destruct x as [s|s| |s m e]; try discriminate.
  - split; [reflexivity|]. cbn [SFunits Z.abs]. lia.
  - split; [reflexivity|].
    pose proof (valid_exponent _ _ _ Hv) as He.
    pose proof (valid_mantissa _ _ _ Hv) as Hm.
    pose proof (pow2_pos e He) as Hpe.
    cbn [SFunits]. replace (Z.abs (cond_Zopp s (Z.pos m * pow2 e)))
      with (Z.pos m * pow2 e) by (destruct s; cbn [cond_Zopp]; lia).
    apply units_bound_100; [assumption..|].
    apply leb_c100_cases. exact Hle.
Qed.

(** [100 + y], for [y] of magnitude at most 100, is within [2^-43] of the
    exact sum. *)
Lemma add_100_bound y :
  valid_binary y = true -> SFnumber y = true ->
  Z.abs (SFunits y) <= 100 * pow2 0 ->
  SFnumber (SF64add c100 y) = true /\
  Z.abs (SFunits (SF64add c100 y) - (100 * pow2 0 + SFunits y)) <= 2 * pow2 (-44).
Proof.
  intros Hv Hn Hy. pose proof (pow2_pos 0 ltac:(lia)) as HK.
  rewrite <- units_c100.
  apply (SFadd_bound c100 y 8); try assumption; try reflexivity; [|lia].
  rewrite units_c100, pow2_8. lia.
Qed.

Lemma add_near_100_bound (p q : float) :
  Fnumber p = true -> Fnumber q = true ->
  Z.abs (Funits p + Funits q - 100 * pow2 0) <= 2 * pow2 (-44) ->
  Fnumber (p + q) = true /\
  Z.abs (Funits (p + q) - 100 * pow2 0) <= 4 * pow2 (-44).
Proof.
  unfold Fnumber, Funits. intros Hp Hq H. rewrite add_spec.
  pose proof (pow2_pos 0 ltac:(lia)) as HK.
  pose proof (pow2_pos (-44) ltac:(lia)) as HE.
  pose proof pow2_0_44 as HKE.
  destruct (SFadd_bound (Prim2SF p) (Prim2SF q) 8) as [Hn Hb];
    try assumption; try apply Prim2SF_valid; [|lia|].
  - rewrite pow2_8. lia.
  - split; [assumption|]. change (fexp64 (8 + 1)) with (-44) in Hb. lia.
Qed.

Lemma valid_opp x : valid_binary (SFopp x) = valid_binary x.
Proof. now destruct x. Qed.

Lemma number_opp x : SFnumber (SFopp x) = SFnumber x.
Proof. now destruct x. Qed.

Lemma units_opp x : SFunits (SFopp x) = - SFunits x.
Proof. destruct x as [| | |[] m e]; cbn [SFopp SFunits cond_Zopp negb]; lia. Qed.

(** The pair of lines 44 and 45 for one margin of magnitude at most 100:
    one entry is exact, the other is one rounded sum. *)
Lemma margin_pair_units (m : float) :
  (abs m <=? 100)%float = true ->
  let a := (if m <? 0 then abs m else 100 - m)%float in
  let b := (if m <? 0 then 100 + m else m)%float in
  Fnumber a = true /\ Fnumber b = true /\
  Z.abs (Funits a + Funits b - 100 * pow2 0) <= 2 * pow2 (-44).
Proof.
  intros H. rewrite leb_spec, abs_spec, Prim2SF_100 in H.
  pose proof (Prim2SF_valid m) as Hv.
  destruct (units_le_100 _ Hv H) as [Hn Hu].
  unfold Fnumber, Funits. destruct (m <? 0)%float eqn:Hneg; cbv zeta.
  - rewrite abs_spec, add_spec, Prim2SF_100.
    destruct (add_100_bound (Prim2SF m) Hv Hn Hu) as [Hnb Hb].
    rewrite ltb_spec in Hneg.
    change (Prim2SF 0) with (S754_zero false) in Hneg.
    destruct (Prim2SF m) as [s| | |s mm em]; try discriminate.
    destruct s; [|discriminate].
    split; [reflexivity|]. split; [assumption|].
    cbn [SFabs SFunits cond_Zopp] in *. lia.
  - rewrite sub_spec, Prim2SF_100, SFsub_add.
    destruct (add_100_bound (SFopp (Prim2SF m))) as [Hna Ha].
    + now rewrite valid_opp.
    + now rewrite number_opp.
    + rewrite units_opp. lia.
    + rewrite units_opp in Ha. repeat split; [assumption..|]. lia.
Qed.

(** ** The value of a float as a rational *)

Lemma unit_den_pow2 : Z.pos unit_den = pow2 0.
Proof.
  unfold unit_den. rewrite Z2Pos.id by (apply Z.pow_pos_nonneg; lia).
  symmetry. apply (pow2_0_scale (-1074) 1074); [lia..|].
  reflexivity.
Qed.

Lemma Qabs_near_100 (u : Z) :
  Z.abs (u - 100 * pow2 0) <= 4 * pow2 (-44) ->
  (Qabs ((u # unit_den) - 100) <= 1 # 1000000000)%Q.
Proof.
  intros H. pose proof (pow2_pos (-44) ltac:(lia)) as HE.
  pose proof pow2_0_44 as HK.
  unfold Qle, Qabs, Qminus, Qplus, Qopp. cbn [Qnum Qden].
  rewrite Pos2Z.inj_mul, unit_den_pow2.
  replace (u * 1 + - (100) * pow2 0) with (u - 100 * pow2 0) by lia.
  lia.
Qed.

Lemma Qplus_units (a b : Z) :
  ((a # unit_den) + (b # unit_den) == (a + b) # unit_den)%Q.
Proof.
  unfold Qeq, Qplus. cbn [Qnum Qden]. rewrite Pos2Z.inj_mul. lia.
Qed.

(** Each pair of entries adds up to 100 within 1e-9, as exact values and as
    the float sum. *)
Lemma margin_pair_sum (m : float) :
  (abs m <=? 100)%float = true ->
  let a := (if m <? 0 then abs m else 100 - m)%float in
  let b := (if m <? 0 then 100 + m else m)%float in
  Fnumber a = true /\ Fnumber b = true /\ Fnumber (a + b) = true /\
  (Qabs (F2Q a + F2Q b - 100) <= 1 # 1000000000)%Q /\
  (Qabs (F2Q (a + b) - 100) <= 1 # 1000000000)%Q.
Proof.
  intros H. destruct (margin_pair_units m H) as (Ha & Hb & Hab).
  cbv zeta in *.
  set (a := (if m <? 0 then abs m else 100 - m)%float) in *.
  set (b := (if m <? 0 then 100 + m else m)%float) in *.
  destruct (add_near_100_bound a b Ha Hb Hab) as [Hn Hs].
  pose proof (pow2_pos (-44) ltac:(lia)) as HE.
  repeat split; try assumption.
  - unfold F2Q. rewrite Qplus_units. apply Qabs_near_100. lia.
  - unfold F2Q. apply Qabs_near_100. exact Hs.
Qed.

(** * The series of [get_results] add up to 100 *)

Local Open Scope float_scope.

Lemma series_apply_floats float_of_str (ms : list float) :
  series_apply (parsing.py_float float_of_str) (VFloat <$> ms) = Ok ms.
Proof.
  induction ms as [|m ms IH]; [reflexivity|].
  cbn. fold (list_fmap _ _ VFloat ms). rewrite IH. reflexivity.
Qed.

(** C4, as stated, fails.  For the margin -1e300, [abs] gives 1e300 and
    [100 + -1e300] rounds to -1e300: the two entries add up to 0, as floats
    and as exact values, and 0 is not within 1e-9 of 100. *)
Lemma get_results_sum_off_scale :
  parsing.get_results no_numerals off_scale "X"
  = Ok [ [1e300; 61.2; 58.4; 55.1; 100 - 40.5; 100 - 97.25];
         [-1e300; 100 + -61.2; 100 + -58.4; 100 + -55.1; 40.5; 97.25] ] /\
  1e300 + -1e300 = 0 /\
  (F2Q 1e300 + F2Q (-1e300) == 0)%Q /\
  ~ (Qabs (F2Q 1e300 + F2Q (-1e300) - 100) <= 1 # 1000000000)%Q.
Proof.
  split; [vm_compute; reflexivity|]. split; [vm_compute; reflexivity|].
  split; [vm_compute; reflexivity|]. vm_compute. intros H. apply H. reflexivity.
Qed.

(** An infinite margin gives [inf] and [-inf], whose sum is NaN. *)
Lemma series_sum_infinite :
  parsing.d_results [neg_infinity] = [infinity] /\
  parsing.r_results [neg_infinity] = [neg_infinity] /\
  is_nan (infinity + neg_infinity) = true.
Proof. repeat split; vm_compute; reflexivity. Qed.

(** C4, amended.  When the first row of the state has six numeric cells at
    its end, each of magnitude at most 100, [get_results] returns two series
    of six numbers: entry [i] of the first is [|m|] for a negative margin [m]
    and [100 - m] otherwise, entry [i] of the second is [100 + m] for a
    negative margin and [m] otherwise, and the two entries add up to 100
    within 1e-9, as exact values and as the float sum. *)
Theorem get_results_sum_100 float_of_str (data : DataFrame) (state : string)
    (j : nat) (pre : list (list pyval)) (r : list pyval)
    (post : list (list pyval)) (margins : list float) :
  col_pos "unit" (columns data) = Some j ->
  rows data = pre ++ r :: post ->
  Forall (fun r' => py_eq (cell r' j) (VStr state) = false) pre ->
  py_eq (cell r j) (VStr state) = true ->
  py_suffix 6 r = VFloat <$> margins ->
  length margins = 6%nat ->
  Forall (fun m => (abs m <=? 100) = true) margins ->
  exists sideA sideB : list float,
    parsing.get_results float_of_str data state = Ok [sideA; sideB] /\
    length sideA = 6%nat /\ length sideB = 6%nat /\
    forall (i : nat) (m : float), margins !! i = Some m ->
      exists a b : float,
        sideA !! i = Some a /\ sideB !! i = Some b /\
        a = (if m <? 0 then abs m else 100 - m) /\
        b = (if m <? 0 then 100 + m else m) /\
        Fnumber a = true /\ Fnumber b = true /\ Fnumber (a + b) = true /\
        (Qabs (F2Q a + F2Q b - 100) <= 1 # 1000000000)%Q /\
        (Qabs (F2Q (a + b) - 100) <= 1 # 1000000000)%Q.
Proof.
  intros Hj Hrows Hpre Hr Hsuffix Hlen Hbound.
  rewrite (get_results_first_row float_of_str data state j pre r post
             Hj Hrows Hpre Hr).
  unfold parsing.series_of_row. rewrite Hsuffix, series_apply_floats.
  cbn [mbind result_bind].
  exists (parsing.d_results margins), (parsing.r_results margins).
  unfold parsing.d_results, parsing.r_results.
  split; [reflexivity|]. rewrite !length_fmap. split; [assumption|].
  split; [assumption|].
  intros i m Hi. rewrite !list_lookup_fmap, Hi. cbn [fmap option_fmap option_map].
  eexists _, _. split; [reflexivity|]. split; [reflexivity|].
  split; [reflexivity|]. split; [reflexivity|].
  apply margin_pair_sum.
  eapply Forall_lookup_1 in Hbound; [exact Hbound|exact Hi].
Qed.

Lemma get_results_sum_100_witness :
  exists sideA sideB : list float,
    parsing.get_results no_numerals two_states "X" = Ok [sideA; sideB] /\
    length sideA = 6%nat /\ length sideB = 6%nat /\
    forall (i : nat) (m : float),
      [-65.7; -61.2; -58.4; -55.1; 40.5; 97.25] !! i = Some m ->
      exists a b : float,
        sideA !! i = Some a /\ sideB !! i = Some b /\
        a = (if m <? 0 then abs m else 100 - m) /\
        b = (if m <? 0 then 100 + m else m) /\
        Fnumber a = true /\ Fnumber b = true /\ Fnumber (a + b) = true /\
        (Qabs (F2Q a + F2Q b - 100) <= 1 # 1000000000)%Q /\
        (Qabs (F2Q (a + b) - 100) <= 1 # 1000000000)%Q.
Proof.
  apply (get_results_sum_100 no_numerals two_states "X" 0 []
           (row_of "X" "X" 1 1 [-65.7; -61.2; -58.4; -55.1; 40.5; 97.25])
           [ row_of "x1" "X" 0 2 [-72.5; -68.0; -45.5; 10.0; 52.5; 99.0];
             row_of "Y" "Y" 1 3 [51.3; 53.5; 62.0; 71.5; 80.25; 91.0];
             row_of "y1" "Y" 0 4 [55.0; 65.0; 75.0; 85.0; 95.0; -51.0] ]
           [-65.7; -61.2; -58.4; -55.1; 40.5; 97.25]).
  - reflexivity.
  - reflexivity.
  - constructor.
  - reflexivity.
  - reflexivity.
  - reflexivity.
  - repeat constructor.
Defined.

(** * The classifier on any threshold table *)

Local Open Scope float_scope.

#[local] Instance in_band_dec a p : Decision (in_band a p).
Proof. unfold in_band. apply _. Defined.

(** The consecutive pairs of a threshold table. *)
Lemma lookup_pairs (thresh : list float) (k : nat) (lo hi : float) :
  zip thresh (tail thresh) !! k = Some (lo, hi)
  <-> thresh !! k = Some lo /\ thresh !! S k = Some hi.
Proof.
  rewrite lookup_zip_with_Some. setoid_rewrite lookup_tail. split.
  - intros (x & y & [= -> ->] & Hx & Hy). auto.
  - intros [Hlo Hhi]. eauto.
Qed.

(** The loop returns at the first pair whose band holds the magnitude. *)
Lemma get_color_loop_find v colors pairs i0 :
  utils.get_color_loop v colors pairs i0
  = match list_find (in_band (abs v)) pairs with
    | Some (k, _) => Some (VStr <$> py_index colors (i0 + k))
    | None => None
    end.
Proof.
  revert i0. induction pairs as [|[lo hi] pairs IH]; intros i0; [reflexivity|].
  cbn [utils.get_color_loop list_find].
  destruct (decide (in_band (abs v) (lo, hi))) as [Hin|Hin];
    unfold in_band in Hin; cbn [fst snd] in Hin.
  - rewrite Hin. now rewrite Nat.add_0_r.
  - apply not_true_is_false in Hin. rewrite Hin, IH.
    destruct (list_find _ pairs) as [[k p]|]; cbn; [|reflexivity].
    now rewrite Nat.add_succ_r.
Qed.

Lemma ramp_lookup_None v (i : nat) :
  (if v <? 0 then utils.COLORS_D else utils.COLORS_R) !! i = None
  <-> (5 <= i)%nat.
Proof. rewrite lookup_ge_None. now destruct (v <? 0). Qed.

Lemma fmap_index_raise {A B} (f : A -> B) (l : list A) (i : nat) (e : exn) :
  f <$> py_index l i = Raise e <-> e = IndexError /\ l !! i = None.
Proof.
  unfold py_index. destruct (l !! i); cbn; split.
  - discriminate.
  - intros [_ H]. discriminate H.
  - intros [= <-]. auto.
  - intros [-> _]. reflexivity.
Qed.

(** For any threshold table, sorted or not: when band [i] holds [|v|] and no
    earlier band does, [get_color] returns [colors[i]], or raises
    [IndexError] when the ramp has no such entry. *)
Theorem get_color_first_band (v : float) (thresh : list float) (i : nat)
    (lo hi : float) :
  thresh !! i = Some lo -> thresh !! S i = Some hi ->
  (lo <? abs v) = true -> (abs v <=? hi) = true ->
  (forall k lo' hi', (k < i)%nat ->
     thresh !! k = Some lo' -> thresh !! S k = Some hi' ->
     ((lo' <? abs v) && (abs v <=? hi'))%bool = false) ->
  utils.get_color v thresh
  = VStr <$> py_index (if v <? 0 then utils.COLORS_D else utils.COLORS_R) i.
Proof.
  intros Hlo Hhi H1 H2 Hfirst. unfold utils.get_color.
  rewrite get_color_loop_find.
  assert (Hfind : list_find (in_band (abs v)) (zip thresh (tail thresh))
                  = Some (i, (lo, hi))).
  { apply list_find_Some. split; [now apply lookup_pairs|]. split.
    - unfold in_band. cbn. now rewrite H1, H2.
    - intros k [lo' hi'] Hk Hlt Hin. apply lookup_pairs in Hk as [Hk1 Hk2].
      unfold in_band in Hin. cbn in Hin.
      rewrite (Hfirst k lo' hi' Hlt Hk1 Hk2) in Hin. discriminate. }
  rewrite Hfind. reflexivity.
Qed.

Lemma get_color_first_band_witness :
  utils.get_color (-75) [50; 80; 60; 100]
  = VStr <$> py_index (if -75 <? 0 then utils.COLORS_D else utils.COLORS_R) 0.
Proof.
  apply (get_color_first_band (-75) [50; 80; 60; 100] 0 50 80);
    try reflexivity.
  intros k lo' hi' Hk. lia.
Defined.

(** [get_color] raises only [IndexError], and exactly in two cases: the
    threshold table is empty, or the first band that holds [|v|] is the
    sixth or a later one. *)
Theorem get_color_raises (v : float) (thresh : list float) (e : exn) :
  utils.get_color v thresh = Raise e
  <-> e = IndexError /\
      (thresh = [] \/
       exists (i : nat) (lo hi : float),
         (5 <= i)%nat /\ thresh !! i = Some lo /\ thresh !! S i = Some hi /\
         (lo <? abs v) = true /\ (abs v <=? hi) = true /\
         forall k lo' hi', (k < i)%nat ->
           thresh !! k = Some lo' -> thresh !! S k = Some hi' ->
           ((lo' <? abs v) && (abs v <=? hi'))%bool = false).
Proof.
  unfold utils.get_color. rewrite get_color_loop_find.
  destruct (list_find _ _) as [[i [lo hi]]|] eqn:Hfind.
  - apply list_find_Some in Hfind as (Hi & Hin & Hfirst).
    apply lookup_pairs in Hi as [Hlo Hhi].
    unfold in_band in Hin; cbn in Hin. apply andb_true_iff in Hin as [H1 H2].
    assert (Hbefore : forall k lo' hi', (k < i)%nat ->
           thresh !! k = Some lo' -> thresh !! S k = Some hi' ->
           ((lo' <? abs v) && (abs v <=? hi'))%bool = false).
    { intros k lo' hi' Hk Hk1 Hk2. apply not_true_is_false.
      apply (Hfirst k (lo', hi')); [now apply lookup_pairs|assumption]. }
    cbn [Nat.add]. rewrite fmap_index_raise, ramp_lookup_None. split.
    + intros [-> Hge]. split; [reflexivity|]. right. exists i, lo, hi.
      repeat split; assumption.
    + intros [-> [->|(i' & lo' & hi' & Hge & Hlo' & Hhi' & H1' & H2' & Hf')]];
        [discriminate Hlo|].
      split; [reflexivity|].
      destruct (Nat.lt_trichotomy i' i) as [Hlt|[<-|Hgt]]; [|assumption|].
      * specialize (Hbefore i' lo' hi' Hlt Hlo' Hhi').
        rewrite H1', H2' in Hbefore. discriminate.
      * specialize (Hf' i lo hi Hgt Hlo Hhi). rewrite H1, H2 in Hf'.
        discriminate.
  - apply list_find_None in Hfind.
    destruct thresh as [|t thresh].
    + cbn. split; [intros [= <-]; auto|intros [-> _]; reflexivity].
    + assert (Hlast : exists t', py_last (t :: thresh) = Ok t').
      { unfold py_last. destruct (last (t :: thresh)) eqn:Hl; [eauto|].
        apply last_None in Hl. discriminate. }
      destruct Hlast as [t' ->]. cbn [mbind result_bind]. split.
      * intros Hr. destruct (t' <? v), (v <? 0); discriminate Hr.
      * intros [_ [Hnil|(i & lo & hi & _ & Hlo & Hhi & H1 & H2 & _)]];
          [discriminate Hnil|].
        exfalso. rewrite Forall_forall in Hfind.
        apply (Hfind (lo, hi)).
        -- apply list_elem_of_lookup. exists i. now apply lookup_pairs.
        -- unfold in_band. cbn. now rewrite H1, H2.
Qed.

(** NaN compares false with everything. *)
Lemma nan_rank v : is_nan v = true -> frank v = None.
Proof.
  unfold is_nan. rewrite FloatAxioms.eqb_spec. unfold SFeqb.
  rewrite SFcompare_rank.
  fold (frank v). destruct (frank v) as [[[a b] c]|]; [|reflexivity].
  cbn [rank_cmp lex_cmp]. rewrite !Z.compare_refl. discriminate.
Qed.

(** A margin that is NaN gets no colour, whatever the thresholds. *)
Theorem get_color_nan (v : float) (thresh : list float) :
  is_nan v = true -> thresh <> [] ->
  utils.get_color v thresh = Ok VNone.
Proof.
  intros Hnan Hne. apply nan_rank in Hnan.
  assert (Hlt : forall x, (x <? abs v) = false).
  { intros x. rewrite ltb_rank, frank_abs, Hnan. now destruct (frank x). }
  assert (Hv : forall x, (x <? v) = false).
  { intros x. rewrite ltb_rank, Hnan. now destruct (frank x). }
  unfold utils.get_color. rewrite get_color_loop_find.
  assert (list_find (in_band (abs v)) (zip thresh (tail thresh)) = None) as ->.
  { apply list_find_None, Forall_forall. intros [lo hi] _.
    unfold in_band. cbn. rewrite Hlt. discriminate. }
  destruct thresh as [|t thresh]; [contradiction|].
  unfold py_last. destruct (last (t :: thresh)) eqn:Hl.
  - cbn. now rewrite Hv.
  - apply last_None in Hl. discriminate.
Qed.

Lemma get_color_nan_witness :
  is_nan nan = true /\
  utils.get_color nan utils.THRESH_MARGIN = Ok VNone.
Proof.
  split; [reflexivity|].
  apply (get_color_nan nan utils.THRESH_MARGIN); [reflexivity|discriminate].
Defined.

(** Beyond the last threshold of the default table the two sides differ:
    above 100 the darkest colour of [COLORS_R], below -100 no colour. *)
Theorem get_color_beyond_100 :
  (forall v, (100 <? v) = true ->
     utils.get_color v utils.THRESH_MARGIN = VStr <$> py_last utils.COLORS_R) /\
  (forall v, (v <? -100) = true ->
     utils.get_color v utils.THRESH_MARGIN = Ok VNone).
Proof.
  split; intros v H.
  - now apply get_color_above_100.
  - now apply get_color_below_minus_100.
Qed.

Lemma get_color_beyond_100_witness :
  utils.get_color infinity utils.THRESH_MARGIN = VStr <$> py_last utils.COLORS_R /\
  utils.get_color (-100.5) utils.THRESH_MARGIN = Ok VNone.
Proof.
  split.
  - apply (proj1 get_color_beyond_100 infinity). reflexivity.
  - apply (proj2 get_color_beyond_100 (-100.5)). reflexivity.
Defined.

(** With the default table [get_color] never raises, never returns the grey
    colour and never a colour of the other side: it returns [None] or a
    colour of the ramp that the sign of the value selects. *)
Theorem get_color_range (v : float) :
  utils.get_color v utils.THRESH_MARGIN = Ok VNone \/
  exists c : string,
    utils.get_color v utils.THRESH_MARGIN = Ok (VStr c) /\
    c ∈ (if v <? 0 then utils.COLORS_D else utils.COLORS_R) /\
    c <> utils.COLOR_GREY /\
    c ∉ (if v <? 0 then utils.COLORS_R else utils.COLORS_D).
Proof.
  unfold utils.get_color, utils.THRESH_MARGIN. cbn [zip zip_with tail].
  cbn [utils.get_color_loop].
  destruct (v <? 0);
    repeat match goal with
    | |- context [if ?b then _ else _] => destruct b
    end; cbn;
    repeat match goal with
    | |- context [if ?b then _ else _] => destruct b
    end; auto; right; eexists; (split; [reflexivity|]);
    (split; [set_solver|]); (split; [discriminate|]);
    apply (bool_decide_unpack _); vm_compute; exact I.
Qed.

Lemma frank_opp x :
  frank (- x) =
  match frank x with
  | Some (a, b, c) => Some (- a, - b, - c)%Z
  | None => None
  end.
Proof.
  unfold frank. rewrite opp_spec.
  destruct (Prim2SF x) as [[]|[]| |[] m e]; cbn; try reflexivity.
  now rewrite Z.opp_involutive.
Qed.

Lemma abs_opp x : abs (- x) = abs x.
Proof.
  apply Prim2SF_inj. rewrite !abs_spec, opp_spec.
  now destruct (Prim2SF x).
Qed.

Lemma opp_negative v : (0 <? v) = true -> (- v <? 0) = true.
Proof.
  intros H. rewrite ltb_rank, ?frank_opp in *.
  change (frank 0) with (Some (0, 0, 0)%Z) in *.
  destruct (frank v) as [[[a b] c]|]; [|discriminate]. rank_cases.
Qed.

Lemma ramps_NoDup v :
  NoDup (if v <? 0 then utils.COLORS_D else utils.COLORS_R).
Proof. destruct (v <? 0); apply (bool_decide_unpack _); vm_compute; exact I. Qed.

(** The classifier is symmetric on the bands: a positive value up to 100 and
    its opposite get no colour both, or the colours at the same position of
    the two ramps. *)
Theorem get_color_mirror (v : float) :
  (0 <? v) = true -> (v <=? 100) = true ->
  (utils.get_color v utils.THRESH_MARGIN = Ok VNone /\
   utils.get_color (- v) utils.THRESH_MARGIN = Ok VNone) \/
  exists (i : nat) (cR cD : string),
    utils.COLORS_R !! i = Some cR /\ utils.COLORS_D !! i = Some cD /\
    utils.get_color v utils.THRESH_MARGIN = Ok (VStr cR) /\
    utils.get_color (- v) utils.THRESH_MARGIN = Ok (VStr cD).
Proof.
  intros Hpos Hle.
  pose proof (opp_negative v Hpos) as Hneg.
  assert (Hv : (v <? 0) = false) by (clear - Hpos; float_order).
  assert (H100 : (100 <? v) = false) by (clear - Hle; float_order).
  assert (H100' : (100 <? - v) = false).
  { clear - Hneg. rewrite ltb_rank in *.
    change (frank 0) with (Some (0, 0, 0)%Z) in *.
    change (frank 100) with (Some (1, -46, 7036874417766400)%Z).
    destruct (frank (- v)) as [[[a b] c]|]; [|reflexivity]. rank_cases. }
  unfold utils.get_color. rewrite !get_color_loop_find, abs_opp, Hv, Hneg.
  destruct (list_find _ _) as [[i p]|] eqn:Hfind.
  - right. apply list_find_Some in Hfind as (Hi & _ & _).
    apply lookup_lt_Some in Hi. cbn [Nat.add].
    change (length (zip utils.THRESH_MARGIN (tail utils.THRESH_MARGIN)))
      with 5%nat in Hi.
    destruct (lookup_lt_is_Some_2 utils.COLORS_R i) as [cR HcR]; [exact Hi|].
    destruct (lookup_lt_is_Some_2 utils.COLORS_D i) as [cD HcD]; [exact Hi|].
    exists i, cR, cD. unfold py_index. rewrite HcR, HcD. auto.
  - left. cbn. now rewrite H100, H100'.
Qed.

Lemma get_color_mirror_witness :
  (utils.get_color 72.5 utils.THRESH_MARGIN = Ok VNone /\
   utils.get_color (- 72.5) utils.THRESH_MARGIN = Ok VNone) \/
  exists (i : nat) (cR cD : string),
    utils.COLORS_R !! i = Some cR /\ utils.COLORS_D !! i = Some cD /\
    utils.get_color 72.5 utils.THRESH_MARGIN = Ok (VStr cR) /\
    utils.get_color (- 72.5) utils.THRESH_MARGIN = Ok (VStr cD).
Proof. apply (get_color_mirror 72.5); reflexivity. Defined.

(** What a colour says about the value: the colour at position [i] of the
    ramp means that [|v|] exceeds threshold [i] and, below the last
    position, does not exceed threshold [i + 1]. *)
Lemma get_color_inv (v : float) (c : string) (i : nat) :
  utils.get_color v utils.THRESH_MARGIN = Ok (VStr c) ->
  (if v <? 0 then utils.COLORS_D else utils.COLORS_R) !! i = Some c ->
  exists lo,
    utils.THRESH_MARGIN !! i = Some lo /\ (lo <? abs v) = true /\
    (i = 4%nat \/
     exists hi, utils.THRESH_MARGIN !! S i = Some hi /\ (abs v <=? hi) = true).
Proof.
  intros Hc Hi. unfold utils.get_color in Hc.
  rewrite get_color_loop_find in Hc.
  set (ramp := if v <? 0 then utils.COLORS_D else utils.COLORS_R) in *.
  destruct (list_find _ _) as [[k [lo hi]]|] eqn:Hfind.
  - apply list_find_Some in Hfind as (Hk & Hin & _).
    apply lookup_pairs in Hk as [Hlo Hhi].
    unfold in_band in Hin; cbn in Hin. apply andb_true_iff in Hin as [H1 H2].
    cbn [Nat.add] in Hc. unfold py_index in Hc.
    destruct (ramp !! k) as [c'|] eqn:Hk; [|discriminate].
    injection Hc as ->.
    assert (i = k) as -> by (eapply NoDup_lookup; eauto using ramps_NoDup).
    exists lo. split; [assumption|]. split; [assumption|]. right. eauto.
  - cbn in Hc. destruct (100 <? v) eqn:H100; [|discriminate].
    assert (Hv : (v <? 0) = false) by (clear - H100; float_order).
    subst ramp. rewrite Hv in *. cbn in Hc. injection Hc as <-.
    assert (i = 4%nat) as ->
      by (eapply NoDup_lookup; [apply (ramps_NoDup 1)|exact Hi|reflexivity]).
    exists 90. split; [reflexivity|]. split; [|auto].
    clear - H100. float_order.
Qed.

(** A larger magnitude never gets a lighter colour: of two values of the
    same sign that both get a colour, the one of larger magnitude has its
    colour at the same or at a later position of the ramp. *)
Theorem get_color_monotone (v w : float) (i j : nat) (cv cw : string) :
  (v <? 0) = (w <? 0) -> (abs v <=? abs w) = true ->
  utils.get_color v utils.THRESH_MARGIN = Ok (VStr cv) ->
  utils.get_color w utils.THRESH_MARGIN = Ok (VStr cw) ->
  (if v <? 0 then utils.COLORS_D else utils.COLORS_R) !! i = Some cv ->
  (if v <? 0 then utils.COLORS_D else utils.COLORS_R) !! j = Some cw ->
  (i <= j)%nat.
Proof.
  intros Hsign Hle Hv Hw Hi Hj.
  destruct (get_color_inv v cv i Hv Hi) as (lo & Hlo & Hlov & _).
  rewrite Hsign in Hj.
  destruct (get_color_inv w cw j Hw Hj) as (_ & _ & _ & Hup).
  destruct (Nat.le_gt_cases i j) as [|Hlt]; [assumption|exfalso].
  destruct Hup as [->|(hi & Hhi & Hhiw)].
  { apply lookup_lt_Some in Hi. destruct (v <? 0); cbn in Hi; lia. }
  revert Hle Hlov Hhiw. generalize (abs v) (abs w). intros a b Hle Hlov Hhiw.
  clear - Hlo Hhi Hlt Hle Hlov Hhiw.
  destruct i as [|[|[|[|[|[|i]]]]]]; cbn in Hlo; try discriminate;
    injection Hlo as <-;
    destruct j as [|[|[|[|[|j]]]]]; try lia; cbn in Hhi; try discriminate;
    injection Hhi as <-; clear Hlt;
    rewrite ?ltb_rank, ?leb_rank in *; rank_consts;
    destruct (frank a) as [[[a1 a2] a3]|], (frank b) as [[[b1 b2] b3]|];
    try discriminate; rank_cases.
Qed.

Lemma get_color_monotone_witness : (1 <= 3)%nat.
Proof.
  apply (get_color_monotone 65.7 86.25 1 3 "#CC2F4A" "#AA0000"); reflexivity.
Defined.

(** * The state filter: the cells it writes *)

Lemma table_ok_positions df js ji ju pos :
  table_ok df js ji ju pos ->
  NoDup pos /\ (js ∉ pos) /\ (ji ∉ pos) /\ (ju ∉ pos).
Proof.
  intros [Hs Hi Hu Hy Hrows].
  assert (Hnd : NoDup (ju :: ji :: js :: pos)).
  { eapply col_pos_NoDup; [|exact column_names_NoDup].
    repeat (constructor; [eassumption|]). now apply Forall2_fmap_l. }
  apply NoDup_cons in Hnd as [Hju Hnd]. apply NoDup_cons in Hnd as [Hji Hnd].
  apply NoDup_cons in Hnd as [Hjs Hnd].
  apply not_elem_of_cons in Hju as [_ Hju].
  apply not_elem_of_cons in Hju as [_ Hju].
  apply not_elem_of_cons in Hji as [_ Hji]. auto.
Qed.

(** The run of [get_data] on a table it accepts. *)
Lemma get_data_run (h : heap) data state df js ji ju pos :
  h !! data = Some df -> table_ok df js ji ju pos ->
  parsing.get_data data state h
  = (Ok (fresh (dom h)),
     <[fresh (dom h) :=
         {| columns := columns df;
            rows := recolor js pos state
                      <$> filter (fun r => keep js ji ju state r = true)
                                 (rows df) |}]> h).
Proof.
  intros Hdata Hok.
  destruct (table_ok_positions _ _ _ _ _ Hok) as (Hnd & Hjs & _ & _).
  destruct Hok as [Hs Hi Hu Hy Hrows].
  set (kept := filter (fun r => keep js ji ju state r = true) (rows df)).
  set (l := fresh (dom h)).
  unfold parsing.get_data.
  rewrite (run_bind _ _ h _ h (run_load data h df Hdata)).
  rewrite (conditions_keep df state js ji ju Hs Hi Hu).
  rewrite (run_bind (lift _) _ h _ h eq_refl).
  rewrite (run_bind (alloc _) _ h l
             (<[l := df_select df (keep js ji ju state <$> rows df)]> h) eq_refl).
  set (h0 := <[l := df_select df (keep js ji ju state <$> rows df)]> h).
  assert (Hl : h0 !! l = Some {| columns := columns df; rows := kept |}).
  { subst h0. rewrite lookup_insert_eq. unfold df_select at 1. f_equal.
    f_equal. apply (df_select_fmap (keep js ji ju state) df). }
  assert (Hkept : Forall (fun r => length r = length (columns df) /\
                     Forall (fun j => exists v, cell r j = VFloat v) pos) kept).
  { subst kept. apply Forall_forall. intros r Hr.
    apply list_elem_of_filter in Hr as [_ Hr].
    revert r Hr. now apply Forall_forall. }
  rewrite (run_bind _ _ _ tt _
    (for_each_years_recolor l state (columns df) js Hs parsing.YEARS pos
       Hy Hnd Hjs kept h0 Hl Hkept)).
  subst h0. cbn. now rewrite insert_insert_eq.
Qed.

(** A year cell after the loop: the colour of the margin, greyed out where
    the row belongs to another state. *)
Lemma recolor_cell_year js pos state r j :
  NoDup pos -> js ∉ pos -> j ∈ pos -> (j < length r)%nat ->
  cell (recolor js pos state r) j
  = utils.grey_out (cell r js) (color_of (cell r j))
      (VStr state) (VStr utils.COLOR_GREY).
Proof.
  unfold recolor. revert r.
  induction pos as [|j0 pos IH]; intros r Hnd Hjs Hj Hlen; [inversion Hj|].
  apply NoDup_cons in Hnd as [Hj0 Hnd].
  apply not_elem_of_cons in Hjs as [Hne Hjs].
  cbn [foldl]. destruct (decide (j = j0)) as [->|Hjj0].
  - fold (recolor js pos state (paint js state r j0)).
    rewrite recolor_cell_other by assumption.
    unfold paint. now apply cell_insert_eq.
  - apply elem_of_cons in Hj as [?|Hj]; [contradiction|].
    rewrite IH; [|assumption|assumption|assumption|].
    + unfold paint. now rewrite !cell_insert_ne by congruence.
    + unfold paint. now rewrite length_insert.
Qed.

Lemma year_position_bound df js ji ju pos j :
  table_ok df js ji ju pos -> j ∈ pos -> (j < length (columns df))%nat.
Proof.
  intros [_ _ _ Hy _] Hj.
  induction Hy as [|y j' ys pos Hy _ IH]; [inversion Hj|].
  apply elem_of_cons in Hj as [->|Hj]; [|auto].
  eapply lookup_lt_Some, col_pos_lookup, Hy.
Qed.

(** On a table it accepts, [get_data] returns the kept rows in order, and in
    each of them every year cell holds the colour that [get_color] gives to
    the margin of that cell when the row belongs to the target state, and
    the grey colour when it belongs to another state. *)
Theorem get_data_year_cells (h : heap) (data : loc) (state : string)
    (df : DataFrame) (js ji ju : nat) (pos : list nat) :
  h !! data = Some df ->
  table_ok df js ji ju pos ->
  exists (l : loc) (out : DataFrame) (h' : heap),
    parsing.get_data data state h = (Ok l, h') /\
    h' !! l = Some out /\
    Forall2 (fun r r' =>
       forall j, j ∈ pos ->
         exists (v : float) (c : pyval),
           cell r j = VFloat v /\
           utils.get_color v parsing.THRESH_MARGIN = Ok c /\
           cell r' j = if py_eq (cell r js) (VStr state)
                       then c else VStr utils.COLOR_GREY)
      (filter (fun r => keep js ji ju state r = true) (rows df)) (rows out).
Proof.
  intros Hdata Hok.
  destruct (table_ok_positions _ _ _ _ _ Hok) as (Hnd & Hjs & _ & _).
  eexists _, _, _. split; [exact (get_data_run h data state df _ _ _ _ Hdata Hok)|].
  split; [apply lookup_insert_eq|]. cbn [rows].
  apply Forall2_fmap_r, Forall_Forall2_diag, Forall_forall.
  intros r Hr j Hj. apply list_elem_of_filter in Hr as [_ Hr].
  pose proof (year_position_bound _ _ _ _ _ j Hok Hj) as Hlt.
  destruct Hok as [_ _ _ _ Hrows].
  rewrite Forall_forall in Hrows. destruct (Hrows r Hr) as [Hlen Hnum].
  rewrite Forall_forall in Hnum. destruct (Hnum j Hj) as [v Hv].
  destruct (get_color_total v) as [c Hc].
  exists v, c. split; [assumption|]. split; [assumption|].
  rewrite recolor_cell_year by (try assumption; lia).
  unfold utils.grey_out, color_of. rewrite Hv. cbn. now rewrite Hc.
Qed.

Lemma get_data_year_cells_witness :
  exists (l : loc) (out : DataFrame) (h' : heap),
    parsing.get_data 1%positive "X" {[ 1%positive := two_states ]} = (Ok l, h') /\
    h' !! l = Some out /\
    Forall2 (fun r r' =>
       forall j, j ∈ [4; 5; 6; 7; 8; 9]%nat ->
         exists (v : float) (c : pyval),
           cell r j = VFloat v /\
           utils.get_color v parsing.THRESH_MARGIN = Ok c /\
           cell r' j = if py_eq (cell r 1) (VStr "X")
                       then c else VStr utils.COLOR_GREY)
      (filter (fun r => keep 1 2 0 "X" r = true) (rows two_states)) (rows out).
Proof.
  apply (get_data_year_cells {[ 1%positive := two_states ]} 1%positive "X"
           two_states 1 2 0 [4; 5; 6; 7; 8; 9]%nat).
  - reflexivity.
  - exact two_states_ok.
Defined.

(** The palette of the map. *)
Lemma color_map_lookup (c : string) :
  charts.color_map !! c = Some c
  <-> c ∈ charts.COLORS_D ++ charts.COLORS_R ++ [charts.COLOR_GREY].
Proof.
  unfold charts.color_map.
  generalize (charts.COLORS_D ++ charts.COLORS_R ++ [charts.COLOR_GREY]).
  intros l.
  assert (H : forall m : gmap string string,
    foldl (fun m i => <[i := i]> m) m l !! c = Some c
    <-> c ∈ l \/ m !! c = Some c).
  { induction l as [|i l IH]; intros m; cbn [foldl].
    - rewrite elem_of_nil. tauto.
    - rewrite IH, elem_of_cons. destruct (decide (c = i)) as [->|Hne].
      + rewrite lookup_insert_eq. tauto.
      + rewrite lookup_insert_ne by congruence. tauto. }
  rewrite H, lookup_empty. split; [intros [?|?]; [assumption|discriminate]|auto].
Qed.

Lemma get_color_palette v :
  utils.get_color v parsing.THRESH_MARGIN = Ok VNone \/
  exists c : string,
    utils.get_color v parsing.THRESH_MARGIN = Ok (VStr c) /\
    c ∈ utils.COLORS_D ++ utils.COLORS_R.
Proof.
  unfold utils.get_color, parsing.THRESH_MARGIN. cbn [zip zip_with tail].
  cbn [utils.get_color_loop].
  destruct (v <? 0);
    repeat match goal with
    | |- context [if ?b then _ else _] => destruct b
    end; cbn;
    repeat match goal with
    | |- context [if ?b then _ else _] => destruct b
    end; auto; right; eexists; (split; [reflexivity|]); set_solver.
Qed.

(** What [get_data] hands to [draw_map]: every year cell of the table it
    returns is [None] or a key of the [color_map] of [draw_map], which maps
    it to itself. *)
Theorem get_data_palette (h : heap) (data : loc) (state : string)
    (df : DataFrame) (js ji ju : nat) (pos : list nat) :
  h !! data = Some df ->
  table_ok df js ji ju pos ->
  exists (l : loc) (out : DataFrame) (h' : heap),
    parsing.get_data data state h = (Ok l, h') /\
    h' !! l = Some out /\
    forall r' j, r' ∈ rows out -> j ∈ pos ->
      cell r' j = VNone \/
      exists c : string, cell r' j = VStr c /\ charts.color_map !! c = Some c.
Proof.
  intros Hdata Hok.
  destruct (table_ok_positions _ _ _ _ _ Hok) as (Hnd & Hjs & _ & _).
  eexists _, _, _. split; [exact (get_data_run h data state df _ _ _ _ Hdata Hok)|].
  split; [apply lookup_insert_eq|]. cbn [rows].
  intros r' j Hr' Hj. apply list_elem_of_fmap in Hr' as (r & -> & Hr).
  apply list_elem_of_filter in Hr as [_ Hr].
  pose proof (year_position_bound _ _ _ _ _ j Hok Hj) as Hlt.
  destruct Hok as [_ _ _ _ Hrows].
  rewrite Forall_forall in Hrows. destruct (Hrows r Hr) as [Hlen Hnum].
  rewrite Forall_forall in Hnum. destruct (Hnum j Hj) as [v Hv].
  rewrite recolor_cell_year by (try assumption; lia).
  unfold utils.grey_out, color_of. rewrite Hv. cbn.
  destruct (py_eq (cell r js) (VStr state)).
  - destruct (get_color_palette v) as [->|(c & -> & Hc)]; [auto|].
    right. exists c. split; [reflexivity|]. apply color_map_lookup.
    rewrite app_assoc. apply elem_of_app. left. exact Hc.
  - right. exists utils.COLOR_GREY. split; [reflexivity|].
    apply color_map_lookup. do 2 (apply elem_of_app; right). constructor.
Qed.

Lemma get_data_palette_witness :
  exists (l : loc) (out : DataFrame) (h' : heap),
    parsing.get_data 1%positive "Y" {[ 1%positive := two_states ]} = (Ok l, h') /\
    h' !! l = Some out /\
    forall r' j, r' ∈ rows out -> j ∈ [4; 5; 6; 7; 8; 9]%nat ->
      cell r' j = VNone \/
      exists c : string, cell r' j = VStr c /\ charts.color_map !! c = Some c.
Proof.
  apply (get_data_palette {[ 1%positive := two_states ]} 1%positive "Y"
           two_states 1 2 0 [4; 5; 6; 7; 8; 9]%nat).
  - reflexivity.
  - exact two_states_ok.
Defined.

(** * The state filter: how it fails *)

(** A missing [state], [is_state] or [unit] column is a [KeyError] of line
    20, raised before anything is made: the heap is as it was. *)
Theorem get_data_missing_column (h : heap) (data : loc) (state : string)
    (df : DataFrame) :
  h !! data = Some df ->
  col_pos "state" (columns df) = None \/
  col_pos "is_state" (columns df) = None \/
  col_pos "unit" (columns df) = None ->
  parsing.get_data data state h = (Raise KeyError, h).
Proof.
  intros Hdata Hmiss. unfold parsing.get_data.
  rewrite (run_bind _ _ h _ h (run_load data h df Hdata)).
  assert (parsing.conditions df state = Raise KeyError) as ->; [|reflexivity].
  unfold parsing.conditions, df_getitem.
  destruct (col_pos "state" (columns df)); [|reflexivity].
  destruct (col_pos "is_state" (columns df)); [|reflexivity].
  destruct (col_pos "unit" (columns df)); [|reflexivity].
  destruct Hmiss as [?|[?|?]]; discriminate.
Qed.

Lemma get_data_missing_column_witness :
  parsing.get_data 1%positive "X"
    {[ 1%positive := {| columns := ["unit"; "state"; "2000"];
                        rows := [[VStr "X"; VStr "X"; VFloat 51.3]] |} ]}
  = (Raise KeyError,
     {[ 1%positive := {| columns := ["unit"; "state"; "2000"];
                         rows := [[VStr "X"; VStr "X"; VFloat 51.3]] |} ]}).
Proof.
  apply (get_data_missing_column _ 1%positive "X"
           {| columns := ["unit"; "state"; "2000"];
              rows := [[VStr "X"; VStr "X"; VFloat 51.3]] |}).
  - reflexivity.
  - right. left. reflexivity.
Defined.

Lemma raises_only_ret {A} l E (a : A) : raises_only l E (mret a).
Proof. intros h Hh; split; [discriminate|assumption]. Qed.

Lemma raises_only_lift {A} l (E : exn -> Prop) (r : result A) :
  (forall e, r = Raise e -> E e) -> raises_only l E (lift r).
Proof. intros Hr h Hh; split; [exact Hr|assumption]. Qed.

Lemma raises_only_load l E : raises_only l E (load l).
Proof.
  intros h Hh. unfold load. destruct Hh as [df Hdf]. rewrite Hdf.
  split; [discriminate|eauto].
Qed.

Lemma raises_only_store l E df : raises_only l E (store l df).
Proof.
  intros h _. unfold store. cbn. split; [discriminate|].
  rewrite lookup_insert_eq. eauto.
Qed.

Lemma raises_only_bind {A B} l E (m : M A) (k : A -> M B) :
  raises_only l E m -> (forall a, raises_only l E (k a)) ->
  raises_only l E (m ≫= k).
Proof.
  intros Hm Hk h Hh. unfold mbind, M_bind.
  destruct (Hm h Hh) as [Hm1 Hm2]. destruct (m h) as [[a|e] h1]; cbn in *.
  - now apply Hk.
  - split; [|assumption]. intros e' [= <-]. now apply Hm1.
Qed.

Lemma raises_only_setitem l E name col : raises_only l E (setitem l name col).
Proof.
  apply raises_only_bind; [apply raises_only_load|].
  intros df. apply raises_only_store.
Qed.

Lemma raises_only_for_each {A} l E (body : A -> M unit) (xs : list A) :
  (forall x, raises_only l E (body x)) -> raises_only l E (for_each body xs).
Proof.
  intros Hb. induction xs as [|x xs IH]; cbn [for_each].
  - apply raises_only_ret.
  - apply raises_only_bind; auto.
Qed.

Lemma series_apply_raises {A B} (E : exn -> Prop) (f : A -> result B)
    (l : list A) e :
  (forall x e, f x = Raise e -> E e) -> series_apply f l = Raise e -> E e.
Proof.
  intros Hf. induction l as [|x l IH]; cbn; [discriminate|].
  destruct (f x) as [y|e'] eqn:Hx; cbn.
  - destruct (series_apply f l); cbn; [discriminate|]. intros [= <-]. auto.
  - intros [= <-]. eauto.
Qed.

Lemma df_getitem_raises df name e : df_getitem df name = Raise e -> e = KeyError.
Proof. unfold df_getitem. destruct (col_pos _ _); [discriminate|congruence]. Qed.

Lemma row_getitem_raises cols x name e :
  row_getitem cols x name = Raise e -> e = KeyError.
Proof. unfold row_getitem. destruct (col_pos _ _); [discriminate|congruence]. Qed.

Lemma get_color_cell_raises x e :
  parsing.get_color_cell x = Raise e -> e = TypeError.
Proof.
  destruct x as [v| |]; cbn; try congruence.
  destruct (get_color_total v) as [c ->]. discriminate.
Qed.

Lemma raises_only_get_data_year l state year :
  raises_only l key_or_type (parsing.get_data_year l state year).
Proof.
  unfold parsing.get_data_year. cbv zeta.
  apply raises_only_bind; [apply raises_only_load|intros df].
  apply raises_only_bind.
  { apply raises_only_lift. intros e He. left. eapply df_getitem_raises, He. }
  intros col. apply raises_only_bind.
  { apply raises_only_lift. intros e. apply series_apply_raises.
    intros x e' He'. right. eapply get_color_cell_raises, He'. }
  intros data_year. apply raises_only_bind; [apply raises_only_setitem|intros _].
  apply raises_only_bind; [apply raises_only_load|intros df'].
  apply raises_only_bind; [|intros greyed; apply raises_only_setitem].
  apply raises_only_lift. intros e. apply series_apply_raises.
  intros x e'. destruct (row_getitem _ x "state") as [n|e1] eqn:H1; cbn.
  - destruct (row_getitem _ x (pretty year)) as [c|e2] eqn:H2; cbn;
      [discriminate|].
    intros [= <-]. left. eapply row_getitem_raises, H2.
  - intros [= <-]. left. eapply row_getitem_raises, H1.
Qed.

Lemma get_data_raises (h h' : heap) (data : loc) (state : string)
    (e : exn) :
  is_Some (h !! data) ->
  parsing.get_data data state h = (Raise e, h') ->
  key_or_type e.
Proof.
  intros [df Hdata]. unfold parsing.get_data.
  rewrite (run_bind _ _ h _ h (run_load data h df Hdata)).
  destruct (parsing.conditions df state) as [conds|e0] eqn:Hconds.
  - rewrite (run_bind (lift _) _ h _ h eq_refl).
    rewrite (run_bind (alloc _) _ h _ _ eq_refl).
    set (l := fresh (dom h)). set (h1 := <[l := _]> h).
    destruct (raises_only_for_each l key_or_type
                (parsing.get_data_year l state) parsing.YEARS
                (raises_only_get_data_year l state) h1) as [Hraise _].
    { subst h1. rewrite lookup_insert_eq. eauto. }
    unfold mbind, M_bind.
    destruct (for_each _ _ h1) as [[[]|e1] h2]; cbn in *; [discriminate|].
    intros [= <- _]. now apply Hraise.
  - unfold mbind, M_bind, lift. intros [= <- _]. left.
    unfold parsing.conditions in Hconds.
    destruct (df_getitem df "state") eqn:H1; cbn in Hconds;
      [|injection Hconds as <-; eapply df_getitem_raises, H1].
    destruct (df_getitem df "is_state") eqn:H2; cbn in Hconds;
      [|injection Hconds as <-; eapply df_getitem_raises, H2].
    destruct (df_getitem df "unit") eqn:H3; cbn in Hconds;
      [discriminate|injection Hconds as <-; eapply df_getitem_raises, H3].
Qed.

(** Whatever the table holds, a [get_data] that fails raises [KeyError] (a
    column is missing) or [TypeError] (a year cell is no number): never an
    [IndexError] or a [ValueError]. *)
Theorem get_data_exceptions (h h' : heap) (data : loc) (state : string)
    (e : exn) :
  is_Some (h !! data) ->
  parsing.get_data data state h = (Raise e, h') ->
  e = KeyError \/ e = TypeError.
Proof. apply get_data_raises. Qed.

Lemma get_data_exceptions_witness : TypeError = KeyError \/ TypeError = TypeError.
Proof.
  apply (get_data_exceptions
           {[ 1%positive :=
                {| columns := ["unit"; "state"; "is_state"; "2000"];
                   rows := [[VStr "x1"; VStr "X"; VFloat 0; VStr "n/a"]] |} ]}
           (parsing.get_data 1%positive "X"
              {[ 1%positive :=
                   {| columns := ["unit"; "state"; "is_state"; "2000"];
                      rows := [[VStr "x1"; VStr "X"; VFloat 0; VStr "n/a"]] |} ]}).2
           1%positive "X" TypeError).
  - eexists. reflexivity.
  - vm_compute. reflexivity.
Defined.

Lemma series_apply_first_raise {A B} (f : A -> result B) (l : list A) x e :
  x ∈ l -> f x = Raise e ->
  (forall y, y ∈ l -> f y = Raise e \/ exists z, f y = Ok z) ->
  series_apply f l = Raise e.
Proof.
  intros Hx Hfx. induction l as [|y l IH]; intros Hall; [inversion Hx|].
  cbn. destruct (Hall y) as [->|[z Hz]]; [constructor|reflexivity|].
  rewrite Hz. cbn.
  apply elem_of_cons in Hx as [->|Hx]; [congruence|].
  rewrite IH; [reflexivity|assumption|].
  intros y' Hy'. apply Hall. now constructor.
Qed.

Lemma YEARS_cons : parsing.YEARS = (2000 :: py_range 2004 2024 4)%Z.
Proof. reflexivity. Qed.

(** The classifier runs on the rows that pass the filter: when one of them
    holds a string or [None] in the column of the first year, [get_data]
    raises [TypeError]. *)
Theorem get_data_type_error (h : heap) (data : loc) (state : string)
    (df : DataFrame) (js ji ju j : nat) (r : list pyval) :
  h !! data = Some df ->
  col_pos "state" (columns df) = Some js ->
  col_pos "is_state" (columns df) = Some ji ->
  col_pos "unit" (columns df) = Some ju ->
  col_pos "2000" (columns df) = Some j ->
  r ∈ rows df -> keep js ji ju state r = true ->
  (forall v, cell r j <> VFloat v) ->
  (parsing.get_data data state h).1 = Raise TypeError.
Proof.
  intros Hdata Hs Hi Hu Hj Hr Hkeep Hstr. unfold parsing.get_data.
  rewrite (run_bind _ _ h _ h (run_load data h df Hdata)).
  rewrite (conditions_keep df state js ji ju Hs Hi Hu).
  rewrite (run_bind (lift _) _ h _ h eq_refl).
  rewrite (run_bind (alloc _) _ h _ _ eq_refl).
  set (l := fresh (dom h)). set (sel := df_select df _). set (h1 := <[l := sel]> h).
  assert (Hl : h1 !! l = Some sel) by apply lookup_insert_eq.
  rewrite YEARS_cons. cbn [for_each].
  assert (Hbody : parsing.get_data_year l state 2000 h1 = (Raise TypeError, h1)).
  { unfold parsing.get_data_year. cbv zeta.
    change (pretty 2000%Z) with "2000".
    rewrite (run_bind _ _ h1 _ h1 (run_load l h1 sel Hl)).
    unfold df_getitem. subst sel.
    change (columns (df_select df (keep js ji ju state <$> rows df)))
      with (columns df).
    rewrite Hj.
    rewrite (run_bind (lift _) _ h1 _ h1 eq_refl).
    rewrite (series_apply_first_raise _ _ (cell r j) TypeError).
    - reflexivity.
    - apply list_elem_of_fmap. exists r. split; [reflexivity|].
      rewrite df_select_fmap. apply list_elem_of_filter. auto.
    - destruct (cell r j) as [v| |]; [destruct (Hstr v)|..]; reflexivity.
    - intros y _. destruct y as [v| |]; [right; apply get_color_total|left..];
        reflexivity. }
  unfold mbind, M_bind. now rewrite Hbody.
Qed.

Lemma get_data_type_error_witness :
  (parsing.get_data 1%positive "X"
     {[ 1%positive :=
          {| columns := ["unit"; "state"; "is_state"; "2000"];
             rows := [ [VStr "X"; VStr "X"; VFloat 1; VStr "n/a"];
                       [VStr "x1"; VStr "X"; VFloat 0; VFloat 51.3];
                       [VStr "x2"; VStr "X"; VFloat 0; VNone] ] |} ]}).1
  = Raise TypeError.
Proof.
  apply (get_data_type_error _ 1%positive "X"
           {| columns := ["unit"; "state"; "is_state"; "2000"];
              rows := [ [VStr "X"; VStr "X"; VFloat 1; VStr "n/a"];
                        [VStr "x1"; VStr "X"; VFloat 0; VFloat 51.3];
                        [VStr "x2"; VStr "X"; VFloat 0; VNone] ] |}
           1 2 0 3 [VStr "x2"; VStr "X"; VFloat 0; VNone]);
    try reflexivity.
  - do 2 constructor. constructor.
  - intros v. discriminate.
Defined.

(** A year of the loop that ends well found its column, and leaves the
    columns as they were. *)
Lemma get_data_year_ok l state y (h h' : heap) df0 :
  h !! l = Some df0 ->
  parsing.get_data_year l state y h = (Ok tt, h') ->
  is_Some (col_pos (pretty y) (columns df0)) /\
  exists df1, h' !! l = Some df1 /\ columns df1 = columns df0.
Proof.
  intros Hl. unfold parsing.get_data_year. cbv zeta.
  rewrite (run_bind _ _ h _ h (run_load l h df0 Hl)).
  unfold df_getitem at 1.
  destruct (col_pos (pretty y) (columns df0)) as [j|] eqn:Hj;
    [|unfold mbind, M_bind, lift; discriminate].
  rewrite (run_bind (lift _) _ h _ h eq_refl).
  destruct (series_apply parsing.get_color_cell _) as [data_year|e];
    [|unfold mbind, M_bind, lift; discriminate].
  rewrite (run_bind (lift _) _ h _ h eq_refl).
  rewrite (run_bind _ _ h tt _ (run_setitem l _ _ h _ Hl)).
  set (df1 := df_setitem df0 (pretty y) data_year).
  assert (Hcols1 : columns df1 = columns df0).
  { subst df1. unfold df_setitem. now rewrite Hj. }
  set (h1 := <[l := df1]> h).
  assert (Hl1 : h1 !! l = Some df1) by apply lookup_insert_eq.
  rewrite (run_bind _ _ h1 _ h1 (run_load l h1 _ Hl1)).
  destruct (series_apply _ (rows df1)) as [greyed|e];
    [|unfold mbind, M_bind, lift; discriminate].
  rewrite (run_bind (lift _) _ h1 _ h1 eq_refl).
  rewrite (run_setitem l _ _ h1 _ Hl1).
  intros [= <-]. split; [eauto|].
  eexists. split; [apply lookup_insert_eq|].
  unfold df_setitem. rewrite Hcols1, Hj. reflexivity.
Qed.

Lemma for_each_missing_year l state y ys :
  y ∈ ys ->
  forall (h : heap) df0,
    h !! l = Some df0 ->
    col_pos (pretty y) (columns df0) = None ->
    (for_each (parsing.get_data_year l state) ys h).1 <> Ok tt.
Proof.
  induction ys as [|y0 ys IH]; intros Hy h df0 Hl Hnone; [inversion Hy|].
  cbn [for_each]. unfold mbind, M_bind.
  destruct (parsing.get_data_year l state y0 h) as [[[]|e] h1] eqn:Hbody;
    [|discriminate].
  destruct (get_data_year_ok l state y0 h h1 df0 Hl Hbody)
    as [Hsome (df1 & Hl1 & Hcols)].
  apply elem_of_cons in Hy as [->|Hy].
  - rewrite Hnone in Hsome. now destruct Hsome.
  - apply (IH Hy h1 df1 Hl1). now rewrite Hcols.
Qed.

(** When the table lacks the column of one of the six years, [get_data]
    returns no table: it raises [KeyError], or the [TypeError] of an earlier
    year. *)
Theorem get_data_missing_year (h : heap) (data : loc) (state : string)
    (df : DataFrame) (y : Z) :
  h !! data = Some df ->
  y ∈ parsing.YEARS ->
  col_pos (pretty y) (columns df) = None ->
  exists e, (parsing.get_data data state h).1 = Raise e /\
            (e = KeyError \/ e = TypeError).
Proof.
  intros Hdata Hy Hnone.
  destruct (parsing.get_data data state h) as [[l|e] h'] eqn:Hrun.
  - exfalso. revert Hrun. unfold parsing.get_data.
    rewrite (run_bind _ _ h _ h (run_load data h df Hdata)).
    destruct (parsing.conditions df state) as [conds|e0];
      [|unfold mbind, M_bind, lift; discriminate].
    rewrite (run_bind (lift _) _ h _ h eq_refl).
    rewrite (run_bind (alloc _) _ h _ _ eq_refl).
    set (l0 := fresh (dom h)). set (h1 := <[l0 := df_select df conds]> h).
    pose proof (for_each_missing_year l0 state y parsing.YEARS Hy h1
                  (df_select df conds) (lookup_insert_eq _ _ _) Hnone) as Hne.
    unfold mbind, M_bind.
    destruct (for_each _ _ h1) as [[[]|e1] h2]; cbn in *;
      [contradiction|discriminate].
  - exists e. split; [reflexivity|].
    apply (get_data_raises h h' data state e); [eauto|exact Hrun].
Qed.

Lemma get_data_missing_year_witness :
  exists e,
    (parsing.get_data 1%positive "X"
       {[ 1%positive :=
            {| columns := ["unit"; "state"; "is_state"; "2000"; "2004"];
               rows := [[VStr "x1"; VStr "X"; VFloat 0; VFloat 51.3;
                         VFloat (-72.5)]] |} ]}).1 = Raise e /\
    (e = KeyError \/ e = TypeError).
Proof.
  apply (get_data_missing_year _ 1%positive "X"
           {| columns := ["unit"; "state"; "is_state"; "2000"; "2004"];
              rows := [[VStr "x1"; VStr "X"; VFloat 0; VFloat 51.3;
                        VFloat (-72.5)]] |} 2008%Z).
  - reflexivity.
  - apply (bool_decide_unpack _). vm_compute. exact I.
  - reflexivity.
Defined.

(** * The result series: how the extractor fails, what it returns *)

Lemma py_float_raises float_of_str x e :
  parsing.py_float float_of_str x = Raise e -> e = ValueError \/ e = TypeError.
Proof.
  destruct x as [v|s|]; cbn; [discriminate| |intros [= <-]; auto].
  destruct (float_of_str s); [discriminate|intros [= <-]; auto].
Qed.

Lemma series_of_row_raises float_of_str r e :
  parsing.series_of_row float_of_str r = Raise e ->
  e = ValueError \/ e = TypeError.
Proof.
  unfold parsing.series_of_row.
  destruct (series_apply _ _) as [ms|e'] eqn:Happly; cbn; [discriminate|].
  intros [= <-]. revert Happly.
  apply (series_apply_raises (fun e => e = ValueError \/ e = TypeError)).
  apply py_float_raises.
Qed.

(** How [get_results] fails: with [KeyError] exactly when the table has no
    [unit] column, with [IndexError] exactly when it has one and no row has
    the state as its unit, and otherwise only with the [ValueError] or
    [TypeError] of [float()]. *)
Theorem get_results_errors float_of_str (data : DataFrame) (state : string) :
  (parsing.get_results float_of_str data state = Raise KeyError
   <-> col_pos "unit" (columns data) = None) /\
  (parsing.get_results float_of_str data state = Raise IndexError
   <-> exists j, col_pos "unit" (columns data) = Some j /\
         Forall (fun r => py_eq (cell r j) (VStr state) = false) (rows data)) /\
  (forall e, parsing.get_results float_of_str data state = Raise e ->
     e = KeyError \/ e = IndexError \/ e = ValueError \/ e = TypeError).
Proof.
  destruct (col_pos "unit" (columns data)) as [j|] eqn:Hj.
  - rewrite (get_results_unfold _ _ _ j Hj).
    destruct (filter _ (rows data)) as [|r0 rs] eqn:Hfilter.
    + assert (Hnone : Forall (fun r => py_eq (cell r j) (VStr state) = false)
                        (rows data)).
      { apply Forall_forall. intros r Hr. apply not_true_is_false. intros Heq.
        assert (Hin : r ∈ filter (fun r => py_eq (cell r j) (VStr state) = true)
                          (rows data))
          by (apply list_elem_of_filter; auto).
        rewrite Hfilter in Hin. inversion Hin. }
      split; [split; discriminate|]. split; [|intros e [= <-]; auto].
      split; [eauto|reflexivity].
    + assert (Hr0 : r0 ∈ filter (fun r => py_eq (cell r j) (VStr state) = true)
                          (rows data)) by (rewrite Hfilter; constructor).
      apply list_elem_of_filter in Hr0 as [Hmatch Hr0].
      split; [|split].
      * split; [|discriminate]. intros H.
        apply series_of_row_raises in H as [?|?]; discriminate.
      * split.
        -- intros H. apply series_of_row_raises in H as [?|?]; discriminate.
        -- intros (j' & [= <-] & Hnone). rewrite Forall_forall in Hnone.
           rewrite (Hnone r0 Hr0) in Hmatch. discriminate.
      * intros e H. apply series_of_row_raises in H as [?|?]; auto.
  - assert (Hkey : parsing.get_results float_of_str data state = Raise KeyError).
    { unfold parsing.get_results, df_getitem. now rewrite Hj. }
    rewrite Hkey. split; [tauto|]. split.
    + split; [discriminate|]. intros (j & Hj' & _). discriminate.
    + intros e [= <-]. auto.
Qed.

Lemma series_apply_length {A B} (f : A -> result B) (l : list A) ys :
  series_apply f l = Ok ys -> length ys = length l.
Proof.
  revert ys. induction l as [|x l IH]; intros ys; cbn; [now intros [= <-]|].
  destruct (f x); cbn; [|discriminate].
  destruct (series_apply f l); cbn; [|discriminate].
  intros [= <-]. cbn. f_equal. now apply IH.
Qed.

Lemma py_suffix_length {A} (n : nat) (l : list A) :
  length (py_suffix n l) = min n (length l).
Proof. unfold py_suffix. rewrite length_drop. lia. Qed.

(** What [get_results] returns is always a pair of series of the same
    length: as many entries as the matching row has cells, six at most. *)
Theorem get_results_shape float_of_str (data : DataFrame) (state : string)
    (res : list (list float)) :
  parsing.get_results float_of_str data state = Ok res ->
  exists (sideA sideB : list float) (row : list pyval),
    res = [sideA; sideB] /\ row ∈ rows data /\
    length sideA = min 6 (length row) /\ length sideB = length sideA.
Proof.
  destruct (col_pos "unit" (columns data)) as [j|] eqn:Hj.
  - rewrite (get_results_unfold _ _ _ j Hj).
    destruct (filter _ (rows data)) as [|r0 rs] eqn:Hfilter; [discriminate|].
    assert (Hr0 : r0 ∈ filter (fun r => py_eq (cell r j) (VStr state) = true)
                        (rows data)) by (rewrite Hfilter; constructor).
    apply list_elem_of_filter in Hr0 as [_ Hr0].
    unfold parsing.series_of_row.
    destruct (series_apply _ _) as [ms|e] eqn:Happly; cbn; [|discriminate].
    intros [= <-]. apply series_apply_length in Happly.
    rewrite py_suffix_length in Happly.
    exists (parsing.d_results ms), (parsing.r_results ms), r0.
    unfold parsing.d_results, parsing.r_results. rewrite !length_fmap. auto.
  - unfold parsing.get_results, df_getitem. rewrite Hj. discriminate.
Qed.

Lemma get_results_shape_witness :
  exists (sideA sideB : list float) (row : list pyval),
    [ parsing.d_results [-65.7; -61.2; -58.4; -55.1; 40.5; 97.25];
      parsing.r_results [-65.7; -61.2; -58.4; -55.1; 40.5; 97.25] ]
    = [sideA; sideB] /\ row ∈ rows two_states /\
    length sideA = min 6 (length row) /\ length sideB = length sideA.
Proof.
  apply (get_results_shape no_numerals two_states "X"). reflexivity.
Defined.

Lemma col_pos_app_r name front l :
  name ∉ front ->
  col_pos name (front ++ l) = (fun k => length front + k)%nat <$> col_pos name l.
Proof.
  induction front as [|c front IH]; intros Hnotin; cbn.
  - now destruct (col_pos name l).
  - apply not_elem_of_cons in Hnotin as [Hne Hnotin].
    destruct (String.eqb_spec c name) as [->|_]; [contradiction|].
    rewrite IH by assumption. now destruct (col_pos name l).
Qed.

Lemma col_pos_of_lookup l i name :
  NoDup l -> l !! i = Some name -> col_pos name l = Some i.
Proof.
  revert i. induction l as [|c l IH]; intros i Hnd Hi; [discriminate|].
  apply NoDup_cons in Hnd as [Hc Hnd]. cbn. destruct i as [|i]; cbn in Hi.
  - injection Hi as ->. now rewrite String.eqb_refl.
  - destruct (String.eqb_spec c name) as [->|_].
    + destruct Hc. eapply list_elem_of_lookup_2, Hi.
    + now rewrite (IH i Hnd Hi).
Qed.

Lemma chart_years_NoDup : NoDup charts.YEARS.
Proof. apply (bool_decide_unpack _). vm_compute. exact I. Qed.

(** The series and the labels of the chart: when the six year columns are
    the last columns of the table, in the order of [charts.YEARS], and the
    aggregate row holds a number in each, entry [i] of both series is
    computed from the margin in the column named [charts.YEARS[i]], the
    label of row [i] of the bar chart. *)
Theorem get_results_year_columns float_of_str (data : DataFrame)
    (state : string) (ju : nat) (front : list string)
    (pre : list (list pyval)) (r : list pyval) (post : list (list pyval)) :
  col_pos "unit" (columns data) = Some ju ->
  columns data = front ++ charts.YEARS ->
  Forall (fun name => name ∉ front) charts.YEARS ->
  rows data = pre ++ r :: post ->
  Forall (fun r' => py_eq (cell r' ju) (VStr state) = false) pre ->
  py_eq (cell r ju) (VStr state) = true ->
  length r = length (columns data) ->
  Forall (fun name => exists m, row_getitem (columns data) r name = Ok (VFloat m))
    charts.YEARS ->
  exists sideA sideB : list float,
    parsing.get_results float_of_str data state = Ok [sideA; sideB] /\
    forall (i : nat) (name : string), charts.YEARS !! i = Some name ->
      exists m : float,
        row_getitem (columns data) r name = Ok (VFloat m) /\
        sideA !! i = Some (if m <? 0 then abs m else 100 - m) /\
        sideB !! i = Some (if m <? 0 then 100 + m else m).
Proof.
  intros Hu Hcols Hfront Hrows Hpre Hmatch Hlen Hnum.
  assert (Hsuffix : py_suffix 6 r = drop (length front) r).
  { unfold py_suffix. f_equal. rewrite Hlen, Hcols, length_app.
    change (length charts.YEARS) with 6%nat. lia. }
  assert (Hpos : forall i name, charts.YEARS !! i = Some name ->
            col_pos name (columns data) = Some (length front + i)%nat).
  { intros i name Hi. rewrite Hcols, col_pos_app_r.
    - now rewrite (col_pos_of_lookup _ i name chart_years_NoDup Hi).
    - rewrite Forall_forall in Hfront. eapply Hfront, list_elem_of_lookup_2, Hi. }
  assert (Hcell : forall i name, charts.YEARS !! i = Some name ->
            exists m, py_suffix 6 r !! i = Some (VFloat m) /\
                      row_getitem (columns data) r name = Ok (VFloat m)).
  { intros i name Hi. rewrite Forall_forall in Hnum.
    destruct (Hnum name (list_elem_of_lookup_2 _ _ _ Hi)) as [m Hm].
    exists m. split; [|exact Hm]. unfold row_getitem in Hm.
    rewrite (Hpos i name Hi) in Hm. injection Hm as Hm. unfold cell in Hm.
    rewrite Hsuffix, lookup_drop.
    destruct (r !! (length front + i)%nat); cbn in Hm; [congruence|discriminate]. }
  set (g := fun x => match x with VFloat v => v | _ => 0 end).
  assert (Happly : series_apply (parsing.py_float float_of_str) (py_suffix 6 r)
                   = Ok (g <$> py_suffix 6 r)).
  { apply series_apply_fmap, Forall_lookup_2. intros i x Hx.
    assert (Hi : (i < length charts.YEARS)%nat).
    { apply lookup_lt_Some in Hx. rewrite py_suffix_length in Hx.
      change (length charts.YEARS) with 6%nat. lia. }
    apply lookup_lt_is_Some_2 in Hi as [name Hi].
    destruct (Hcell i name Hi) as (m & Hm & _).
    rewrite Hx in Hm. injection Hm as ->. reflexivity. }
  rewrite (get_results_first_row float_of_str data state ju pre r post
             Hu Hrows Hpre Hmatch).
  unfold parsing.series_of_row. rewrite Happly. cbn [mbind result_bind].
  eexists _, _. split; [reflexivity|]. intros i name Hi.
  destruct (Hcell i name Hi) as (m & Hm & Hrow).
  exists m. split; [exact Hrow|].
  unfold parsing.d_results, parsing.r_results.
  rewrite !list_lookup_fmap, Hm. cbn. auto.
Qed.

Lemma get_results_year_columns_witness :
  exists sideA sideB : list float,
    parsing.get_results no_numerals two_states "Y" = Ok [sideA; sideB] /\
    forall (i : nat) (name : string), charts.YEARS !! i = Some name ->
      exists m : float,
        row_getitem (columns two_states)
          (row_of "Y" "Y" 1 3 [51.3; 53.5; 62.0; 71.5; 80.25; 91.0]) name
        = Ok (VFloat m) /\
        sideA !! i = Some (if m <? 0 then abs m else 100 - m) /\
        sideB !! i = Some (if m <? 0 then 100 + m else m).
Proof.
  apply (get_results_year_columns no_numerals two_states "Y" 0
           ["unit"; "state"; "is_state"; "code"]
           [ row_of "X" "X" 1 1 [-65.7; -61.2; -58.4; -55.1; 40.5; 97.25];
             row_of "x1" "X" 0 2 [-72.5; -68.0; -45.5; 10.0; 52.5; 99.0] ]
           (row_of "Y" "Y" 1 3 [51.3; 53.5; 62.0; 71.5; 80.25; 91.0])
           [ row_of "y1" "Y" 0 4 [55.0; 65.0; 75.0; 85.0; 95.0; -51.0] ]).
  - reflexivity.
  - reflexivity.
  - apply (bool_decide_unpack _). vm_compute. exact I.
  - reflexivity.
  - repeat constructor.
  - reflexivity.
  - reflexivity.
  - repeat (constructor; [eexists; reflexivity|]). constructor.
Defined.

(** * The bar chart: the highlighted row and its annotations *)

Lemma py_pos_nonneg (n : nat) (i : Z) :
  (0 <= i < Z.of_nat n)%Z -> py_pos n i = Some (Z.to_nat i).
Proof.
  intros H. unfold py_pos.
  destruct (Z.leb_spec 0 i), (Z.ltb_spec i (Z.of_nat n)); try lia. reflexivity.
Qed.

Lemma py_pos_negative (n : nat) (i : Z) :
  (- Z.of_nat n <= i < 0)%Z -> py_pos n i = Some (Z.to_nat (Z.of_nat n + i)).
Proof.
  intros H. unfold py_pos.
  destruct (Z.leb_spec 0 i); [lia|]. cbn.
  destruct (Z.leb_spec (- Z.of_nat n) i), (Z.ltb_spec i 0); try lia. reflexivity.
Qed.

Lemma py_pos_outside (n : nat) (i : Z) :
  (i < - Z.of_nat n \/ Z.of_nat n <= i)%Z -> py_pos n i = None.
Proof.
  intros H. unfold py_pos.
  destruct (Z.leb_spec 0 i), (Z.ltb_spec i (Z.of_nat n)),
    (Z.leb_spec (- Z.of_nat n) i), (Z.ltb_spec i 0); try lia; reflexivity.
Qed.

Lemma py_pos_bound (n : nat) (i : Z) k : py_pos n i = Some k -> (k < n)%nat.
Proof.
  unfold py_pos.
  destruct (Z.leb_spec 0 i), (Z.ltb_spec i (Z.of_nat n)),
    (Z.leb_spec (- Z.of_nat n) i), (Z.ltb_spec i 0); cbn;
    try discriminate; intros [= <-]; lia.
Qed.

Lemma py_getitem_lookup {A} (l : list A) (i : Z) k x :
  py_pos (length l) i = Some k -> l !! k = Some x -> py_getitem l i = Ok x.
Proof. intros Hk Hx. unfold py_getitem, py_index. now rewrite Hk, Hx. Qed.

Lemma py_setitem_at {A} (l : list A) (i : Z) k x :
  py_pos (length l) i = Some k -> py_setitem l i x = Ok (<[k := x]> l).
Proof. intros Hk. unfold py_setitem. now rewrite Hk. Qed.

Lemma py_setitem_outside {A} (l : list A) (i : Z) x :
  py_pos (length l) i = None -> py_setitem l i x = Raise IndexError.
Proof. intros Hk. unfold py_setitem. now rewrite Hk. Qed.

(** Lines 120 to 122 on a row number that names the row [k]. *)
Lemma create_chart_colors_row (row_number : Z) (k : nat) :
  py_pos 6 row_number = Some k ->
  charts.create_chart_colors row_number
  = Ok [ <[k := charts.BLUE]> (replicate 6 charts.LIGHT_BLUE);
         <[k := charts.RED]> (replicate 6 charts.LIGHT_RED) ].
Proof.
  intros Hk. unfold charts.create_chart_colors.
  change (py_range 0 2 1) with [0; 1]%Z. cbn [charts.for_result].
  change (py_getitem [charts.BLUE; charts.RED] 0) with (Ok charts.BLUE).
  change (py_getitem [charts.BLUE; charts.RED] 1) with (Ok charts.RED).
  cbn [mbind result_bind].
  change (py_getitem [replicate 6 charts.LIGHT_BLUE;
                      replicate 6 charts.LIGHT_RED] 0)
    with (Ok (replicate 6 charts.LIGHT_BLUE)).
  cbn [mbind result_bind].
  rewrite (py_setitem_at (replicate 6 charts.LIGHT_BLUE) row_number k)
    by (rewrite length_replicate; exact Hk).
  cbn [mbind result_bind].
  rewrite (py_setitem_at _ 0 0) by reflexivity.
  cbn [mbind result_bind].
  rewrite (py_getitem_lookup _ 1 1 (replicate 6 charts.LIGHT_RED))
    by reflexivity.
  cbn [mbind result_bind].
  rewrite (py_setitem_at (replicate 6 charts.LIGHT_RED) row_number k)
    by (rewrite length_replicate; exact Hk).
  cbn [mbind result_bind].
  rewrite (py_setitem_at _ 1 1) by reflexivity.
  reflexivity.
Qed.

Lemma create_chart_colors_outside (row_number : Z) :
  py_pos 6 row_number = None ->
  charts.create_chart_colors row_number = Raise IndexError.
Proof.
  intros Hk. unfold charts.create_chart_colors.
  change (py_range 0 2 1) with [0; 1]%Z. cbn [charts.for_result].
  change (py_getitem [charts.BLUE; charts.RED] 0) with (Ok charts.BLUE).
  cbn [mbind result_bind].
  change (py_getitem [replicate 6 charts.LIGHT_BLUE;
                      replicate 6 charts.LIGHT_RED] 0)
    with (Ok (replicate 6 charts.LIGHT_BLUE)).
  cbn [mbind result_bind].
  rewrite (py_setitem_outside (replicate 6 charts.LIGHT_BLUE) row_number)
    by (rewrite length_replicate; exact Hk).
  reflexivity.
Qed.

Lemma accent_lookup (k i : nat) (accent light c : string) :
  <[k := accent]> (replicate 6 light) !! i = Some c ->
  c = if decide (i = k) then accent else light.
Proof.
  intros H. destruct (decide (i = k)) as [->|Hne].
  - rewrite list_lookup_insert_eq in H; [congruence|].
    apply lookup_lt_Some in H. now rewrite length_insert in H.
  - rewrite list_lookup_insert_ne in H by congruence.
    apply lookup_replicate in H as [-> _]. reflexivity.
Qed.

(** The run of [create_chart] on two series of six values, up to the two
    annotations. *)
Lemma create_chart_run barh round2 (d r : list float) (row_number : Z)
    (name : string) (k : nat) (v0 v1 : float) :
  barh_draws barh ->
  length d = 6%nat -> length r = 6%nat ->
  py_pos 6 row_number = Some k ->
  d !! k = Some v0 -> r !! k = Some v1 ->
  exists bars0 bars1 : list charts.Rectangle,
    length bars0 = 6%nat /\ length bars1 = 6%nat /\
    (forall i b, bars0 !! i = Some b ->
       d !! i = Some (charts.rect_width b) /\
       charts.rect_color b
       = if decide (i = k) then charts.BLUE else charts.LIGHT_BLUE) /\
    (forall i b, bars1 !! i = Some b ->
       r !! i = Some (charts.rect_width b) /\
       d !! i = Some (charts.rect_x b) /\
       charts.rect_color b
       = if decide (i = k) then charts.RED else charts.LIGHT_RED) /\
    charts.create_chart barh round2 [d; r] row_number name
    = (ax ← charts.add_annot (percent round2 v0) row_number
             {| charts.patches := bars0 ++ bars1; charts.texts := [] |};
       charts.add_annot (percent round2 v1) (row_number + 6) ax).
Proof.
  intros Hbarh Hd Hr Hk Hv0 Hv1.
  set (c0 := <[k := charts.BLUE]> (replicate 6 charts.LIGHT_BLUE)).
  set (c1 := <[k := charts.RED]> (replicate 6 charts.LIGHT_RED)).
  set (ax0 := {| charts.patches := []; charts.texts := [] |}).
  destruct (Hbarh charts.YEARS d c0 None ax0) as (bars0 & Hrun0 & Hlen0 & Hbars0);
    [exact Hd|unfold c0; now rewrite length_insert, length_replicate
    |discriminate|].
  set (ax1 := {| charts.patches := charts.patches ax0 ++ bars0;
                 charts.texts := charts.texts ax0 |}) in *.
  destruct (Hbarh charts.YEARS r c1 (Some d) ax1)
    as (bars1 & Hrun1 & Hlen1 & Hbars1);
    [exact Hr|unfold c1; now rewrite length_insert, length_replicate
    |intros l [= <-]; exact Hd|].
  exists bars0, bars1. split; [exact Hlen0|]. split; [exact Hlen1|].
  split; [|split].
  - intros i b Hb. destruct (Hbars0 i b Hb) as (Hw & Hc & _).
    split; [exact Hw|]. subst c0. now apply accent_lookup in Hc.
  - intros i b Hb. destruct (Hbars1 i b Hb) as (Hw & Hc & Hx).
    split; [exact Hw|]. split; [now apply Hx|].
    subst c1. now apply accent_lookup in Hc.
  - unfold charts.create_chart. cbv zeta.
    rewrite (create_chart_colors_row row_number k Hk).
    cbn [mbind result_bind].
    unfold charts.draw_bar_chart. cbn [zip zip_with charts.draw_bar_chart_loop].
    fold c0 c1 ax0. rewrite Hrun0. cbn [mbind result_bind].
    change (py_getitem [d; r] (Z.of_nat 1 - 1)) with (Ok d).
    cbn [mbind result_bind]. rewrite Hrun1. cbn [mbind result_bind].
    change (py_getitem [d; r] 0) with (Ok d).
    change (py_getitem [d; r] 1) with (Ok r).
    cbn [mbind result_bind].
    rewrite (py_getitem_lookup d row_number k v0) by (rewrite ?Hd; assumption).
    rewrite (py_getitem_lookup r row_number k v1) by (rewrite ?Hr; assumption).
    cbn [mbind result_bind]. reflexivity.
Qed.

Lemma add_annot_at (text : string) (patch_number : Z) (ax : charts.Axes)
    (p : nat) (b : charts.Rectangle) :
  py_pos (length (charts.patches ax)) patch_number = Some p ->
  charts.patches ax !! p = Some b ->
  charts.add_annot text patch_number ax
  = Ok {| charts.patches := charts.patches ax;
          charts.texts := charts.texts ax ++ [centred b text] |}.
Proof.
  intros Hp Hb. unfold charts.add_annot.
  now rewrite (py_getitem_lookup _ _ p b Hp Hb).
Qed.

(** For a row number from 0 to 5, on two series of six values, the chart has
    twelve bars: the bars of the first series, then those of the second,
    each as wide as its value, a bar of the second series starting at the
    width of the bar of the first.
    The bars of the numbered row have the accent colours and all others the
    light ones, and the two texts are the values of that row, each at the
    centre of its own bar. *)
Theorem create_chart_highlight barh round2 (d r : list float) (k : nat)
    (name : string) :
  barh_draws barh ->
  length d = 6%nat -> length r = 6%nat -> (k < 6)%nat ->
  exists (ax : charts.Axes) (b0 b1 : charts.Rectangle) (v0 v1 : float),
    charts.create_chart barh round2 [d; r] (Z.of_nat k) name = Ok ax /\
    length (charts.patches ax) = 12%nat /\
    d !! k = Some v0 /\ r !! k = Some v1 /\
    charts.patches ax !! k = Some b0 /\
    charts.patches ax !! (6 + k)%nat = Some b1 /\
    charts.rect_width b0 = v0 /\ charts.rect_width b1 = v1 /\
    charts.rect_x b1 = v0 /\
    (forall i b, charts.patches ax !! i = Some b ->
       charts.rect_color b
       = if decide (i = k) then charts.BLUE
         else if decide (i = 6 + k)%nat then charts.RED
         else if decide (i < 6)%nat then charts.LIGHT_BLUE
         else charts.LIGHT_RED) /\
    charts.texts ax
    = [centred b0 (percent round2 v0); centred b1 (percent round2 v1)].
Proof.
  intros Hbarh Hd Hr Hk.
  destruct (lookup_lt_is_Some_2 d k) as [v0 Hv0]; [lia|].
  destruct (lookup_lt_is_Some_2 r k) as [v1 Hv1]; [lia|].
  assert (Hpos : py_pos 6 (Z.of_nat k) = Some k).
  { rewrite py_pos_nonneg by lia. now rewrite Nat2Z.id. }
  destruct (create_chart_run barh round2 d r (Z.of_nat k) name k v0 v1
              Hbarh Hd Hr Hpos Hv0 Hv1)
    as (bars0 & bars1 & Hlen0 & Hlen1 & Hbars0 & Hbars1 & Hrun).
  destruct (lookup_lt_is_Some_2 bars0 k) as [b0 Hb0]; [lia|].
  destruct (lookup_lt_is_Some_2 bars1 k) as [b1 Hb1]; [lia|].
  assert (Hp0 : (bars0 ++ bars1) !! k = Some b0)
    by (rewrite lookup_app_l by lia; exact Hb0).
  assert (Hp1 : (bars0 ++ bars1) !! (6 + k)%nat = Some b1).
  { rewrite lookup_app_r by lia. rewrite Hlen0.
    replace (6 + k - 6)%nat with k by lia. exact Hb1. }
  rewrite (add_annot_at _ _ _ k b0) in Hrun; cycle 1.
  { cbn [charts.patches]. rewrite length_app, Hlen0, Hlen1.
    rewrite py_pos_nonneg by lia. now rewrite Nat2Z.id. }
  { exact Hp0. }
  cbn [mbind result_bind] in Hrun.
  rewrite (add_annot_at _ _ _ (6 + k) b1) in Hrun; cycle 1.
  { cbn [charts.patches]. rewrite length_app, Hlen0, Hlen1.
    rewrite py_pos_nonneg by lia. f_equal. lia. }
  { exact Hp1. }
  eexists _, b0, b1, v0, v1. split; [exact Hrun|]. cbn [charts.patches charts.texts].
  split; [rewrite length_app; lia|]. split; [exact Hv0|]. split; [exact Hv1|].
  split; [exact Hp0|]. split; [exact Hp1|].
  destruct (Hbars0 k b0 Hb0) as [Hw0 _].
  destruct (Hbars1 k b1 Hb1) as (Hw1 & Hx1 & _).
  split; [congruence|]. split; [congruence|]. split; [congruence|].
  split; [|reflexivity].
  intros i b Hb. destruct (decide (i < 6)%nat) as [Hi|Hi].
  - rewrite lookup_app_l in Hb by lia.
    destruct (Hbars0 i b Hb) as [_ ->].
    destruct (decide (i = k)); [reflexivity|].
    destruct (decide (i = 6 + k)%nat); [lia|reflexivity].
  - rewrite lookup_app_r in Hb by lia. rewrite Hlen0 in Hb.
    destruct (Hbars1 _ b Hb) as (_ & _ & ->).
    destruct (decide (i = k)); [lia|].
    destruct (decide (i - 6 = k)%nat), (decide (i = 6 + k)%nat);
      try lia; reflexivity.
Qed.

Lemma plain_barh_draws : barh_draws plain_barh.
Proof.
  intros y width color left ax Hw Hc Hl.
  exists (bars_of y width color left). split; [reflexivity|].
  unfold bars_of. split; [apply length_imap|].
  intros k b Hb. apply list_lookup_imap_Some in Hb as (name & Hk & ->).
  apply lookup_lt_Some in Hk. cbn.
  destruct (lookup_lt_is_Some_2 width k) as [w ->]; [lia|].
  destruct (lookup_lt_is_Some_2 color k) as [c ->]; [lia|].
  split; [reflexivity|]. split; [reflexivity|].
  intros l ->. cbn. specialize (Hl l eq_refl).
  destruct (lookup_lt_is_Some_2 l k) as [x ->]; [lia|]. reflexivity.
Qed.

Lemma create_chart_highlight_witness :
  exists (ax : charts.Axes) (b0 b1 : charts.Rectangle) (v0 v1 : float),
    charts.create_chart plain_barh (fun _ => "65.7")
      [ [65.7; 61.2; 58.4; 55.1; 59.5; 2.75];
        [34.3; 38.8; 41.6; 44.9; 40.5; 97.25] ] (Z.of_nat 2) "2008-chart.png"
    = Ok ax /\
    length (charts.patches ax) = 12%nat /\
    [65.7; 61.2; 58.4; 55.1; 59.5; 2.75] !! 2%nat = Some v0 /\
    [34.3; 38.8; 41.6; 44.9; 40.5; 97.25] !! 2%nat = Some v1 /\
    charts.patches ax !! 2%nat = Some b0 /\
    charts.patches ax !! (6 + 2)%nat = Some b1 /\
    charts.rect_width b0 = v0 /\ charts.rect_width b1 = v1 /\
    charts.rect_x b1 = v0 /\
    (forall i b, charts.patches ax !! i = Some b ->
       charts.rect_color b
       = if decide (i = 2%nat) then charts.BLUE
         else if decide (i = 6 + 2)%nat then charts.RED
         else if decide (i < 6)%nat then charts.LIGHT_BLUE
         else charts.LIGHT_RED) /\
    charts.texts ax
    = [centred b0 (percent (fun _ => "65.7") v0);
       centred b1 (percent (fun _ => "65.7") v1)].
Proof.
  apply (create_chart_highlight plain_barh (fun _ => "65.7")
           [65.7; 61.2; 58.4; 55.1; 59.5; 2.75]
           [34.3; 38.8; 41.6; 44.9; 40.5; 97.25] 2 "2008-chart.png").
  - exact plain_barh_draws.
  - reflexivity.
  - reflexivity.
  - lia.
Defined.

(** A row number from -6 to -1 is no error: it highlights the row counted
    from the end, and the two annotations change places.  Patch
    [row_number] is then a bar of the second series and patch
    [row_number + 6] one of the first, so the value of the first series is
    written on the bar of the second and the other way round. *)
Theorem create_chart_negative_row barh round2 (d r : list float) (k : nat)
    (name : string) :
  barh_draws barh ->
  length d = 6%nat -> length r = 6%nat -> (k < 6)%nat ->
  exists (ax : charts.Axes) (b0 b1 : charts.Rectangle) (v0 v1 : float),
    charts.create_chart barh round2 [d; r] (Z.of_nat k - 6) name = Ok ax /\
    d !! k = Some v0 /\ r !! k = Some v1 /\
    charts.patches ax !! k = Some b0 /\
    charts.patches ax !! (6 + k)%nat = Some b1 /\
    charts.rect_color b0 = charts.BLUE /\ charts.rect_color b1 = charts.RED /\
    charts.rect_width b0 = v0 /\ charts.rect_width b1 = v1 /\
    charts.texts ax
    = [centred b1 (percent round2 v0); centred b0 (percent round2 v1)].
Proof.
  intros Hbarh Hd Hr Hk.
  destruct (lookup_lt_is_Some_2 d k) as [v0 Hv0]; [lia|].
  destruct (lookup_lt_is_Some_2 r k) as [v1 Hv1]; [lia|].
  assert (Hpos : py_pos 6 (Z.of_nat k - 6) = Some k).
  { rewrite py_pos_negative by lia. f_equal. lia. }
  destruct (create_chart_run barh round2 d r (Z.of_nat k - 6) name k v0 v1
              Hbarh Hd Hr Hpos Hv0 Hv1)
    as (bars0 & bars1 & Hlen0 & Hlen1 & Hbars0 & Hbars1 & Hrun).
  destruct (lookup_lt_is_Some_2 bars0 k) as [b0 Hb0]; [lia|].
  destruct (lookup_lt_is_Some_2 bars1 k) as [b1 Hb1]; [lia|].
  assert (Hp0 : (bars0 ++ bars1) !! k = Some b0)
    by (rewrite lookup_app_l by lia; exact Hb0).
  assert (Hp1 : (bars0 ++ bars1) !! (6 + k)%nat = Some b1).
  { rewrite lookup_app_r by lia. rewrite Hlen0.
    replace (6 + k - 6)%nat with k by lia. exact Hb1. }
  rewrite (add_annot_at _ _ _ (6 + k) b1) in Hrun; cycle 1.
  { cbn [charts.patches]. rewrite length_app, Hlen0, Hlen1.
    rewrite py_pos_negative by lia. f_equal. lia. }
  { exact Hp1. }
  cbn [mbind result_bind] in Hrun.
  rewrite (add_annot_at _ _ _ k b0) in Hrun; cycle 1.
  { cbn [charts.patches]. rewrite length_app, Hlen0, Hlen1.
    rewrite py_pos_nonneg by lia. f_equal. lia. }
  { exact Hp0. }
  eexists _, b0, b1, v0, v1. split; [exact Hrun|].
  cbn [charts.patches charts.texts].
  split; [exact Hv0|]. split; [exact Hv1|].
  split; [exact Hp0|]. split; [exact Hp1|].
  destruct (Hbars0 k b0 Hb0) as [Hw0 Hc0].
  destruct (Hbars1 k b1 Hb1) as (Hw1 & _ & Hc1).
  rewrite decide_True in Hc0, Hc1 by reflexivity.
  split; [exact Hc0|]. split; [exact Hc1|].
  split; [congruence|]. split; [congruence|]. reflexivity.
Qed.

Lemma create_chart_negative_row_witness :
  exists (ax : charts.Axes) (b0 b1 : charts.Rectangle) (v0 v1 : float),
    charts.create_chart plain_barh (fun _ => "65.7")
      [ [65.7; 61.2; 58.4; 55.1; 59.5; 2.75];
        [34.3; 38.8; 41.6; 44.9; 40.5; 97.25] ] (Z.of_nat 5 - 6)
      "2020-chart.png"
    = Ok ax /\
    [65.7; 61.2; 58.4; 55.1; 59.5; 2.75] !! 5%nat = Some v0 /\
    [34.3; 38.8; 41.6; 44.9; 40.5; 97.25] !! 5%nat = Some v1 /\
    charts.patches ax !! 5%nat = Some b0 /\
    charts.patches ax !! (6 + 5)%nat = Some b1 /\
    charts.rect_color b0 = charts.BLUE /\ charts.rect_color b1 = charts.RED /\
    charts.rect_width b0 = v0 /\ charts.rect_width b1 = v1 /\
    charts.texts ax
    = [centred b1 (percent (fun _ => "65.7") v0);
       centred b0 (percent (fun _ => "65.7") v1)].
Proof.
  apply (create_chart_negative_row plain_barh (fun _ => "65.7")
           [65.7; 61.2; 58.4; 55.1; 59.5; 2.75]
           [34.3; 38.8; 41.6; 44.9; 40.5; 97.25] 5 "2020-chart.png").
  - exact plain_barh_draws.
  - reflexivity.
  - reflexivity.
  - lia.
Defined.

(** A row number below -6 or above 5 is an [IndexError] of line 122, raised
    before any bar is drawn, whatever the values and whatever [barh] does. *)
Theorem create_chart_row_out_of_range barh round2 (values : list (list float))
    (row_number : Z) (name : string) :
  (row_number < -6 \/ 6 <= row_number)%Z ->
  charts.create_chart barh round2 values row_number name = Raise IndexError.
Proof.
  intros Hrow. unfold charts.create_chart. cbv zeta.
  rewrite create_chart_colors_outside; [reflexivity|].
  apply py_pos_outside. cbn. lia.
Qed.

Lemma create_chart_row_out_of_range_witness :
  charts.create_chart plain_barh (fun _ => "65.7")
    [ [65.7; 61.2; 58.4; 55.1; 59.5; 2.75];
      [34.3; 38.8; 41.6; 44.9; 40.5; 97.25] ] 6 "2024-chart.png"
  = Raise IndexError.
Proof.
  apply (create_chart_row_out_of_range plain_barh (fun _ => "65.7")). lia.
Defined.

(** [add_annot] raises, and then [IndexError], exactly when the patch number
    is outside [-n, n) for the [n] bars of the axes; when it returns, the
    bars are as they were and one text has been added after the others. *)
Theorem add_annot_spec (text : string) (patch_number : Z) (ax : charts.Axes) :
  (forall e, charts.add_annot text patch_number ax = Raise e
     <-> e = IndexError /\
         (patch_number < - Z.of_nat (length (charts.patches ax)) \/
          Z.of_nat (length (charts.patches ax)) <= patch_number)%Z) /\
  (forall ax', charts.add_annot text patch_number ax = Ok ax' ->
     charts.patches ax' = charts.patches ax /\
     exists x y, charts.texts ax' = charts.texts ax ++ [(x, y, text)]).
Proof.
  unfold charts.add_annot, py_getitem.
  set (n := length (charts.patches ax)).
  destruct (py_pos n patch_number) as [p|] eqn:Hp.
  - pose proof (py_pos_bound n patch_number p Hp) as Hlt.
    destruct (lookup_lt_is_Some_2 (charts.patches ax) p Hlt) as [b Hb].
    unfold py_index. rewrite Hb. cbn. split.
    + intros e. split; [discriminate|]. intros [_ Hout].
      rewrite (py_pos_outside n patch_number Hout) in Hp. discriminate.
    + intros ax' [= <-]. cbn. eauto.
  - cbn. split.
    + intros e. split; [intros [= <-]|intros [-> _]; reflexivity].
      split; [reflexivity|].
      destruct (Z_lt_le_dec patch_number (- Z.of_nat n)) as [|Hge]; [auto|].
      destruct (Z_lt_le_dec patch_number (Z.of_nat n)) as [Hlt|]; [|auto].
      destruct (Z_lt_le_dec patch_number 0).
      * rewrite py_pos_negative in Hp by lia. discriminate.
      * rewrite py_pos_nonneg in Hp by lia. discriminate.
    + discriminate.
Qed.

(** * The bar chart: where each series starts *)

Lemma draw_bar_chart_loop_run barh (y : list string)
    (values : list (list float)) :
  barh_draws barh ->
  forall (pairs : list (list float * list string)) (i : nat) (ax : charts.Axes),
    Forall (fun p => length p.1 = length y /\ length p.2 = length y) pairs ->
    (forall j, (j < length pairs)%nat ->
       exists prev, values !! (i + j - 1)%nat = Some prev /\
                    length prev = length y) ->
    exists groups : list (list charts.Rectangle),
      charts.draw_bar_chart_loop barh y values pairs i ax
      = Ok {| charts.patches := charts.patches ax ++ concat groups;
              charts.texts := charts.texts ax |} /\
      length groups = length pairs /\
      forall j g, groups !! j = Some g ->
        length g = length y /\
        forall k b, g !! k = Some b ->
          (exists p, pairs !! j = Some p /\
             p.1 !! k = Some (charts.rect_width b) /\
             p.2 !! k = Some (charts.rect_color b)) /\
          ((0 < i + j)%nat ->
           exists prev, values !! (i + j - 1)%nat = Some prev /\
                        prev !! k = Some (charts.rect_x b)).
Proof.
  intros Hbarh. induction pairs as [|[values_ colors_] pairs IH];
    intros i ax Hshape Hprev.
  - exists []. cbn. rewrite app_nil_r. destruct ax. split; [reflexivity|].
    split; [reflexivity|]. intros j g Hg. discriminate.
  - apply Forall_cons in Hshape as [[Hv Hc] Hshape]. cbn in Hv, Hc.
    cbn [charts.draw_bar_chart_loop].
    set (left := match i with
                 | O => None
                 | S _ => values !! (i - 1)%nat
                 end).
    assert (Hleft : forall l, left = Some l -> length l = length y).
    { intros l Hl. destruct (Hprev 0%nat) as (prev & Hp & Hlen); [cbn; lia|].
      subst left. destruct i as [|i]; [discriminate|].
      replace (S i + 0 - 1)%nat with (S i - 1)%nat in Hp by lia. congruence. }
    destruct (Hbarh y values_ colors_ left ax Hv Hc Hleft)
      as (bars & Hrun & Hlen & Hbars).
    assert (Hstep :
      match i with
      | O => barh y values_ colors_ None ax
      | S _ => left ← py_getitem values (Z.of_nat i - 1);
               barh y values_ colors_ (Some left) ax
      end = Ok {| charts.patches := charts.patches ax ++ bars;
                  charts.texts := charts.texts ax |}).
    { subst left. destruct i as [|i]; [exact Hrun|].
      destruct (Hprev 0%nat) as (prev & Hp & _); [cbn; lia|].
      replace (S i + 0 - 1)%nat with (S i - 1)%nat in Hp by lia.
      rewrite Hp in Hrun.
      rewrite (py_getitem_lookup values _ (S i - 1) prev); [exact Hrun| |exact Hp].
      apply lookup_lt_Some in Hp.
      rewrite py_pos_nonneg by lia. f_equal. lia. }
    rewrite Hstep. cbn [mbind result_bind].
    destruct (IH (S i) {| charts.patches := charts.patches ax ++ bars;
                          charts.texts := charts.texts ax |} Hshape)
      as (groups & Hrest & Hlens & Hgroups).
    { intros j Hj. destruct (Hprev (S j)) as (prev & Hp & Hl); [cbn; lia|].
      exists prev. split; [|exact Hl].
      replace (S i + j - 1)%nat with (i + S j - 1)%nat by lia. exact Hp. }
    exists (bars :: groups). split; [|split].
    + rewrite Hrest. cbn. now rewrite app_assoc.
    + cbn. now rewrite Hlens.
    + intros [|j] g Hg; cbn in Hg.
      * injection Hg as <-. split; [exact Hlen|]. intros k b Hb.
        destruct (Hbars k b Hb) as (Hw & Hcol & Hx). split.
        -- exists (values_, colors_). auto.
        -- intros Hi. destruct i as [|i]; [lia|]. subst left.
           destruct (values !! (S i - 1)%nat) as [prev|] eqn:Hp.
           ++ exists prev. split; [|now apply Hx].
              replace (S i + 0 - 1)%nat with (S i - 1)%nat by lia. exact Hp.
           ++ destruct (Hprev 0%nat) as (prev & Hp' & _); [cbn; lia|].
              replace (S i + 0 - 1)%nat with (S i - 1)%nat in Hp' by lia.
              congruence.
      * destruct (Hgroups j g Hg) as [Hlg Hg']. split; [exact Hlg|].
        intros k b Hb. destruct (Hg' k b Hb) as [Hpair Hx]. split.
        -- exact Hpair.
        -- intros _.
           replace (i + S j - 1)%nat with (S i + j - 1)%nat by lia.
           apply Hx. lia.
Qed.

(** [draw_bar_chart] on any number of series, each with one value and one
    colour per label: it draws the series one after the other, one bar per
    label, and every series after the first starts at the values of the
    series just before it, not at the sum of all series before it.  The
    bars are stacked end to end for two series only. *)
Theorem draw_bar_chart_left_edges barh (y : list string)
    (values : list (list float)) (colors : list (list string))
    (ax : charts.Axes) :
  barh_draws barh ->
  length colors = length values ->
  Forall (fun v => length v = length y) values ->
  Forall (fun c => length c = length y) colors ->
  exists groups : list (list charts.Rectangle),
    charts.draw_bar_chart barh y values colors ax
    = Ok {| charts.patches := charts.patches ax ++ concat groups;
            charts.texts := charts.texts ax |} /\
    length groups = length values /\
    forall i g, groups !! i = Some g ->
      length g = length y /\
      forall k b, g !! k = Some b ->
        (exists v, values !! i = Some v /\
                   v !! k = Some (charts.rect_width b)) /\
        ((0 < i)%nat ->
         exists prev, values !! (i - 1)%nat = Some prev /\
                      prev !! k = Some (charts.rect_x b)).
Proof.
  intros Hbarh Hlen Hvalues Hcolors. unfold charts.draw_bar_chart.
  destruct (draw_bar_chart_loop_run barh y values Hbarh (zip values colors)
              0 ax) as (groups & Hrun & Hlens & Hgroups).
  - apply Forall_forall. intros [v c] Hin.
    apply elem_of_zip_l in Hin as Hv. apply elem_of_zip_r in Hin as Hc.
    rewrite Forall_forall in Hvalues. rewrite Forall_forall in Hcolors.
    cbn. auto.
  - intros j Hj. rewrite length_zip in Hj.
    destruct (lookup_lt_is_Some_2 values (0 + j - 1)) as [prev Hp]; [lia|].
    exists prev. split; [exact Hp|].
    rewrite Forall_forall in Hvalues. eapply Hvalues, list_elem_of_lookup_2, Hp.
  - exists groups. split; [exact Hrun|]. split.
    { rewrite Hlens, length_zip. lia. }
    intros i g Hg. destruct (Hgroups i g Hg) as [Hlg Hg']. split; [exact Hlg|].
    intros k b Hb. destruct (Hg' k b Hb) as [(p & Hp & Hw & _) Hx]. split.
    + apply lookup_zip_with_Some in Hp as (v & c & -> & Hv & _).
      exists v. auto.
    + intros Hi. apply Hx. lia.
Qed.

Lemma draw_bar_chart_left_edges_witness :
  exists groups : list (list charts.Rectangle),
    charts.draw_bar_chart plain_barh ["2000"; "2004"]
      [[10; 20]; [30; 40]; [50; 60]]%float
      [["a"; "b"]; ["c"; "d"]; ["e"; "f"]]
      {| charts.patches := []; charts.texts := [] |}
    = Ok {| charts.patches := [] ++ concat groups; charts.texts := [] |} /\
    length groups = 3%nat /\
    forall i g, groups !! i = Some g ->
      length g = 2%nat /\
      forall k b, g !! k = Some b ->
        (exists v, [[10; 20]; [30; 40]; [50; 60]]%float !! i = Some v /\
                   v !! k = Some (charts.rect_width b)) /\
        ((0 < i)%nat ->
         exists prev, [[10; 20]; [30; 40]; [50; 60]]%float !! (i - 1)%nat
                      = Some prev /\
                      prev !! k = Some (charts.rect_x b)).
Proof.
  apply (draw_bar_chart_left_edges plain_barh ["2000"; "2004"]
           [[10; 20]; [30; 40]; [50; 60]]%float
           [["a"; "b"]; ["c"; "d"]; ["e"; "f"]]
           {| charts.patches := []; charts.texts := [] |}).
  - exact plain_barh_draws.
  - reflexivity.
  - repeat constructor.
  - repeat constructor.
Defined.

(** * The frame: where [combine_images] puts the images *)

Local Open Scope Z_scope.

Lemma foldl_add (a : Z) (l : list Z) : foldl Z.add a l = a + py_sum l.
Proof.
  unfold py_sum. revert a. induction l as [|x l IH]; intros a; cbn [foldl];
    [lia|].
  rewrite (IH (a + x)), (IH (0 + x)). lia.
Qed.

Lemma py_sum_cons (x : Z) (l : list Z) : py_sum (x :: l) = x + py_sum l.
Proof. unfold py_sum at 1. cbn. apply foldl_add. Qed.

Lemma py_sum_nonneg (l : list Z) : Forall (fun x => 0 <= x) l -> 0 <= py_sum l.
Proof.
  induction 1 as [|x l Hx _ IH]; [reflexivity|]. rewrite py_sum_cons. lia.
Qed.

Lemma py_sum_take (l : list Z) (k : nat) (x : Z) :
  l !! k = Some x -> py_sum (take (S k) l) = py_sum (take k l) + x.
Proof.
  revert k. induction l as [|y l IH]; intros k Hk; [discriminate|].
  destruct k as [|k]; cbn in Hk.
  - injection Hk as ->. cbn [take]. rewrite py_sum_cons, take_0.
    unfold py_sum. cbn [foldl]. lia.
  - cbn [take]. rewrite !py_sum_cons, (IH k Hk). lia.
Qed.

Lemma py_sum_take_le (l : list Z) (k : nat) :
  Forall (fun x => 0 <= x) l -> py_sum (take k l) <= py_sum l.
Proof.
  intros Hl. revert k. induction Hl as [|x l Hx Hl IH]; intros k.
  - now rewrite take_nil.
  - destruct k as [|k]; cbn [take].
    + rewrite py_sum_cons. pose proof (py_sum_nonneg l Hl).
      unfold py_sum at 1. cbn. lia.
    + rewrite !py_sum_cons. specialize (IH k). lia.
Qed.

Lemma combine_images_loop_lookup (sizes : list (Z * Z)) (x0 : Z) (k : nat)
    (size : Z * Z) :
  sizes !! k = Some size ->
  utils.combine_images_loop sizes x0 !! k
  = Some (x0 + py_sum (fst <$> take k sizes), 0).
Proof.
  revert x0 k. induction sizes as [|s sizes IH]; intros x0 k Hk; [discriminate|].
  destruct k as [|k]; cbn in Hk; cbn [utils.combine_images_loop take].
  - unfold py_sum. cbn. do 2 f_equal. lia.
  - cbn [lookup list_lookup]. rewrite (IH _ k Hk). rewrite fmap_cons.
    rewrite py_sum_cons. do 2 f_equal. lia.
Qed.

Lemma foldl_max_ge (a : Z) (l : list Z) :
  a <= foldl Z.max a l /\ Forall (fun x => x <= foldl Z.max a l) l.
Proof.
  revert a. induction l as [|x l IH]; intros a; cbn; [split; [lia|constructor]|].
  destruct (IH (Z.max a x)) as [H1 H2]. split; [lia|].
  constructor; [lia|exact H2].
Qed.

Lemma foldl_max_in (a : Z) (l : list Z) : foldl Z.max a l ∈ a :: l.
Proof.
  revert a. induction l as [|x l IH]; intros a; cbn; [constructor|].
  specialize (IH (Z.max a x)). apply elem_of_cons in IH as [->|IH].
  - destruct (Z.max_spec a x) as [[_ ->]|[_ ->]]; [right; left|left].
  - right. now right.
Qed.

(** [combine_images] raises on an empty list of files, with the [ValueError]
    of line 111, and on no other list. *)
Lemma combine_images_no_file (sizes : list (Z * Z)) (e : exn) :
  utils.combine_images_layout sizes = Raise e <-> sizes = [] /\ e = ValueError.
Proof.
  destruct sizes as [|s sizes]; cbn.
  - split; [intros [= <-]; auto|intros [_ ->]; reflexivity].
  - split; [discriminate|intros [? _]; discriminate].
Qed.

(** The images are pasted side by side.  For images of widths that are not
    negative, the new image is as wide as all of them together and as high
    as the highest, and image [k] is pasted with its top at 0 and its left
    edge at the sum of the widths of the images before it: inside the new
    image, and where the image before it ends. *)
Theorem combine_images_side_by_side (sizes : list (Z * Z)) :
  sizes <> [] ->
  Forall (fun size => 0 <= size.1) sizes ->
  exists (total_width max_height : Z) (corners : list (Z * Z)),
    utils.combine_images_layout sizes
    = Ok ((total_width, max_height), corners) /\
    total_width = py_sum (fst <$> sizes) /\
    (exists k w, sizes !! k = Some (w, max_height)) /\
    length corners = length sizes /\
    forall (k : nat) (w h : Z), sizes !! k = Some (w, h) ->
      corners !! k = Some (py_sum (fst <$> take k sizes), 0) /\
      0 <= py_sum (fst <$> take k sizes) /\
      py_sum (fst <$> take k sizes) + w <= total_width /\
      h <= max_height /\
      py_sum (fst <$> take (S k) sizes) = py_sum (fst <$> take k sizes) + w.
Proof.
  intros Hne Hw. destruct sizes as [|s sizes]; [contradiction|].
  set (all := s :: sizes) in *.
  assert (Hwidths : Forall (fun x => 0 <= x) (fst <$> all))
    by (apply Forall_fmap; exact Hw).
  exists (py_sum (fst <$> all)), (foldl Z.max s.2 (snd <$> sizes)),
    (utils.combine_images_loop all 0).
  split; [reflexivity|]. split; [reflexivity|]. split; [|split].
  - pose proof (foldl_max_in s.2 (snd <$> sizes)) as Hin.
    change (s.2 :: (snd <$> sizes)) with (snd <$> all) in Hin.
    apply list_elem_of_fmap in Hin as ([w h] & Hh & Hin).
    apply list_elem_of_lookup in Hin as [k Hk].
    exists k, w. cbn in Hh. now rewrite Hh.
  - clear. generalize 0. induction all as [|a all IH]; intros x; cbn;
      [reflexivity|]. now rewrite IH.
  - intros k w h Hk.
    rewrite (combine_images_loop_lookup all 0 k (w, h) Hk).
    assert (Hwk : (fst <$> all) !! k = Some w)
      by (rewrite list_lookup_fmap, Hk; reflexivity).
    assert (Hnext : py_sum (fst <$> take (S k) all)
                    = py_sum (fst <$> take k all) + w).
    { rewrite !fmap_take. now apply py_sum_take. }
    split; [do 2 f_equal; lia|]. split; [|split; [|split]].
    + apply py_sum_nonneg. rewrite fmap_take. now apply Forall_take.
    + rewrite <- Hnext, fmap_take. now apply py_sum_take_le.
    + destruct (foldl_max_ge s.2 (snd <$> sizes)) as [H1 H2].
      assert (Hall : Forall (fun x => x <= foldl Z.max s.2 (snd <$> sizes))
                       (snd <$> all)) by (constructor; assumption).
      rewrite Forall_forall in Hall. apply Hall.
      apply list_elem_of_fmap. exists (w, h). split; [reflexivity|].
      eapply list_elem_of_lookup_2, Hk.
    + exact Hnext.
Qed.

Lemma combine_images_side_by_side_witness :
  exists (total_width max_height : Z) (corners : list (Z * Z)),
    utils.combine_images_layout [(1200, 1200); (1000, 1400)]
    = Ok ((total_width, max_height), corners) /\
    total_width = py_sum (fst <$> [(1200, 1200); (1000, 1400)]) /\
    (exists k w, [(1200, 1200); (1000, 1400)] !! k = Some (w, max_height)) /\
    length corners = length [(1200, 1200); (1000, 1400)] /\
    forall (k : nat) (w h : Z),
      [(1200, 1200); (1000, 1400)] !! k = Some (w, h) ->
      corners !! k
      = Some (py_sum (fst <$> take k [(1200, 1200); (1000, 1400)]), 0) /\
      0 <= py_sum (fst <$> take k [(1200, 1200); (1000, 1400)]) /\
      py_sum (fst <$> take k [(1200, 1200); (1000, 1400)]) + w <= total_width /\
      h <= max_height /\
      py_sum (fst <$> take (S k) [(1200, 1200); (1000, 1400)])
      = py_sum (fst <$> take k [(1200, 1200); (1000, 1400)]) + w.
Proof.
  apply (combine_images_side_by_side [(1200, 1200); (1000, 1400)]).
  - discriminate.
  - repeat constructor; cbn; lia.
Defined.

(** * From the result series to the chart *)

Local Open Scope nat_scope.

Lemma get_results_pair float_of_str (data : DataFrame) (state : string)
    (res : list (list float)) :
  parsing.get_results float_of_str data state = Ok res ->
  exists (ms : list float) (row : list pyval),
    res = [parsing.d_results ms; parsing.r_results ms] /\
    row ∈ rows data /\ length ms = min 6 (length row).
Proof.
  destruct (col_pos "unit" (columns data)) as [j|] eqn:Hj.
  - rewrite (get_results_unfold _ _ _ j Hj).
    destruct (filter _ (rows data)) as [|r0 rs] eqn:Hfilter; [discriminate|].
    assert (Hr0 : r0 ∈ filter (fun r => py_eq (cell r j) (VStr state) = true)
                        (rows data)) by (rewrite Hfilter; constructor).
    apply list_elem_of_filter in Hr0 as [_ Hr0].
    unfold parsing.series_of_row.
    destruct (series_apply _ _) as [ms|e] eqn:Happly; cbn; [|discriminate].
    intros [= <-]. apply series_apply_length in Happly.
    rewrite py_suffix_length in Happly. eauto.
  - unfold parsing.get_results, df_getitem. rewrite Hj. discriminate.
Qed.

(** What [get_results] returns, [create_chart] accepts: on a table whose
    rows have six cells or more, the two series have six entries each, and
    for each of the row numbers 0 to 5 that [main] passes the chart is drawn
    with twelve bars and two annotations, without an [IndexError]. *)
Theorem results_fit_chart float_of_str barh round2 (data : DataFrame)
    (state : string) (res : list (list float)) (k : nat) (name : string) :
  barh_draws barh ->
  Forall (fun row => 6 <= length row) (rows data) ->
  parsing.get_results float_of_str data state = Ok res ->
  k < 6 ->
  exists ax : charts.Axes,
    charts.create_chart barh round2 res (Z.of_nat k) name = Ok ax /\
    length (charts.patches ax) = 12 /\ length (charts.texts ax) = 2.
Proof.
  intros Hbarh Hrows Hres Hk.
  apply get_results_pair in Hres as (ms & row & -> & Hrow & Hlen).
  rewrite Forall_forall in Hrows. specialize (Hrows row Hrow).
  assert (Hd : length (parsing.d_results ms) = 6)
    by (unfold parsing.d_results; rewrite length_fmap; lia).
  assert (Hr : length (parsing.r_results ms) = 6)
    by (unfold parsing.r_results; rewrite length_fmap; lia).
  destruct (lookup_lt_is_Some_2 (parsing.d_results ms) k) as [v0 Hv0]; [lia|].
  destruct (lookup_lt_is_Some_2 (parsing.r_results ms) k) as [v1 Hv1]; [lia|].
  assert (Hpos : py_pos 6 (Z.of_nat k) = Some k).
  { rewrite py_pos_nonneg by lia. now rewrite Nat2Z.id. }
  destruct (create_chart_run barh round2 _ _ (Z.of_nat k) name k v0 v1
              Hbarh Hd Hr Hpos Hv0 Hv1)
    as (bars0 & bars1 & Hlen0 & Hlen1 & _ & _ & Hrun).
  destruct (lookup_lt_is_Some_2 bars0 k) as [b0 Hb0]; [lia|].
  destruct (lookup_lt_is_Some_2 bars1 k) as [b1 Hb1]; [lia|].
  rewrite (add_annot_at _ _ _ k b0) in Hrun; cycle 1.
  { cbn [charts.patches]. rewrite length_app, Hlen0, Hlen1.
    rewrite py_pos_nonneg by lia. now rewrite Nat2Z.id. }
  { cbn [charts.patches]. rewrite lookup_app_l by lia. exact Hb0. }
  cbn [mbind result_bind] in Hrun.
  rewrite (add_annot_at _ _ _ (6 + k) b1) in Hrun; cycle 1.
  { cbn [charts.patches]. rewrite length_app, Hlen0, Hlen1.
    rewrite py_pos_nonneg by lia. f_equal. lia. }
  { cbn [charts.patches]. rewrite lookup_app_r by lia. rewrite Hlen0.
    replace (6 + k - 6) with k by lia. exact Hb1. }
  eexists. split; [exact Hrun|]. cbn. rewrite length_app. lia.
Qed.

Lemma results_fit_chart_witness :
  exists ax : charts.Axes,
    charts.create_chart plain_barh (fun _ => "65.7")
      [ parsing.d_results [-65.7; -61.2; -58.4; -55.1; 40.5; 97.25]%float;
        parsing.r_results [-65.7; -61.2; -58.4; -55.1; 40.5; 97.25]%float ]
      (Z.of_nat 3) "2012-chart.png" = Ok ax /\
    length (charts.patches ax) = 12 /\ length (charts.texts ax) = 2.
Proof.
  apply (results_fit_chart no_numerals plain_barh (fun _ => "65.7")
           two_states "X").
  - exact plain_barh_draws.
  - repeat constructor.
  - reflexivity.
  - lia.
Defined.

(** * The extractor never returns a single entry *)

(** Whatever the table, [get_results] returns no series of one entry for a
    state whose name is no numeral: a row of one cell that matches the state
    is the [unit] cell alone, and [float()] raises on it. *)
Lemma get_results_no_single_entry float_of_str (data : DataFrame)
    (state : string) (a b : float) :
  float_of_str state = None ->
  parsing.get_results float_of_str data state <> Ok [[a]; [b]].
Proof.
  intros Hstate Hres.
  destruct (col_pos "unit" (columns data)) as [j|] eqn:Hj.
  - rewrite (get_results_unfold _ _ _ j Hj) in Hres.
    destruct (filter _ (rows data)) as [|r0 rs] eqn:Hfilter; [discriminate|].
    assert (Hr0 : r0 ∈ filter (fun r => py_eq (cell r j) (VStr state) = true)
                        (rows data)) by (rewrite Hfilter; constructor).
    apply list_elem_of_filter in Hr0 as [Hmatch _].
    unfold parsing.series_of_row in Hres.
    destruct (series_apply _ _) as [ms|e] eqn:Happly; cbn in Hres;
      [|discriminate].
    injection Hres as Hd _.
    assert (Hlen : length ms = 1).
    { unfold parsing.d_results in Hd.
      apply (f_equal length) in Hd. now rewrite length_fmap in Hd. }
    pose proof (series_apply_length _ _ _ Happly) as Hlen'.
    rewrite py_suffix_length, Hlen in Hlen'.
    destruct r0 as [|c0 [|c1 r0]]; cbn in Hlen'; try lia.
    destruct j as [|j]; [|discriminate Hmatch].
    cbn in Hmatch. destruct c0 as [v|s|]; try discriminate Hmatch.
    apply String.eqb_eq in Hmatch as ->.
    cbn in Happly. rewrite Hstate in Happly. discriminate.
  - unfold parsing.get_results, df_getitem in Hres. rewrite Hj in Hres.
    discriminate.
Qed.
